(** * Web-Crawling-Pipeline

    A shallow embedding of the crawl pipeline's core:
    - [TextProcessor]: content fingerprint and the duplicate ledger
      (src/utils/text_processor.py);
    - [BaseCrawler], [DynamicCrawler]: the retrying page fetch
      (src/crawlers/base_crawler.py, src/crawlers/dynamic/dynamic_crawler.py);
    - [S3Storage]: whole-object and streaming multipart persistence
      (src/storage/s3_storage.py);
    - [StaticCrawler]: link extraction, the crawl loop and post-crawl
      summary (src/crawlers/static/static_crawler.py).

    Library code the sources call into (hashlib, BeautifulSoup, urllib,
    the network, the S3 service) is taken as an interface: a type class
    whose fields are the calls the code makes. *)

From Stdlib Require Import ZArith Ascii String List Lia.
From stdpp Require Import gmap strings list pretty sorting.

(** ** Python string operations used by the sources *)

Module Py.

(** [str.lower] on the ASCII range; other code points are left alone. *)
Definition lower_char (c : ascii) : ascii :=
  let n := nat_of_ascii c in
  if (65 <=? n) && (n <=? 90) then ascii_of_nat (n + 32) else c.

Fixpoint lower (s : string) : string :=
  match s with
  | EmptyString => EmptyString
  | String c s' => String (lower_char c) (lower s')
  end.

(** [str.isspace] on the ASCII range: TAB..CR, FS..US and the blank. *)
Definition isspace (c : ascii) : bool :=
  let n := nat_of_ascii c in
  ((9 <=? n) && (n <=? 13)) || ((28 <=? n) && (n <=? 32)).

(** [str.split()] without separator: maximal runs of non-blank
    characters; [cur] is the current run, reversed. *)
Fixpoint split_go (cur : string) (s : string) : list string :=
  match s with
  | EmptyString => if cur is EmptyString then [] else [String.rev cur]
  | String c s' =>
      if isspace c
      then (if cur is EmptyString then split_go EmptyString s'
            else String.rev cur :: split_go EmptyString s')
      else split_go (String c cur) s'
  end.

Definition split (s : string) : list string := split_go EmptyString s.

(** [sep.join(l)] *)
Fixpoint join (sep : string) (l : list string) : string :=
  match l with
  | [] => EmptyString
  | [x] => x
  | x :: l' => x +:+ sep +:+ join sep l'
  end.

(** [s.startswith(p)] *)
Definition startswith (s p : string) : bool := String.prefix p s.

(** [not s] for a string. *)
Definition falsy (s : string) : bool :=
  if s is EmptyString then true else false.

(** [[s[i:i+n] for i in range(0, len(s), n)]]; the fuel is the number
    of characters left, which bounds the number of slices for [0 < n]. *)
Fixpoint slices_go (fuel n : nat) (s : list ascii) : list string :=
  match fuel with
  | 0 => []
  | S fuel' =>
      match s with
      | [] => []
      | _ => string_of_list_ascii (take n s) :: slices_go fuel' n (drop n s)
      end
  end.

Definition slices (n : nat) (s : string) : list string :=
  slices_go (String.length s) n (list_ascii_of_string s).

(** [s.endswith(p)] *)
Definition endswith (s p : string) : bool :=
  String.prefix (String.rev p) (String.rev s).

(** [sub in s], for strings. *)
Fixpoint contains (sub s : string) : bool :=
  String.prefix sub s ||
  match s with
  | EmptyString => false
  | String _ s' => contains sub s'
  end.

(** [bytes.decode('utf-8')].  A [str] is kept as its UTF-8 bytes, so
    decoding hands the bytes back when they are well-formed UTF-8
    (RFC 3629: no overlong form, no surrogate, nothing above U+10FFFF)
    and raises UnicodeDecodeError, here [None], when they are not.
    [need] continuation bytes are still due, the next one within
    [lo..hi]. *)
Fixpoint utf8_go (need lo hi : nat) (s : string) : bool :=
  match s with
  | EmptyString => need =? 0
  | String c s' =>
      let n := nat_of_ascii c in
      if need =? 0 then
        if n <? 128 then utf8_go 0 128 191 s'
        else if (194 <=? n) && (n <=? 223) then utf8_go 1 128 191 s'
        else if n =? 224 then utf8_go 2 160 191 s'
        else if (225 <=? n) && (n <=? 236) then utf8_go 2 128 191 s'
        else if n =? 237 then utf8_go 2 128 159 s'
        else if (238 <=? n) && (n <=? 239) then utf8_go 2 128 191 s'
        else if n =? 240 then utf8_go 3 144 191 s'
        else if (241 <=? n) && (n <=? 243) then utf8_go 3 128 191 s'
        else if n =? 244 then utf8_go 3 128 143 s'
        else false
      else if (lo <=? n) && (n <=? hi) then utf8_go (need - 1) 128 191 s'
      else false
  end.

Definition decode_utf8 (b : string) : option string :=
  if utf8_go 0 128 191 b then Some b else None.

(** [s.isascii()] *)
Fixpoint isascii (s : string) : bool :=
  match s with
  | EmptyString => true
  | String c s' => (nat_of_ascii c <? 128) && isascii s'
  end.

(** [l[-n:]]: the last [n] elements, the whole list when it is shorter;
    [-0] is [0], so [l[-0:]] is the whole list too. *)
Definition last_n {A} (n : nat) (l : list A) : list A :=
  if n =? 0 then l else drop (length l - n) l.

End Py.

(** ** External interfaces *)

(** hashlib: [md5(b).hexdigest()] of the bytes fed to the hasher. *)
Class Hashlib := { md5_hexdigest : string → string }.

(** A Python [set] of strings is kept as the list of its members in
    iteration order.  Where a newly added member lands in that order is
    decided by the interpreter's hash table; [slot h s] is the position
    (clamped to the length) that [h] takes when added to [s]. *)
Class PySet := { slot : string → list string → nat }.

(** The NLP collaborators of [TextProcessor] (spaCy, scikit-learn). *)
Class Nlp := {
  extract_entities : string → list (string * list string);
  extract_keywords : string → list string
}.

(** ** src/utils/text_processor.py *)

Module TextProcessor.

Record t := mk {
  content_hashes : list string;   (* a [set], in iteration order *)
  max_hashes : nat
}.

(** [__init__] *)
Definition init : t :=
  {| content_hashes := []; max_hashes := N.to_nat 10000 |}.

Section Ledger.
Context `{PySet}.

(** [s.add(h)] *)
Definition set_add (h : string) (s : list string) : list string :=
  if bool_decide (h ∈ s) then s
  else take (slot h s) s ++ h :: drop (slot h s) s.

(** [set(l)]: the members of [l] added one by one to a new set. *)
Definition set_of_list (l : list string) : list string :=
  foldl (λ s h, set_add h s) [] l.
End Ledger.

Definition chunk_size : N := 100000.

(** [calculate_content_hash]: each slice of 100000 characters is
    lower-cased and its blanks collapsed, and fed to one md5 hasher. *)
Definition normalize (chunk : string) : string :=
  Py.join " " (Py.split (Py.lower chunk)).

Definition calculate_content_hash `{Hashlib} (text : string) : string :=
  md5_hexdigest
    (String.concat "" (normalize <$> Py.slices (N.to_nat chunk_size) text)).

(** [is_duplicate]: the boolean returned and the processor afterwards. *)
Definition is_duplicate `{Hashlib, PySet} (self : t) (text : string)
  : bool * t :=
  let content_hash := calculate_content_hash text in
  let hashes :=
    if max_hashes self <=? length (content_hashes self)
    then set_of_list (Py.last_n (max_hashes self) (content_hashes self))
    else content_hashes self in
  if bool_decide (content_hash ∈ hashes)
  then (true, {| content_hashes := hashes; max_hashes := max_hashes self |})
  else (false, {| content_hashes := set_add content_hash hashes;
                  max_hashes := max_hashes self |}).

Record processed := mk_processed {
  entities : list (string * list string);
  keywords : list string;
  content_hash : string
}.

(** [process_text]: [None] for a duplicate. *)
Definition process_text `{Hashlib, PySet, Nlp} (self : t) (text : string)
  : option processed * t :=
  let '(dup, self') := is_duplicate self text in
  if dup then (None, self')
  else (Some {| entities := extract_entities text;
                keywords := extract_keywords text;
                content_hash := calculate_content_hash text |}, self').

(** A processor fed a sequence of texts, one [is_duplicate] call each. *)
Definition feed `{Hashlib, PySet} (self : t) (texts : list string) : t :=
  foldl (λ tp text, snd (is_duplicate tp text)) self texts.

End TextProcessor.

(** ** Exceptions and the outside world *)

Inductive exn :=
  | ClientError        (* botocore.exceptions.ClientError *)
  | OtherException.    (* any other [Exception] *)

Inductive result (A : Type) :=
  | Return (a : A)
  | Raise (e : exn).
Arguments Return {A} a.
Arguments Raise {A} e.

(** What one request ends in. *)
Inductive outcome :=
  | Success (body : string)     (* a response whose status check passes *)
  | ErrorStatus (body : string) (* a response with an HTTP error status:
                                   [raise_for_status] raises HTTPError, a
                                   requests.RequestException; to a browser
                                   it is the document it navigated to *)
  | RequestException            (* no response, a transport error: a
                                   requests.RequestException; the
                                   browser's navigation raises *)
  | OtherError.                 (* an exception of any other class *)

(** The network, as the requests session and the browser see it.
    [http clock url] is the outcome of the request for [url] issued when
    [clock] requests have been issued before it.  [page_content clock url]
    is what the browser that got a response to that request hands over
    once the scripts have run: the document of [page.content()], or
    [None] when that call or one of the two [close()] calls after it
    raises. *)
Class Network := {
  http : nat → string → outcome;
  page_content : nat → string → option string
}.

Inductive event :=
  | RotateUserAgent
  | Sleep (seconds : Z)
  | HttpGet (url : string)
  | AttemptFailed (attempt : nat) (url : string)   (* the [print] of a failed attempt *)
  | RobotsDisallowed (url : string)
  | Crawling (url : string)                        (* logger.info *)
  | FailedToFetch (url : string)                   (* logger.warning *)
  | SkippingDuplicate.                             (* logger.info in [parse] *)

#[global] Instance event_eq_dec : EqDecision event.
Proof. solve_decision. Defined.

Record io := mk_io {
  clock : nat;          (* requests issued so far *)
  log : list event      (* oldest first *)
}.

Definition emit (e : event) (w : io) : io :=
  {| clock := clock w; log := log w ++ [e] |}.

Definition request (url : string) (w : io) : io :=
  {| clock := S (clock w); log := log w ++ [HttpGet url] |}.

(** The requests for [url] in a log. *)
Definition requests_of (url : string) (l : list event) : nat :=
  length (filter (λ e, e = HttpGet url) l).

(** ** src/utils/config.py *)

Module config.
Definition REQUEST_DELAY : Z := 1.
Definition MAX_RETRIES : nat := 1.
Definition S3_RAW_DATA_PREFIX : string := "raw".
Definition S3_PROCESSED_DATA_PREFIX : string := "processed".

(** One entry of [WEBSITES]; a key that is absent is [None]. *)
Record website := mk_website {
  cfg_name : option string;
  cfg_url : option string;
  cfg_dynamic : option bool;
  cfg_page_limit : option nat;
  cfg_wait_time : option Z
}.

Definition WEBSITES : list website :=
  [ {| cfg_name := Some "wikipedia";
       cfg_url := Some "https://en.wikipedia.org/wiki/Main_Page";
       cfg_dynamic := Some false; cfg_page_limit := Some 100;
       cfg_wait_time := None |};
    {| cfg_name := Some "openstreetmap";
       cfg_url := Some "https://www.openstreetmap.org";
       cfg_dynamic := Some false; cfg_page_limit := Some 50;
       cfg_wait_time := None |};
    {| cfg_name := Some "project_gutenberg";
       cfg_url := Some "https://www.gutenberg.org";
       cfg_dynamic := Some false; cfg_page_limit := Some 50;
       cfg_wait_time := None |};
    {| cfg_name := Some "freecodecamp";
       cfg_url := Some "https://www.freecodecamp.org";
       cfg_dynamic := Some false; cfg_page_limit := Some 50;
       cfg_wait_time := None |};
    {| cfg_name := Some "mozilla_mdns";
       cfg_url := Some "https://developer.mozilla.org/en-US/";
       cfg_dynamic := Some false; cfg_page_limit := Some 50;
       cfg_wait_time := None |} ].

Definition NEWS_API_KEY : string := "".
End config.

(** ** src/crawlers/base_crawler.py *)

Module BaseCrawler.

Record t := mk {
  name : string;
  base_url : string;
  is_dynamic : bool;
  delay : Z;
  max_retries : nat
}.

(** [__init__] *)
Definition init (website_config : config.website) : t :=
  {| name := default "" (config.cfg_name website_config);
     base_url := default "" (config.cfg_url website_config);
     is_dynamic := default false (config.cfg_dynamic website_config);
     delay := config.REQUEST_DELAY;
     max_retries := config.MAX_RETRIES |}.

(** [_respect_robots_txt]: the placeholder allows every URL. *)
Definition _respect_robots_txt (self : t) (url : string) : bool := true.

Section GetPage.
Context `{Network}.

(** The [for attempt in range(self.max_retries)] loop of [get_page],
    over the attempt numbers still to run. *)
Fixpoint attempts (self : t) (url : string) (todo : list nat) (w : io)
  : result (option string) * io :=
  match todo with
  | [] => (Return None, w)
  | attempt :: todo' =>
      let w1 := emit RotateUserAgent w in
      let w2 := if 0 <? attempt
                then emit (Sleep (delay self * (Z.of_nat attempt + 1))) w1
                else w1 in
      let w3 := request url w2 in
      match http (clock w2) url with
      | Success text => (Return (Some text), emit (Sleep (delay self)) w3)
      | ErrorStatus _ | RequestException =>
          attempts self url todo' (emit (AttemptFailed attempt url) w3)
      | OtherError => (Raise OtherException, w3)
      end
  end.

Definition get_page (self : t) (url : string) (w : io)
  : result (option string) * io :=
  if negb (_respect_robots_txt self url)
  then (Return None, emit (RobotsDisallowed url) w)
  else attempts self url (seq 0 (max_retries self)) w.
End GetPage.

End BaseCrawler.

(** ** src/crawlers/dynamic/dynamic_crawler.py, [get_page] *)

Module DynamicCrawler.

Section GetPage.
Context `{Network}.

(** The [except Exception] clause of an attempt: the failure is
    printed, and the backoff is slept unless the attempt was the last. *)
Definition failed (self : BaseCrawler.t) (attempt : nat) (url : string)
    (w : io) : io :=
  let w' := emit (AttemptFailed attempt url) w in
  if S attempt <? BaseCrawler.max_retries self
  then emit (Sleep (BaseCrawler.delay self * (Z.of_nat attempt + 1))) w'
  else w'.

(** One attempt launches a browser and navigates to the URL; once the
    navigation has returned, with whatever status the response has, it
    waits [wait_time] for the scripts, reads the rendered document and
    closes the browser.  [except Exception] catches whatever is raised on
    the way: by the navigation, before the wait, or by the reading and
    closing, after it. *)
Fixpoint attempts (self : BaseCrawler.t) (wait_time : Z) (url : string)
    (todo : list nat) (w : io) : result (option string) * io :=
  match todo with
  | [] => (Return None, w)
  | attempt :: todo' =>
      let w1 := request url w in
      match http (clock w) url with
      | Success _ | ErrorStatus _ =>
          let w2 := emit (Sleep wait_time) w1 in
          match page_content (clock w) url with
          | Some html =>
              (Return (Some html), emit (Sleep (BaseCrawler.delay self)) w2)
          | None =>
              attempts self wait_time url todo' (failed self attempt url w2)
          end
      | RequestException | OtherError =>
          attempts self wait_time url todo' (failed self attempt url w1)
      end
  end.

Definition get_page (self : BaseCrawler.t) (wait_time : Z) (url : string)
    (w : io) : result (option string) * io :=
  if negb (BaseCrawler._respect_robots_txt self url)
  then (Return None, emit (RobotsDisallowed url) w)
  else attempts self wait_time url (seq 0 (BaseCrawler.max_retries self)) w.
End GetPage.

End DynamicCrawler.

(** ** JSON values and [json.dumps] *)

#[warnings="-register-all"] Inductive json :=
  | JNull
  | JBool (b : bool)
  | JInt (z : Z)
  | JStr (s : string)
  | JList (l : list json)
  | JObj (l : list (string * json)).

Module Json.

Definition dquote : ascii := ascii_of_nat 34.
Definition backslash : ascii := ascii_of_nat 92.

Definition hex_digit (n : nat) : ascii :=
  if n <? 10 then ascii_of_nat (48 + n) else ascii_of_nat (87 + n).

(** One character of a string literal, as [ensure_ascii=True] writes
    it: the printable ASCII range as it is, the rest escaped. *)
Definition escape_char (c : ascii) : string :=
  let n := nat_of_ascii c in
  let esc (x : ascii) := String backslash (String x EmptyString) in
  if n =? 34 then esc dquote
  else if n =? 92 then esc backslash
  else if n =? 10 then esc "n"%char
  else if n =? 13 then esc "r"%char
  else if n =? 9 then esc "t"%char
  else if n =? 8 then esc "b"%char
  else if n =? 12 then esc "f"%char
  else if (32 <=? n) && (n <=? 126) then String c EmptyString
  else String backslash
         (String "u" (String "0" (String "0"
            (String (hex_digit (n / 16))
               (String (hex_digit (n mod 16)) EmptyString))))).

Fixpoint escape (s : string) : string :=
  match s with
  | EmptyString => EmptyString
  | String c s' => escape_char c +:+ escape s'
  end.

Definition quote (s : string) : string :=
  String dquote (escape s +:+ String dquote EmptyString).

(** [json.dumps] with the default separators. *)
Fixpoint dumps (j : json) : string :=
  match j with
  | JNull => "null"
  | JBool true => "true"
  | JBool false => "false"
  | JInt z => pretty z
  | JStr s => quote s
  | JList l => "[" +:+ Py.join ", " (List.map dumps l) +:+ "]"
  | JObj l =>
      "{" +:+ Py.join ", "
                (List.map (λ kv, match kv with
                                 | (k, v) => quote k +:+ ": " +:+ dumps v
                                 end) l) +:+ "}"
  end.

End Json.

(** gzip: a compressed stream is a series of members, and decompressing
    yields the concatenation of what the members hold (RFC 1952);
    [gzip.decompress] reads all the members of its argument. *)
Class Gzip := {
  gzip_compress : string → string;
  gzip_decompress : string → option string;
  gzip_members : ∀ l : list string,
    gzip_decompress (String.concat "" (gzip_compress <$> l))
    = Some (String.concat "" l)
}.

(** [len(str(chunk))]: the length of Python's rendering of a record. *)
Class PyRepr := { str_len : json → Z }.

(** The wall clock, as the storage layer reads it. *)
Class Clock := {
  date_path : string;           (* [_get_date_path]: YYYY/MM/DD *)
  strftime_now : string;        (* strftime("%Y%m%d%H%M%S") *)
  isoformat_now : nat → string; (* [datetime.now().isoformat()], read
                                   when that many requests were issued *)
  isoformat_later : nat → string (* the same, read once more later on
                                    with no request in between *)
}.

(** pandas and pyarrow, for the formats other than JSON: the bytes of
    the table [pd.DataFrame(data)] makes, [None] when building or writing
    the table raises (the ValueError of a dict of scalars, say). *)
Class Frames := {
  to_parquet : json → option string;
  to_csv : json → option string
}.

(** What reads a stored body back: [json.loads], and pyarrow and pandas
    for the other formats; [None] when the reader raises. *)
Class Decoders := {
  json_loads : string → option json;
  read_parquet : string → option json;
  read_csv : string → option json
}.

(** ** The S3 service behind the boto3 client *)

(** Whether the API call made when [calls] calls have been made before
    raises [ClientError]. *)
Class S3Service := { client_error : nat → bool }.

Record s3_object := mk_object {
  Body : string;
  ContentType : string;
  ContentEncoding : option string
}.

Record upload := mk_upload {
  up_key : string;
  up_type : string;
  up_encoding : option string;
  up_parts : gmap nat string      (* PartNumber to the part's bytes *)
}.

Record s3 := mk_s3 {
  objects : gmap string s3_object;
  uploads : gmap nat upload;       (* open multipart sessions, by UploadId *)
  next_upload_id : nat;
  calls : nat
}.

(** Computations on the store that may raise. *)
Definition M (A : Type) : Type := s3 → result A * s3.

Definition ret {A} (a : A) : M A := λ s, (Return a, s).
Definition raise {A} (e : exn) : M A := λ s, (Raise e, s).
Definition bind {A B} (m : M A) (k : A → M B) : M B :=
  λ s, match m s with
       | (Return a, s') => k a s'
       | (Raise e, s') => (Raise e, s')
       end.

Declare Scope s3_scope.
Delimit Scope s3_scope with s3.
Notation "x <- m ;; k" := (bind m (λ x, k))
  (at level 100, m at next level, right associativity) : s3_scope.
Notation "m ;;; k" := (bind m (λ _, k))
  (at level 100, right associativity) : s3_scope.

(** [try: mpu = first; rest  except Exception as e: handler]: the
    handler sees [mpu] when [first] had bound it. *)
Definition try_bound {A B} (first : M A) (rest : A → M B)
    (handler : option A → exn → M B) : M B :=
  λ s, match first s with
       | (Raise e, s1) => handler None e s1
       | (Return a, s1) =>
           match rest a s1 with
           | (Raise e, s2) => handler (Some a) e s2
           | r => r
           end
       end.

(** [try: m  except Exception: pass] *)
Definition swallow (m : M unit) : M unit :=
  λ s, match m s with
       | (Raise _, s') => (Return (), s')
       | r => r
       end.

Module S3Client.
Section Client.
Context `{Hashlib, S3Service}.
Local Open Scope s3_scope.

Definition tick (s : s3) : s3 :=
  {| objects := objects s; uploads := uploads s;
     next_upload_id := next_upload_id s; calls := S (calls s) |}.

(** Every call reaches the service, which may refuse it. *)
Definition call : M unit :=
  λ s, if client_error (calls s) then (Raise ClientError, tick s)
       else (Return (), tick s).

Definition put_object (Key : string) (o : s3_object) : M unit :=
  call ;;;
  λ s, (Return (),
        {| objects := <[Key := o]> (objects s); uploads := uploads s;
           next_upload_id := next_upload_id s; calls := calls s |}).

(** Returns the UploadId. *)
Definition create_multipart_upload (Key ctype : string)
    (cenc : option string) : M nat :=
  call ;;;
  λ s, (Return (next_upload_id s),
        {| objects := objects s;
           uploads := <[next_upload_id s :=
                        {| up_key := Key; up_type := ctype;
                           up_encoding := cenc; up_parts := ∅ |}]>
                      (uploads s);
           next_upload_id := S (next_upload_id s);
           calls := calls s |}).

(** Returns the part's ETag. *)
Definition upload_part (Key : string) (PartNumber UploadId : nat)
    (body : string) : M string :=
  call ;;;
  λ s, match uploads s !! UploadId with
       | Some u =>
           (Return (md5_hexdigest body),
            {| objects := objects s;
               uploads := <[UploadId :=
                            {| up_key := up_key u; up_type := up_type u;
                               up_encoding := up_encoding u;
                               up_parts := <[PartNumber := body]>
                                             (up_parts u) |}]>
                          (uploads s);
               next_upload_id := next_upload_id s; calls := calls s |})
       | None => (Raise ClientError, s)
       end.

(** The bytes of the listed parts, when each is there under the
    ETag the caller names. *)
Fixpoint listed_parts (u : upload) (Parts : list (nat * string))
  : option (list string) :=
  match Parts with
  | [] => Some []
  | (n, etag) :: Parts' =>
      match up_parts u !! n with
      | Some body =>
          if bool_decide (md5_hexdigest body = etag)
          then cons body <$> listed_parts u Parts'
          else None
      | None => None
      end
  end.

(** Combines the listed parts, in the order listed, into the object
    at the session's key and closes the session. *)
Definition complete_multipart_upload (Key : string) (UploadId : nat)
    (Parts : list (nat * string)) : M unit :=
  call ;;;
  λ s, match uploads s !! UploadId with
       | Some u =>
           match listed_parts u Parts with
           | Some bodies =>
               (Return (),
                {| objects :=
                     <[up_key u :=
                       {| Body := String.concat "" bodies;
                          ContentType := up_type u;
                          ContentEncoding := up_encoding u |}]>
                     (objects s);
                   uploads := delete UploadId (uploads s);
                   next_upload_id := next_upload_id s;
                   calls := calls s |})
           | None => (Raise ClientError, s)
           end
       | None => (Raise ClientError, s)
       end.

Definition abort_multipart_upload (Key : string) (UploadId : nat)
  : M unit :=
  call ;;;
  λ s, match uploads s !! UploadId with
       | Some _ =>
           (Return (),
            {| objects := objects s;
               uploads := delete UploadId (uploads s);
               next_upload_id := next_upload_id s; calls := calls s |})
       | None => (Raise ClientError, s)
       end.

(** [head_object]: whether the key holds an object. *)
Definition head_object (Key : string) : M bool :=
  call ;;; λ s, (Return (bool_decide (is_Some (objects s !! Key))), s).

(** [get_object]: the object at the key; [NoSuchKey] is a
    [ClientError]. *)
Definition get_object (Key : string) : M s3_object :=
  call ;;;
  λ s, match objects s !! Key with
       | Some o => (Return o, s)
       | None => (Raise ClientError, s)
       end.
End Client.
End S3Client.

(** A generator handed to a streaming function: the records it yields,
    and how it ends: exhausted ([None]) or by raising. *)
Record generator := mk_generator {
  chunks : list json;
  ending : option exn
}.

Definition iter (l : list json) : generator :=
  {| chunks := l; ending := None |}.

(** ** src/storage/s3_storage.py *)

Module S3Storage.

(** The names [locals()] can hold inside [stream_raw_data] and
    [stream_processed_text_data]: the parameters and every variable
    either function assigns. *)
Definition stream_locals : list string :=
  ["self"; "source"; "data_generator"; "filename"; "timestamp"; "s3_key";
   "all_data"; "chunk"; "json_data"; "compressed_data"; "mpu"; "parts";
   "part_number"; "chunk_size"; "i"; "part"; "buffer"; "buffer_size";
   "max_buffer_size"; "e"; "abort_error"].

(** ['UploadId' in locals()] *)
Definition upload_id_in_locals : bool :=
  bool_decide ("UploadId" ∈ stream_locals).

(** The locals of the part loop of [stream_processed_text_data]. *)
Record stream_state := mk_stream {
  parts : list (nat * string);    (* PartNumber, ETag *)
  part_number : nat;
  buffer : list json;
  buffer_size : Z
}.

Definition json_object (body : string) : s3_object :=
  {| Body := body; ContentType := "application/json";
     ContentEncoding := Some "gzip" |}.

Section Storage.
Context `{Hashlib, Gzip, PyRepr, Clock, Frames, S3Service}.
Local Open Scope s3_scope.

Definition _get_date_path : string := date_path.

Definition _generate_key (source data_type filename : string) : string :=
  data_type +:+ "/" +:+ source +:+ "/" +:+ _get_date_path +:+ "/"
  +:+ filename.

(** [filename] when given and not empty, else the default name built
    from the source, the time and [suffix]. *)
Definition filename_or (filename : option string) (source suffix : string)
  : string :=
  match filename with
  | Some f => if Py.falsy f then source +:+ "_" +:+ strftime_now +:+ suffix
              else f
  | None => source +:+ "_" +:+ strftime_now +:+ suffix
  end.

(** The [except ClientError] clause of the two streaming functions:
    abort the session if ['UploadId' in locals()], then re-raise. *)
Definition on_client_error {A} (s3_key : string) (mpu : option nat)
    (e : exn) : M A :=
  (if upload_id_in_locals
   then match mpu with
        | Some UploadId =>
            swallow (S3Client.abort_multipart_upload s3_key UploadId)
        | None => ret ()     (* the NameError is caught and logged *)
        end
   else ret ()) ;;;
  raise e.

Definition store_raw_data (source : string) (data : json)
    (filename : option string) : M string :=
  let s3_key := _generate_key source config.S3_RAW_DATA_PREFIX
                  (filename_or filename source ".json.gz") in
  let json_data := Json.dumps data in
  let compressed_data := gzip_compress json_data in
  S3Client.put_object s3_key (json_object compressed_data) ;;;
  ret s3_key.

(** The part loop of [stream_raw_data], over the slices of the
    compressed bytes. *)
Fixpoint upload_slices (s3_key : string) (UploadId : nat)
    (chunks : list string) (parts : list (nat * string))
    (part_number : nat) : M (list (nat * string)) :=
  match chunks with
  | [] => ret parts
  | chunk :: chunks' =>
      etag <- S3Client.upload_part s3_key part_number UploadId chunk ;;
      upload_slices s3_key UploadId chunks'
        (parts ++ [(part_number, etag)]) (S part_number)
  end.

Definition stream_raw_data (source : string) (data_generator : generator)
    (filename : option string) : M string :=
  let s3_key := _generate_key source config.S3_RAW_DATA_PREFIX
                  (filename_or filename source ".json.gz") in
  let all_data := chunks data_generator in
  if ending data_generator is Some e then
    match e with
    | ClientError => on_client_error s3_key None e
    | OtherException => raise e
    end
  else if length all_data =? 0 then ret s3_key
  else
    let json_data := Json.dumps (JList all_data) in
    let compressed_data := gzip_compress json_data in
    if (Z.of_nat (String.length compressed_data) <? 5 * 1024 * 1024)%Z
    then
      λ s, match (S3Client.put_object s3_key (json_object compressed_data)
                  ;;; ret s3_key) s with
           | (Raise ClientError, s') => on_client_error s3_key None ClientError s'
           | r => r
           end
    else
      let chunk_size := Z.to_nat (5 * 1024 * 1024) in
      try_bound
        (S3Client.create_multipart_upload s3_key "application/json"
           (Some "gzip"))
        (λ mpu,
           parts <- upload_slices s3_key mpu
                      (Py.slices chunk_size compressed_data) [] 1 ;;
           S3Client.complete_multipart_upload s3_key mpu parts ;;;
           ret s3_key)
        (λ mpu e, match e with
                  | ClientError => on_client_error s3_key mpu e
                  | OtherException => raise e
                  end).

Definition store_processed_data (source : string) (data : json)
    (format : string) (filename : option string) : M string :=
  let s3_key := _generate_key source config.S3_PROCESSED_DATA_PREFIX
                  (filename_or filename source ("." +:+ format)) in
  if bool_decide (format = "json") then
    S3Client.put_object s3_key (json_object (gzip_compress (Json.dumps data))) ;;;
    ret s3_key
  else if bool_decide (format = "parquet") then
    match to_parquet data with
    | Some table =>
        S3Client.put_object s3_key
          {| Body := table; ContentType := "application/octet-stream";
             ContentEncoding := None |} ;;;
        ret s3_key
    | None => raise OtherException
    end
  else if bool_decide (format = "csv") then
    match to_csv data with
    | Some csv_data =>
        S3Client.put_object s3_key
          {| Body := gzip_compress csv_data; ContentType := "text/csv";
             ContentEncoding := Some "gzip" |} ;;;
        ret s3_key
    | None => raise OtherException
    end
  else raise OtherException.     (* ValueError: unsupported format *)

Definition store_processed_text_data (source : string) (data : json)
    (filename : option string) : M string :=
  let s3_key := _generate_key source "text_processed"
                  (filename_or filename source "_text.json.gz") in
  let json_data := Json.dumps data in
  let compressed_data := gzip_compress json_data in
  S3Client.put_object s3_key (json_object compressed_data) ;;;
  ret s3_key.

(** [for chunk in data_generator] of [stream_processed_text_data]:
    append to the buffer, and upload the buffer as the next part
    once its size reaches [max_buffer_size]. *)
Fixpoint process_chunks (max_buffer_size : Z) (s3_key : string)
    (UploadId : nat) (data_generator : list json) (ending : option exn)
    (st : stream_state) : M stream_state :=
  match data_generator with
  | [] => if ending is Some e then raise e else ret st
  | chunk :: rest =>
      let buffer1 := buffer st ++ [chunk] in
      let buffer_size1 := (buffer_size st + str_len chunk)%Z in
      if (max_buffer_size <=? buffer_size1)%Z then
        let json_data := Json.dumps (JList buffer1) in
        let compressed_data := gzip_compress json_data in
        etag <- S3Client.upload_part s3_key (part_number st) UploadId
                  compressed_data ;;
        process_chunks max_buffer_size s3_key UploadId rest ending
          {| parts := parts st ++ [(part_number st, etag)];
             part_number := S (part_number st);
             buffer := []; buffer_size := 0 |}
      else
        process_chunks max_buffer_size s3_key UploadId rest ending
          {| parts := parts st; part_number := part_number st;
             buffer := buffer1; buffer_size := buffer_size1 |}
  end.

(** [stream_processed_text_data], with the size at which the buffer
    is uploaded as a parameter. *)
Definition stream_with (max_buffer_size : Z) (source : string)
    (data_generator : generator) (filename : option string) : M string :=
  let s3_key := _generate_key source "text_processed"
                  (filename_or filename source "_text.json.gz") in
  try_bound
    (S3Client.create_multipart_upload s3_key "application/json"
       (Some "gzip"))
    (λ mpu,
       st <- process_chunks max_buffer_size s3_key mpu
               (chunks data_generator) (ending data_generator)
               {| parts := []; part_number := 1; buffer := [];
                  buffer_size := 0 |} ;;
       parts <- (if buffer st is [] then ret (parts st)
                 else
                   let json_data := Json.dumps (JList (buffer st)) in
                   let compressed_data := gzip_compress json_data in
                   etag <- S3Client.upload_part s3_key (part_number st)
                             mpu compressed_data ;;
                   ret (parts st ++ [(part_number st, etag)])) ;;
       S3Client.complete_multipart_upload s3_key mpu parts ;;;
       ret s3_key)
    (λ mpu e, match e with
              | ClientError => on_client_error s3_key mpu e
              | OtherException => raise e
              end).

Definition max_buffer_size : Z := 5 * 1024 * 1024.

Definition stream_processed_text_data (source : string)
    (data_generator : generator) (filename : option string) : M string :=
  stream_with max_buffer_size source data_generator filename.

(** [check_file_exists] *)
Definition check_file_exists (key : string) : M bool :=
  S3Client.head_object key.

(** [__init__]: [_verify_bucket] lists the buckets and heads the
    configured one, which is taken to exist. *)
Definition init : M unit :=
  S3Client.call ;;; S3Client.call.

(** A reader's result; a reader that raises raises no [ClientError]. *)
Definition decoded (r : option json) : M json :=
  match r with
  | Some j => ret j
  | None => raise OtherException
  end.

(** [load_data] *)
Definition load_data `{Decoders} (key : string) : M json :=
  response <- S3Client.get_object key ;;
  let content_type := ContentType response in
  let content_encoding := default "" (ContentEncoding response) in
  body <- (if bool_decide (content_encoding = "gzip")
           then match gzip_decompress (Body response) with
                | Some b => ret b
                | None => raise OtherException     (* BadGzipFile *)
                end
           else ret (Body response)) ;;
  if Py.contains "json" content_type then decoded (json_loads body)
  else if Py.contains "parquet" content_type || Py.endswith key ".parquet"
  then decoded (read_parquet body)
  else if Py.contains "csv" content_type || Py.endswith key ".csv"
  then decoded (read_csv body)
  else match Py.decode_utf8 body with
       | Some text => ret (JObj [("raw", JStr text)])
       | None => raise OtherException     (* UnicodeDecodeError *)
       end.
End Storage.

End S3Storage.

(** ** src/crawlers/static/static_crawler.py *)

(** The extraction collaborators: BeautifulSoup and urllib. *)
Class Extraction := {
  (** [[link['href'] for link in soup.find_all('a', href=True)]] *)
  anchors : string → list string;
  (** [urllib.parse.urljoin] *)
  urljoin : string → string → string;
  (** [extract_text]: the visible text of a document *)
  extract_text : string → string
}.

Module StaticCrawler.

Record metrics_t := mk_metrics {
  start_time : string;
  end_time : option string;
  total_pages : nat;
  successful_crawls : nat;
  failed_crawls : nat
}.

(** A [StaticCrawler]; a [DynamicCrawler] is one with a [wait_time],
    and its own [get_page]. *)
Record t := mk {
  base : BaseCrawler.t;
  wait_time : option Z;
  visited_urls : gset string;
  page_limit : nat;
  text_processor : TextProcessor.t;
  metrics : metrics_t
}.

(** What [parse] returns for a page that is not a duplicate (images and
    meta tags, which no later step reads, are left out). *)
Record parsed := mk_parsed {
  p_text : string;
  p_html : string;
  p_entities : list (string * list string);
  p_keywords : list string;
  p_content_hash : string
}.

(** The record yielded to the text stream. *)
Record text_data := mk_text_data {
  td_url : string;
  td_entities : list (string * list string);
  td_keywords : list string;
  td_content_hash : string;
  td_timestamp : string
}.

(** The record appended to [crawled_data]. *)
Record page_data := mk_page_data {
  pd_text : string;
  pd_html : string;
  pd_url : string;
  pd_hash : string;
  pd_crawler : string;
  pd_timestamp : string;
  pd_source_url : string
}.

Definition text_data_json (d : text_data) : json :=
  JObj [("url", JStr (td_url d));
        ("entities",
         JObj ((λ kv, (fst kv, JList (JStr <$> snd kv))) <$> td_entities d));
        ("keywords", JList (JStr <$> td_keywords d));
        ("content_hash", JStr (td_content_hash d));
        ("timestamp", JStr (td_timestamp d))].

(** The locals of [_crawl] that the generator shares, the crawler and
    the world, between two iterations of the loop. *)
Record frame := mk_frame {
  self : t;
  to_visit : list string;
  pages_processed : nat;
  crawled_data : list page_data;
  yielded : list text_data;
  world : io
}.

(** One evaluation of the [while] condition and, if it holds, of the
    loop body. *)
Inductive step :=
  | Continue (f : frame)
  | Stop
  | Crash (e : exn) (f : frame).

(** How the generator ended, and the frame it left. *)
Inductive ended :=
  | Exhausted (f : frame)
  | Raised (e : exn) (f : frame).

Definition ended_frame (r : ended) : frame :=
  match r with Exhausted f => f | Raised _ f => f end.

Section Crawler.
Context `{Hashlib, PySet, Nlp, Network, Extraction, Clock}.

(** [__init__], at the time [now]. *)
Definition init (website_config : config.website) (now : string) : t :=
  {| base := BaseCrawler.init website_config;
     wait_time := None;
     visited_urls := ∅;
     page_limit := default 100 (config.cfg_page_limit website_config);
     text_processor := TextProcessor.init;
     metrics := {| start_time := now; end_time := None; total_pages := 0;
                   successful_crawls := 0; failed_crawls := 0 |} |}.

(** [self.get_page], dispatched on the class of [self]. *)
Definition get_page (self : t) (url : string) (w : io)
  : result (option string) * io :=
  match wait_time self with
  | None => BaseCrawler.get_page (base self) url w
  | Some wt => DynamicCrawler.get_page (base self) wt url w
  end.

(** The test that skips empty links, anchors and javascript links. *)
Definition skip_href (href : string) : bool :=
  Py.falsy href || Py.startswith href "#" || Py.startswith href "javascript:".

(** The loop of [extract_links] over the [href]s of the document. *)
Fixpoint links_of (self : t) (base_url : string) (hrefs links : list string)
  : list string :=
  match hrefs with
  | [] => links
  | href :: hrefs' =>
      if skip_href href then links_of self base_url hrefs' links
      else
        let absolute_url := urljoin base_url href in
        if Py.startswith absolute_url (BaseCrawler.base_url (base self))
        then links_of self base_url hrefs' (links ++ [absolute_url])
        else links_of self base_url hrefs' links
  end.

Definition extract_links (self : t) (html base_url : string) : list string :=
  links_of self base_url (anchors html) [].

(** [parse]: [None] for duplicate content; the text processor changes
    either way. *)
Definition parse (self : t) (html : string)
  : option parsed * TextProcessor.t :=
  let text := extract_text html in
  match TextProcessor.process_text (text_processor self) text with
  | (None, tp) => (None, tp)
  | (Some processed_text, tp) =>
      (Some {| p_text := text; p_html := html;
               p_entities := TextProcessor.entities processed_text;
               p_keywords := TextProcessor.keywords processed_text;
               p_content_hash := TextProcessor.content_hash processed_text |},
       tp)
  end.

(** [_get_url_hash] *)
Definition _get_url_hash (url : string) : string := md5_hexdigest url.

(** The body of [for link in links]: append unless visited or queued. *)
Definition offer (visited : gset string) (to_visit : list string)
    (link : string) : list string :=
  if bool_decide (link ∉ visited) && bool_decide (link ∉ to_visit)
  then to_visit ++ [link] else to_visit.

Definition enqueue_links (visited : gset string) (to_visit links : list string)
  : list string :=
  foldl (offer visited) to_visit links.

(** [not html], for what [get_page] returns. *)
Definition not_html (html : option string) : bool :=
  match html with None => true | Some h => Py.falsy h end.

Definition with_state (self : t) (visited : gset string)
    (tp : TextProcessor.t) : t :=
  {| base := base self; wait_time := wait_time self; visited_urls := visited;
     page_limit := page_limit self; text_processor := tp;
     metrics := metrics self |}.

(** One turn of the [while] loop of [text_data_generator]. *)
Definition loop_step (f : frame) : step :=
  match to_visit f with
  | [] => Stop
  | url :: rest =>
      if negb (size (visited_urls (self f)) <? page_limit (self f)) then Stop
      else if bool_decide (url ∈ visited_urls (self f)) then
        Continue {| self := self f; to_visit := rest;
                    pages_processed := pages_processed f;
                    crawled_data := crawled_data f; yielded := yielded f;
                    world := world f |}
      else
        match get_page (self f) url (emit (Crawling url) (world f)) with
        | (Raise e, w) =>
            Crash e {| self := self f; to_visit := rest;
                       pages_processed := pages_processed f;
                       crawled_data := crawled_data f; yielded := yielded f;
                       world := w |}
        | (Return html, w) =>
            if not_html html then
              Continue {| self := self f; to_visit := rest;
                          pages_processed := pages_processed f;
                          crawled_data := crawled_data f;
                          yielded := yielded f;
                          world := emit (FailedToFetch url) w |}
            else
              let html := default "" html in
              let visited := {[url]} ∪ visited_urls (self f) in
              match parse (self f) html with
              | (None, tp) =>
                  Continue {| self := with_state (self f) visited tp;
                              to_visit := rest;
                              pages_processed := pages_processed f;
                              crawled_data := crawled_data f;
                              yielded := yielded f;
                              world := emit SkippingDuplicate w |}
              | (Some page, tp) =>
                  let timestamp := isoformat_now (clock w) in
                  let text_data :=
                    {| td_url := url; td_entities := p_entities page;
                       td_keywords := p_keywords page;
                       td_content_hash := p_content_hash page;
                       td_timestamp := timestamp |} in
                  let page_data :=
                    {| pd_text := p_text page; pd_html := p_html page;
                       pd_url := url; pd_hash := _get_url_hash url;
                       pd_crawler := BaseCrawler.name (base (self f));
                       pd_timestamp := timestamp;
                       pd_source_url :=
                         BaseCrawler.base_url (base (self f)) |} in
                  let self' := with_state (self f) visited tp in
                  let links := extract_links self' html url in
                  Continue {| self := self';
                              to_visit := enqueue_links visited rest links;
                              pages_processed := S (pages_processed f);
                              crawled_data := crawled_data f ++ [page_data];
                              yielded := yielded f ++ [text_data];
                              world := w |}
              end
        end
  end.

(** [text_data_generator] run until it is exhausted or raises; [None]
    when the fuel does not cover the turns it takes. *)
Fixpoint text_data_generator (fuel : nat) (f : frame) : option ended :=
  match fuel with
  | 0 => None
  | S fuel' =>
      match loop_step f with
      | Continue f' => text_data_generator fuel' f'
      | Stop => Some (Exhausted f)
      | Crash e f' => Some (Raised e f')
      end
  end.

(** The frame in which [_crawl] starts the generator. *)
Definition start (self : t) (w : io) : frame :=
  {| self := self; to_visit := [BaseCrawler.base_url (base self)];
     pages_processed := 0; crawled_data := []; yielded := []; world := w |}.
End Crawler.

Section Crawl.
Context `{Hashlib, PySet, Nlp, Network, Extraction, Clock, Gzip, PyRepr,
          Frames, S3Service}.
Local Open Scope s3_scope.

Definition summary_json (m : metrics_t) : json :=
  JObj [("total_pages", JInt (Z.of_nat (total_pages m)));
        ("successful_crawls", JInt (Z.of_nat (successful_crawls m)));
        ("failed_crawls", JInt (Z.of_nat (failed_crawls m)));
        ("start_time", JStr (start_time m));
        ("end_time", if end_time m is Some e then JStr e else JNull)].

Definition summary_filename (self : t) : string :=
  BaseCrawler.name (base self) +:+ "_summary.json".

Definition sitemap_filename (self : t) : string :=
  BaseCrawler.name (base self) +:+ "_sitemap.json".

(** [_post_crawl_processing], run when the world is [w]: the crawler
    with its metrics updated, once both artifacts are stored.  The
    sitemap lists [list(self.visited_urls)], the members in the
    iteration order the interpreter's table gives them ([slot]: the
    table is any, and so is the order), and reads the clock anew. *)
Definition _post_crawl_processing (self : t) (w : io) : M t :=
  let metrics' :=
    {| start_time := start_time (metrics self);
       end_time := Some (isoformat_now (clock w));
       total_pages := size (visited_urls self);
       successful_crawls := size (visited_urls self);
       failed_crawls := failed_crawls (metrics self) |} in
  let summary := summary_json metrics' in
  S3Storage.store_processed_data (BaseCrawler.name (base self)) summary
    "json" (Some (summary_filename self)) ;;;
  let urls := TextProcessor.set_of_list (elements (visited_urls self)) in
  let sitemap :=
    JObj [("urls", JList (JStr <$> urls));
          ("last_updated", JStr (isoformat_later (clock w)))] in
  S3Storage.store_processed_data (BaseCrawler.name (base self)) sitemap
    "json" (Some (sitemap_filename self)) ;;;
  ret {| base := base self; wait_time := wait_time self;
         visited_urls := visited_urls self; page_limit := page_limit self;
         text_processor := text_processor self; metrics := metrics' |}.

(** [crawl]: the storage client is created, the generator is streamed
    to the text object and, if that returns, the post-crawl processing
    runs.  The generator is run as far as it goes and its records are
    handed over together; when the upload raises, the exception and the
    store are what the caller gets. *)
Definition crawl (fuel : nat) (self : t) (w : io) (s : s3)
  : option (result (list page_data * t * io) * s3) :=
  match S3Storage.init s with
  | (Raise e, s0) => Some (Raise e, s0)
  | (Return _, s0) =>
      match text_data_generator fuel (start self w) with
      | None => None
      | Some r =>
          let f := ended_frame r in
          let data_generator :=
            {| chunks := text_data_json <$> yielded f;
               ending := match r with
                         | Raised e _ => Some e
                         | Exhausted _ => None
                         end |} in
          match (S3Storage.stream_processed_text_data
                   (BaseCrawler.name (base (StaticCrawler.self f)))
                   data_generator None ;;;
                 _post_crawl_processing (StaticCrawler.self f) (world f)) s0
          with
          | (Raise e, s') => Some (Raise e, s')
          | (Return self', s') =>
              Some (Return (crawled_data f, self', world f), s')
          end
      end
  end.
End Crawl.

End StaticCrawler.

(** ** src/crawlers/crawler_factory.py *)

Module CrawlerFactory.

(** [create_crawler]: a [DynamicCrawler], which also reads [wait_time],
    when the configuration says [dynamic]. *)
Definition create_crawler (website_config : config.website) (now : string)
  : StaticCrawler.t :=
  let c := StaticCrawler.init website_config now in
  if default false (config.cfg_dynamic website_config)
  then {| StaticCrawler.base := StaticCrawler.base c;
          StaticCrawler.wait_time :=
            Some (default 5%Z (config.cfg_wait_time website_config));
          StaticCrawler.visited_urls := StaticCrawler.visited_urls c;
          StaticCrawler.page_limit := StaticCrawler.page_limit c;
          StaticCrawler.text_processor := StaticCrawler.text_processor c;
          StaticCrawler.metrics := StaticCrawler.metrics c |}
  else c.

(** The loop of [create_all_crawlers] over the configurations from the
    [i]-th on; [now i] is the time the [i]-th crawler is created at. *)
Fixpoint create_from (now : nat → string) (i : nat)
    (websites : list config.website) (crawlers : gmap string StaticCrawler.t)
  : gmap string StaticCrawler.t :=
  match websites with
  | [] => crawlers
  | website_config :: websites' =>
      let name := default "" (config.cfg_name website_config) in
      create_from now (S i) websites'
        (<[name := create_crawler website_config (now i)]> crawlers)
  end.

(** [create_all_crawlers], for the list [WEBSITES] of the
    configuration. *)
Definition create_all_crawlers (WEBSITES : list config.website)
    (now : nat → string) : gmap string StaticCrawler.t :=
  create_from now 0 WEBSITES ∅.

End CrawlerFactory.

(** ** src/news_api/news_api_client.py *)

(** An article: the dict, and what [article.get("url", "")] gives
    for it. *)
Record article := mk_article {
  art_url : string;
  art_json : json
}.

(** How the request of [fetch_news_api] ends. *)
Inductive newsapi_outcome :=
  | Articles (l : list article)   (* [data.get("articles", [])] *)
  | NewsRequestException          (* caught: an error entry, no article *)
  | NewsOtherError.               (* any other exception: not caught *)

(** NewsAPI and feedparser. *)
Class NewsSources := {
  (** [datetime.datetime.now().isoformat()] at the start of
      [fetch_logistics_news] *)
  news_timestamp : string;
  newsapi_everything : newsapi_outcome;
  (** The entries of a feed in the common format; [None] when
      [feedparser.parse] or the conversion raises. *)
  feed_articles : string → option (list article)
}.

Module NewsApiClient.

Record news := mk_news {
  timestamp : string;
  sources : list string;
  articles : list article;
  total_articles : nat
}.

Definition logistics_rss_feeds : list string :=
  ["https://www.supplychaindive.com/feeds/news/";
   "https://www.freightwaves.com/news/feed";
   "https://theloadstar.com/feed/"].

(** The de-duplication loop: [unique_articles], a dict from URL to
    article in insertion order. *)
Fixpoint unique_by_url (all_articles : list article)
    (unique_articles : list (string * article)) : list (string * article) :=
  match all_articles with
  | [] => unique_articles
  | a :: rest =>
      let url := art_url a in
      if negb (Py.falsy url) && bool_decide (url ∉ unique_articles.*1)
      then unique_by_url rest (unique_articles ++ [(url, a)])
      else unique_by_url rest unique_articles
  end.

Section Fetch.
Context `{NewsSources}.

(** The loop over the RSS feeds. *)
Fixpoint fetch_feeds (feeds : list string)
    (acc : list string * list article) : list string * list article :=
  match feeds with
  | [] => acc
  | feed_url :: feeds' =>
      match feed_articles feed_url with
      | Some l =>
          fetch_feeds feeds' (acc.1 ++ ["rss:" +:+ feed_url], acc.2 ++ l)
      | None => fetch_feeds feeds' acc     (* "error" in rss_data *)
      end
  end.

(** [fetch_logistics_news], for a client with the key [api_key]. *)
Definition fetch_logistics_news (api_key : string) : result news :=
  let from_api :=
    if Py.falsy api_key then Return ([], [])
    else match newsapi_everything with
         | Articles l => Return (["newsapi"], l)
         | NewsRequestException => Return (["newsapi"], [])
         | NewsOtherError => Raise OtherException
         end in
  match from_api with
  | Raise e => Raise e
  | Return acc =>
      let '(sources, all_articles) := fetch_feeds logistics_rss_feeds acc in
      let unique_articles := unique_by_url all_articles [] in
      Return {| timestamp := news_timestamp;
                sources := sources;
                articles := unique_articles.*2;
                total_articles := length unique_articles.*2 |}
  end.

(** The dict [fetch_logistics_news] returns, as JSON. *)
Definition news_json (data : news) : json :=
  JObj [("timestamp", JStr (timestamp data));
        ("sources", JList (JStr <$> sources data));
        ("articles", JList (art_json <$> articles data));
        ("total_articles", JInt (Z.of_nat (total_articles data)))].
End Fetch.

End NewsApiClient.

(** ** src/main.py *)

(** What [crawl_websites] runs for one site and around the loop, on a
    world [W] of network, clock and store. *)
Class SiteRuns (W : Type) := {
  (** [S3Storage()] *)
  storage_init : W → result unit * W;
  (** The body of the [try]: the crawler is created, the site crawled
      and the pages streamed to the raw store; the key returned, or the
      exception. *)
  crawl_and_stream : config.website → option string → W → result string * W;
  (** [datetime.now().isoformat()] *)
  isoformat_at : W → string
}.

Module Main.

(** An entry of [results["websites"]]. *)
Inductive site_result :=
  | Succeeded (s3_key : string)   (* success: True, s3_key *)
  | NotConfigured                 (* success: False, error: "Website
                                     configuration not found for ..." *)
  | Failed (e : exn).             (* success: False, error: str(e) *)

Record results := mk_results {
  start_time : string;
  websites : list (option string * site_result);   (* a dict, in
                                                      insertion order *)
  total_pages : nat;
  successful_crawls : nat;
  failed_crawls : nat;
  end_time : option string
}.

(** [d[k] = v] on a dict kept in insertion order. *)
Fixpoint dict_set {V} (k : option string) (v : V)
    (d : list (option string * V)) : list (option string * V) :=
  match d with
  | [] => [(k, v)]
  | (k', v') :: d' =>
      if decide (k' = k) then (k, v) :: d' else (k', v') :: dict_set k v d'
  end.

(** [d[k]] *)
Fixpoint dict_get {V} (k : option string) (d : list (option string * V))
  : option V :=
  match d with
  | [] => None
  | (k', v') :: d' => if decide (k' = k) then Some v' else dict_get k d'
  end.

(** The search for the site's configuration: the first whose name is
    [website_name]. *)
Fixpoint find_config (WEBSITES : list config.website)
    (website_name : option string) : option config.website :=
  match WEBSITES with
  | [] => None
  | config_item :: rest =>
      if decide (config.cfg_name config_item = website_name)
      then Some config_item
      else find_config rest website_name
  end.

(** [not website_config], for a configuration that was found: an empty
    dict is falsy. *)
Definition empty_config (c : config.website) : bool :=
  match c with
  | config.mk_website None None None None None => true
  | _ => false
  end.

Section CrawlWebsites.
Context {W : Type} `{SiteRuns W}.

Definition record_result (r : results) (website_name : option string)
    (entry : site_result) : results :=
  {| start_time := start_time r;
     websites := dict_set website_name entry (websites r);
     total_pages := total_pages r;
     successful_crawls :=
       if entry is Succeeded _ then S (successful_crawls r)
       else successful_crawls r;
     failed_crawls :=
       if entry is Succeeded _ then failed_crawls r
       else S (failed_crawls r);
     end_time := end_time r |}.

(** The body of [for website_name in website_names]. *)
Definition visit (WEBSITES : list config.website) (acc : results * W)
    (website_name : option string) : results * W :=
  let '(r, w) := acc in
  match find_config WEBSITES website_name with
  | Some website_config =>
      if empty_config website_config
      then (record_result r website_name NotConfigured, w)
      else
        match crawl_and_stream website_config website_name w with
        | (Return s3_key, w') =>
            (record_result r website_name (Succeeded s3_key), w')
        | (Raise e, w') => (record_result r website_name (Failed e), w')
        end
  | None => (record_result r website_name NotConfigured, w)
  end.

(** The names crawled: those given, or every configured name when none
    is given. *)
Definition names_to_crawl (WEBSITES : list config.website)
    (website_names : option (list string)) : list (option string) :=
  match website_names with
  | Some (name :: names) => Some <$> (name :: names)
  | _ => config.cfg_name <$> WEBSITES
  end.

(** [crawl_websites], for the list [WEBSITES] of the configuration. *)
Definition crawl_websites (WEBSITES : list config.website)
    (website_names : option (list string)) (w : W) : result results * W :=
  let website_names := names_to_crawl WEBSITES website_names in
  let results :=
    {| start_time := isoformat_at w; websites := []; total_pages := 0;
       successful_crawls := 0; failed_crawls := 0; end_time := None |} in
  match storage_init w with
  | (Raise e, w1) => (Raise e, w1)
  | (Return _, w1) =>
      let '(r, w2) := foldl (visit WEBSITES) (results, w1) website_names in
      (Return {| start_time := start_time r; websites := websites r;
                 total_pages := total_pages r;
                 successful_crawls := successful_crawls r;
                 failed_crawls := failed_crawls r;
                 end_time := Some (isoformat_at w2) |}, w2)
  end.
End CrawlWebsites.

(** What [fetch_news] reports. *)
Record news_results := mk_news_results {
  nr_start_time : string;
  nr_sources : list string;
  nr_success : bool;
  nr_s3_key : option string;
  nr_article_count : option nat;
  nr_error : option exn;
  nr_end_time : string
}.

Section FetchNews.
Context `{NewsSources, Hashlib, Gzip, PyRepr, Clock, Frames, S3Service}.
Local Open Scope s3_scope.

(** [fetch_news], [started] and [ended] being the times read at its
    start and at its end.  [NewsApiClient()] takes its key from the
    configuration. *)
Definition fetch_news (started ended : string) : M news_results :=
  let failed e :=
    {| nr_start_time := started; nr_sources := []; nr_success := false;
       nr_s3_key := None; nr_article_count := None; nr_error := Some e;
       nr_end_time := ended |} in
  λ s,
    match NewsApiClient.fetch_logistics_news config.NEWS_API_KEY with
    | Raise e => (Return (failed e), s)
    | Return data =>
        match (S3Storage.init ;;;
               S3Storage.store_raw_data "news_api"
                 (NewsApiClient.news_json data) None) s with
        | (Return s3_key, s') =>
            (Return {| nr_start_time := started;
                       nr_sources := NewsApiClient.sources data;
                       nr_success := true; nr_s3_key := Some s3_key;
                       nr_article_count :=
                         Some (NewsApiClient.total_articles data);
                       nr_error := None; nr_end_time := ended |}, s')
        | (Raise e, s') => (Return (failed e), s')
        end
    end.
End FetchNews.

End Main.

(** ** src/utils/text_processor.py, [extract_entities] and
    [extract_keywords] *)

(** spaCy and scikit-learn, one chunk at a time. *)
Class Models := {
  (** [[(ent.label_, ent.text) for ent in self.nlp(chunk).ents]] *)
  doc_ents : string → list (string * string);
  (** [chunk_keywords] for [top_n] and a chunk: the features of
      [fit_transform([chunk])] at [np.argsort(scores)[-top_n:][::-1]];
      [None] when scikit-learn raises (on an empty vocabulary, say). *)
  top_features : nat → string → option (list string)
}.

Module NlpMethods.

(** [d[k].append(v)] on a [defaultdict(list)] kept in insertion order. *)
Fixpoint append_to (k v : string) (d : list (string * list string))
  : list (string * list string) :=
  match d with
  | [] => [(k, [v])]
  | (k', vs) :: d' =>
      if decide (k' = k) then (k', vs ++ [v]) :: d'
      else (k', vs) :: append_to k v d'
  end.

(** [d[k] += 1] on a [defaultdict(int)] kept in insertion order. *)
Fixpoint count_up (k : string) (d : list (string * nat))
  : list (string * nat) :=
  match d with
  | [] => [(k, 1)]
  | (k', n) :: d' =>
      if decide (k' = k) then (k', S n) :: d' else (k', n) :: count_up k d'
  end.

(** [sorted(items, key=lambda x: x[1], reverse=True)]: the sort is
    stable, so items of equal count keep their order. *)
Fixpoint insert_by_count (x : string * nat) (sorted : list (string * nat))
  : list (string * nat) :=
  match sorted with
  | [] => [x]
  | y :: rest =>
      if x.2 <? y.2 then y :: insert_by_count x rest else x :: y :: rest
  end.

Definition sorted_by_count (items : list (string * nat))
  : list (string * nat) :=
  foldr insert_by_count [] items.

(** [list(dict.fromkeys(l))]: the first occurrence of each member. *)
Definition fromkeys (l : list string) : list string :=
  foldl (λ keys x, if bool_decide (x ∈ keys) then keys else keys ++ [x]) [] l.

(** The [except] branch of [extract_keywords].  A text is kept as its
    bytes: on an ASCII text, one byte a character, [Py.lower], [Py.split]
    and [String.length] are [str.lower], [str.split] and [len]. *)
Definition basic_keywords (text : string) (top_n : nat) : list string :=
  let words := Py.split (Py.lower text) in
  let word_freq :=
    foldl (λ d word, if 3 <? String.length word then count_up word d else d)
      [] words in
  (take top_n (sorted_by_count word_freq)).*1.

Section Methods.
Context `{Models}.

(** [extract_entities] *)
Definition extract_entities (text : string) : list (string * list string) :=
  foldl (λ entities chunk,
           foldl (λ entities ent, append_to ent.1 ent.2 entities)
             entities (doc_ents chunk))
    [] (Py.slices (N.to_nat TextProcessor.chunk_size) text).

(** The loop of the [try] branch of [extract_keywords]; [None] when a
    chunk makes scikit-learn raise. *)
Fixpoint chunk_keywords (top_n : nat) (chunks all_keywords : list string)
  : option (list string) :=
  match chunks with
  | [] => Some all_keywords
  | chunk :: chunks' =>
      match top_features top_n chunk with
      | Some keywords => chunk_keywords top_n chunks' (all_keywords ++ keywords)
      | None => None
      end
  end.

(** [extract_keywords] *)
Definition extract_keywords (text : string) (top_n : nat) : list string :=
  match chunk_keywords top_n
          (Py.slices (N.to_nat TextProcessor.chunk_size) text) [] with
  | Some all_keywords => take top_n (fromkeys all_keywords)
  | None => basic_keywords text top_n
  end.

(** The text processor's collaborators, from the two methods;
    [process_text] calls [extract_keywords] with the default [top_n]. *)
Definition nlp : Nlp :=
  Build_Nlp extract_entities (λ text, extract_keywords text 10).
End Methods.

End NlpMethods.

(** * Notions used in the statements *)

(** The signature of a fetch that made [n] attempts and gave up. *)
Definition gave_up_after (n : nat) (url : string) (w : io)
    (r : result (option string) * io) : Prop :=
  r.1 = Return None ∧
  clock r.2 = clock w + n ∧
  requests_of url (log r.2) = requests_of url (log w) + n.

(** [m] leaves the objects as they are and closes no session, whether it
    returns or raises. *)
Definition keeps {A} (id : nat) (m : M A) : Prop :=
  ∀ s r s', m s = (r, s') →
    objects s' = objects s ∧
    (is_Some (uploads s !! id) → is_Some (uploads s' !! id)).

(** The buffers [process_chunks] uploads for a run of records, and the
    buffer it is left with. *)
Fixpoint flushed `{PyRepr} (max_buffer_size : Z) (records buffer : list json)
    (buffer_size : Z) : list (list json) * list json :=
  match records with
  | [] => ([], buffer)
  | chunk :: rest =>
      let buffer1 := buffer ++ [chunk] in
      let buffer_size1 := (buffer_size + str_len chunk)%Z in
      if (max_buffer_size <=? buffer_size1)%Z
      then let '(ps, b) := flushed max_buffer_size rest [] 0 in
           (buffer1 :: ps, b)
      else flushed max_buffer_size rest buffer1 buffer_size1
  end.

(** The parts of a whole stream: the buffers uploaded by the loop, then
    the remaining buffer if it holds anything. *)
Definition split_parts `{PyRepr} (max_buffer_size : Z) (records : list json)
  : list (list json) :=
  let '(ps, b) := flushed max_buffer_size records [] 0 in
  ps ++ (if b is [] then [] else [b]).

(** The bytes uploaded for a buffer. *)
Definition part_body `{Gzip} (part : list json) : string :=
  gzip_compress (Json.dumps (JList part)).

(** The [Parts] list for bodies uploaded under the numbers from [start]. *)
Definition part_entries `{Hashlib} (start : nat) (bodies : list string)
  : list (nat * string) :=
  imap (λ i b, (start + i, md5_hexdigest b)) bodies.

(** The session [id] is open for [key] and holds [bodies] as its parts
    1, 2, ... *)
Definition session_holds (id : nat) (key : string) (bodies : list string)
    (s : s3) : Prop :=
  ∃ u, uploads s !! id = Some u ∧ up_key u = key ∧
       up_type u = "application/json" ∧ up_encoding u = Some "gzip" ∧
       ∀ i b, bodies !! i = Some b → up_parts u !! (S i) = Some b.

(** The decompressed content of a streamed object: its parts, each a
    JSON array, one after the other. *)
Definition dumps_parts (parts : list (list json)) : string :=
  String.concat "" ((λ p, Json.dumps (JList p)) <$> parts).

(** The fetches of [url] in a log: the loop logs [Crawling url] right
    before each [get_page url]. *)
Definition fetches_of (url : string) (l : list event) : nat :=
  length (filter (λ e, e = Crawling url) l).

(** One loop turn leads from [f] to [f']. *)
Definition turn `{Hashlib, PySet, Nlp, Network, Extraction, Clock}
    (f f' : StaticCrawler.frame) : Prop :=
  StaticCrawler.loop_step f = StaticCrawler.Continue f'.

Section Turns.
Context `{Hashlib, PySet, Nlp, Network, Extraction, Clock}.

Local Abbreviation visited f :=
  (StaticCrawler.visited_urls (StaticCrawler.self f)).
Local Abbreviation queue f := (StaticCrawler.to_visit f).
Local Abbreviation log_of f := (log (StaticCrawler.world f)).

(** The three ways a loop turn continues: the URL at the head of
    the queue was visited already; its fetch gave nothing; its fetch gave
    a document. *)
Inductive turn_kind (f f' : StaticCrawler.frame) (url : string) : Prop :=
  | AlreadyVisited :
      url ∈ visited f →
      StaticCrawler.self f' = StaticCrawler.self f →
      queue f' = tail (queue f) →
      log_of f' = log_of f →
      turn_kind f f' url
  | FetchFailed (html : option string) (w : io) :
      url ∉ visited f →
      StaticCrawler.get_page (StaticCrawler.self f) url
        (emit (Crawling url) (StaticCrawler.world f)) = (Return html, w) →
      StaticCrawler.not_html html = true →
      StaticCrawler.self f' = StaticCrawler.self f →
      queue f' = tail (queue f) →
      StaticCrawler.world f' = emit (FailedToFetch url) w →
      turn_kind f f' url
  | Fetched (html : string) (w : io) :
      url ∉ visited f →
      StaticCrawler.get_page (StaticCrawler.self f) url
        (emit (Crawling url) (StaticCrawler.world f))
        = (Return (Some html), w) →
      Py.falsy html = false →
      visited f' = {[url]} ∪ visited f →
      (StaticCrawler.world f' = emit SkippingDuplicate w ∨
       StaticCrawler.world f' = w) →
      turn_kind f f' url.
End Turns.

(** Whether [extract_links] keeps an [href] found on [page]. *)
Definition kept `{Extraction} (self : StaticCrawler.t) (page href : string)
  : bool :=
  negb (StaticCrawler.skip_href href) &&
  Py.startswith (urljoin page href)
    (BaseCrawler.base_url (StaticCrawler.base self)).

(** The policy in the specification's words: an [href] is offered when
    its absolute form has the base URL as a prefix and is neither
    visited nor queued, and nothing else is looked at. *)
Definition offered_by_prefix_policy `{Extraction} (self : StaticCrawler.t)
    (page : string) (visited : gset string) (to_visit : list string)
    (href : string) : bool :=
  Py.startswith (urljoin page href)
    (BaseCrawler.base_url (StaticCrawler.base self)) &&
  bool_decide (urljoin page href ∉ visited) &&
  bool_decide (urljoin page href ∉ to_visit).

(** The key the summary is stored under. *)
Definition summary_key `{Clock} (self : StaticCrawler.t) : string :=
  S3Storage._generate_key (BaseCrawler.name (StaticCrawler.base self))
    config.S3_PROCESSED_DATA_PREFIX (StaticCrawler.summary_filename self).

(** The summary a crawler with [n] visited URLs reports. *)
Definition summary_of (n : nat) (started ended : string) : json :=
  JObj [("total_pages", JInt (Z.of_nat n));
        ("successful_crawls", JInt (Z.of_nat n));
        ("failed_crawls", JInt 0);
        ("start_time", JStr started);
        ("end_time", JStr ended)].

(** An attempt of the direct fetch that ends in a
    requests.RequestException: there is no response, or the response has
    an error status. *)
Definition request_exception (o : outcome) : bool :=
  match o with ErrorStatus _ | RequestException => true | _ => false end.

(** The navigation of a browser returns when there is a response,
    whatever its status. *)
Definition navigated (o : outcome) : bool :=
  match o with Success _ | ErrorStatus _ => true | _ => false end.

(** What the attempt of the rendered fetch made as request number [k]
    gets: the rendered document, or [None] when the attempt raises. *)
Definition rendered `{Network} (k : nat) (url : string) : option string :=
  if navigated (http k url) then page_content k url else None.

(** Among the [n] requests for [url] from request number [start] on,
    those that get a response. *)
Definition navigations `{Network} (url : string) (start n : nat) : nat :=
  length (filter (λ k, navigated (http k url) = true) (seq start n)).

(** The seconds slept according to a log. *)
Definition slept (l : list event) : Z :=
  foldr (λ e acc, match e with Sleep z => (z + acc)%Z | _ => acc end) 0%Z l.

(** The signature of a fetch that got the page at its [n]-th request. *)
Definition fetched_at (n : nat) (body url : string) (w : io)
    (r : result (option string) * io) : Prop :=
  r.1 = Return (Some body) ∧
  clock r.2 = clock w + n ∧
  requests_of url (log r.2) = requests_of url (log w) + n.

(** [buffer_size] for a buffer: the sum of [len(str(chunk))] over its
    records. *)
Definition records_size `{PyRepr} (buffer : list json) : Z :=
  foldr (λ r acc, (str_len r + acc)%Z) 0%Z buffer.

(** How often [w] occurs in [words]. *)
Definition count_of (w : string) (words : list string) : nat :=
  length (filter (λ x, x = w) words).

(** * Concrete instances *)

(** ** Stand-ins for the external interfaces, for concrete runs *)

Module Demo.

(** The digest of a text is the text: distinct inputs, distinct digests. *)
Definition hashlib : Hashlib := {| md5_hexdigest := λ b, b |}.

(** A table in which the member added last is iterated first. *)
Definition newest_first : PySet := {| slot := λ _ _, 0 |}.

(** A table in which the member added last is iterated last. *)
Definition newest_last : PySet := {| slot := λ _ s, length s |}.

Definition nlp : Nlp :=
  {| extract_entities := λ _, []; extract_keywords := λ _, [] |}.

End Demo.

(** A small site: the base page links to /a and /c, /c links to /a,
    and /a never answers. *)
Module Site.

Definition network : Network :=
  {| http := λ _ url,
       if bool_decide (url = "https://ex.com") then Success "/a /c"
       else if bool_decide (url = "https://ex.com/c") then Success "/a"
       else RequestException;
     page_content := λ _ _, None |}.

(** A document is the blank-separated list of its [href]s; [urljoin]
    is urllib's on the inputs used here: a path replaces the path of
    the page, a fragment is appended to the page, an absolute URL stays. *)
Definition extraction : Extraction :=
  {| anchors := Py.split;
     urljoin := λ page href,
       if Py.startswith href "/" then "https://ex.com" +:+ href
       else if Py.startswith href "#" then page +:+ href
       else href;
     extract_text := λ html, html |}.

Definition wall_clock : Clock :=
  {| date_path := "2026/01/01"; strftime_now := "20260101000000";
     isoformat_now := λ n, "2026-01-01T00:00:" +:+ pretty n;
     isoformat_later := λ n, "2026-01-01T00:01:" +:+ pretty n |}.

Definition website : config.website :=
  {| config.cfg_name := Some "ex";
     config.cfg_url := Some "https://ex.com";
     config.cfg_dynamic := None;
     config.cfg_page_limit := Some 10;
     config.cfg_wait_time := None |}.

Definition crawler : StaticCrawler.t :=
  StaticCrawler.init website "2026-01-01T00:00:00".

Definition w0 : io := {| clock := 0; log := [] |}.

Definition run : option StaticCrawler.ended :=
  @StaticCrawler.text_data_generator Demo.hashlib Demo.newest_last Demo.nlp
    network extraction wall_clock 10 (StaticCrawler.start crawler w0).

End Site.

(** The linear site ex.com, /a, /b, /c, crawled with a limit of two
    pages. *)
Module Linear.

Definition network : Network :=
  {| http := λ _ url,
       if bool_decide (url = "https://ex.com") then Success "/a"
       else if bool_decide (url = "https://ex.com/a") then Success "/b"
       else if bool_decide (url = "https://ex.com/b") then Success "/c"
       else if bool_decide (url = "https://ex.com/c") then Success "end"
       else RequestException;
     page_content := λ _ _, None |}.

Definition website : config.website :=
  {| config.cfg_name := Some "ex";
     config.cfg_url := Some "https://ex.com";
     config.cfg_dynamic := None;
     config.cfg_page_limit := Some 2;
     config.cfg_wait_time := None |}.

Definition run : option StaticCrawler.ended :=
  @StaticCrawler.text_data_generator Demo.hashlib Demo.newest_last Demo.nlp
    network Site.extraction Site.wall_clock 10
    (StaticCrawler.start
       (StaticCrawler.init website "2026-01-01T00:00:00") Site.w0).

End Linear.

(** A store, services and records for concrete runs. *)
Module Store.

(** Compression that stores the bytes as they are. *)
Definition gzip : Gzip :=
  {| gzip_compress := λ b, b; gzip_decompress := Some;
     gzip_members := λ l,
       f_equal (λ x, Some (String.concat "" x)) (list_fmap_id l) |}.

(** On the records used here Python's rendering is as long as the JSON
    text. *)
Definition pyrepr : PyRepr :=
  {| str_len := λ j, Z.of_nat (String.length (Json.dumps j)) |}.

(** Tables are made of lists of records only; a table is written as
    its JSON text. *)
Definition frames : Frames :=
  {| to_parquet := λ data, if data is JList _ then Some (Json.dumps data)
                           else None;
     to_csv := λ data, if data is JList _ then Some (Json.dumps data)
                       else None |}.

(** A service that accepts every call. *)
Definition reliable : S3Service := {| client_error := λ _, false |}.

(** A service that refuses its second call. *)
Definition refuses_second : S3Service :=
  {| client_error := λ n, n =? 1 |}.

(** A network on which nothing is reachable. *)
Definition unreachable : Network :=
  {| http := λ _ _, RequestException; page_content := λ _ _, None |}.

(** A server that answers every request with status 500 and an error
    page. *)
Definition server_error : Network :=
  {| http := λ _ _, ErrorStatus "Internal Server Error";
     page_content := λ _ _, Some "<html>Internal Server Error</html>" |}.

Definition empty : s3 :=
  {| objects := ∅; uploads := ∅; next_upload_id := 0; calls := 0 |}.

Definition record (url : string) : json := JObj [("url", JStr url)].

Definition three_retries : BaseCrawler.t :=
  {| BaseCrawler.name := "ex"; BaseCrawler.base_url := "https://ex.com";
     BaseCrawler.is_dynamic := false; BaseCrawler.delay := 1;
     BaseCrawler.max_retries := 3 |}.

Definition crawl_run :=
  @StaticCrawler.crawl Demo.hashlib Demo.newest_last Demo.nlp Site.network
    Site.extraction Site.wall_clock gzip pyrepr frames reliable
    10 Site.crawler Site.w0 empty.

End Store.

(** Networks, readers and crawlers for the runs of the further
    properties. *)
Module Fixtures.

(** A network whose first two requests fail and whose later ones
    succeed. *)
Definition flaky : Network :=
  {| http := λ k _, if k <? 2 then RequestException else Success "page";
     page_content := λ _ _, Some "<html>page</html>" |}.

(** A network whose second request ends in an exception that is not a
    [RequestException]. *)
Definition crashing : Network :=
  {| http := λ k _, if k =? 1 then OtherError else RequestException;
     page_content := λ _ _, None |}.

(** Readers that hand back the text they are given, unparsed. *)
Definition decoders : Decoders :=
  {| json_loads := λ b, Some (JStr b);
     read_parquet := λ b, Some (JStr b);
     read_csv := λ b, Some (JStr b) |}.

(** Tables are made of lists of records only; a Parquet file starts
    with the magic bytes PAR1 and goes on in binary, which is not
    UTF-8. *)
Definition frames : Frames :=
  {| to_parquet := λ data,
       if data is JList _
       then Some ("PAR1" +:+ String "255"%char (Json.dumps data))
       else None;
     to_csv := λ data, if data is JList _ then Some (Json.dumps data)
                       else None |}.

(** The frame the crawl of the small site ends with. *)
Definition end_of_run : StaticCrawler.frame :=
  match Site.run with
  | Some r => StaticCrawler.ended_frame r
  | None => StaticCrawler.start Site.crawler Site.w0
  end.

(** Site runs on a world that counts the crawls: only the crawl of
    wikipedia succeeds. *)
Definition site_runs : SiteRuns nat :=
  {| storage_init := λ w, (Return (), w);
     crawl_and_stream := λ c name w,
       (if bool_decide (name = Some "wikipedia")
        then Return "raw/wikipedia/pages.json.gz" else Raise ClientError,
        S w);
     isoformat_at := λ w, "2026-01-01T00:00:0" +:+ pretty w |}.

(** Feeds: the first two carry the same article, the third does not
    parse. *)
Definition shipment : article :=
  {| art_url := "https://news.example/shipment";
     art_json := JObj [("url", JStr "https://news.example/shipment")] |}.

Definition untitled : article :=
  {| art_url := ""; art_json := JObj [("title", JStr "untitled")] |}.

Definition news_sources : NewsSources :=
  {| news_timestamp := "2026-01-01T00:00:00";
     newsapi_everything := NewsRequestException;
     feed_articles := λ feed_url,
       if bool_decide (feed_url = "https://theloadstar.com/feed/") then None
       else Some [shipment; untitled] |}.

(** A server that answers every request with status 502, in a browser
    that cannot read the document. *)
Definition unrendered : Network :=
  {| http := λ _ _, ErrorStatus "Bad Gateway";
     page_content := λ _ _, None |}.

(** A network on which every request ends in an exception that is not a
    [RequestException]. *)
Definition broken : Network :=
  {| http := λ _ _, OtherError; page_content := λ _ _, None |}.

End Fixtures.

(** * Properties *)

(** ** The duplicate ledger *)

Section LedgerFacts.
Context `{PySet}.

Lemma set_add_new h s : h ∉ s → TextProcessor.set_add h s ≡ₚ h :: s.
Proof.
  intros Hnin. unfold TextProcessor.set_add.
  rewrite bool_decide_eq_false_2 by done.
  rewrite <- Permutation_middle. by rewrite take_drop.
Qed.

Lemma set_of_list_from acc l :
  NoDup (acc ++ l) →
  foldl (λ s h, TextProcessor.set_add h s) acc l ≡ₚ acc ++ l.
Proof.
  revert acc. induction l as [|h l IH]; intros acc Hnd; simpl.
  - by rewrite app_nil_r.
  - assert (h ∉ acc) as Hh.
    { apply NoDup_app in Hnd as (_ & Hdisj & _).
      intros Hin. apply (Hdisj h Hin). left. }
    pose proof (set_add_new h acc Hh) as Hp.
    rewrite IH.
    + rewrite Hp. simpl. apply Permutation_middle.
    + rewrite Hp. simpl. by rewrite Permutation_middle.
Qed.

Lemma set_of_list_perm l : NoDup l → TextProcessor.set_of_list l ≡ₚ l.
Proof. intros Hnd. by apply (set_of_list_from [] l). Qed.

Lemma last_n_all {A} n (l : list A) : length l ≤ n → Py.last_n n l = l.
Proof.
  intros Hle. unfold Py.last_n. destruct (n =? 0); [done|].
  by replace (length l - n) with 0 by lia.
Qed.

End LedgerFacts.

Section DedupFacts.
Context `{Hashlib, PySet}.

Lemma is_duplicate_max_hashes tp text :
  TextProcessor.max_hashes (TextProcessor.is_duplicate tp text).2
  = TextProcessor.max_hashes tp.
Proof.
  unfold TextProcessor.is_duplicate. by case_bool_decide.
Qed.

(** A call that finds at most [max_hashes] fingerprints, none of them
    the text's, answers "new" and adds one fingerprint to all that were
    there. *)
Lemma is_duplicate_fresh tp text :
  NoDup (TextProcessor.content_hashes tp) →
  length (TextProcessor.content_hashes tp) ≤ TextProcessor.max_hashes tp →
  TextProcessor.calculate_content_hash text ∉ TextProcessor.content_hashes tp →
  (TextProcessor.is_duplicate tp text).1 = false ∧
  TextProcessor.content_hashes (TextProcessor.is_duplicate tp text).2
    ≡ₚ TextProcessor.calculate_content_hash text
       :: TextProcessor.content_hashes tp.
Proof.
  intros Hnd Hlen Hnew. unfold TextProcessor.is_duplicate.
  set (hashes := if _ <=? _ then _ else _).
  assert (hashes ≡ₚ TextProcessor.content_hashes tp) as Hp.
  { subst hashes. destruct (_ <=? _) eqn:Hcap; [|done].
    apply Nat.leb_le in Hcap.
    rewrite last_n_all by lia. by apply set_of_list_perm. }
  rewrite bool_decide_eq_false_2 by (by rewrite Hp).
  simpl. split; [done|].
  rewrite set_add_new by (by rewrite Hp). by rewrite Hp.
Qed.

Lemma feed_cons tp text texts :
  TextProcessor.feed tp (text :: texts)
  = TextProcessor.feed (TextProcessor.is_duplicate tp text).2 texts.
Proof. done. Qed.

(** While the ledger stays within [max_hashes + 1] entries, texts with
    new, pairwise distinct fingerprints all stay in it. *)
Lemma feed_distinct texts : ∀ tp,
  NoDup (TextProcessor.content_hashes tp) →
  NoDup (TextProcessor.calculate_content_hash <$> texts) →
  (∀ t, t ∈ texts →
        TextProcessor.calculate_content_hash t
        ∉ TextProcessor.content_hashes tp) →
  length (TextProcessor.content_hashes tp) + length texts
    ≤ S (TextProcessor.max_hashes tp) →
  TextProcessor.max_hashes (TextProcessor.feed tp texts)
    = TextProcessor.max_hashes tp ∧
  TextProcessor.content_hashes (TextProcessor.feed tp texts)
    ≡ₚ TextProcessor.content_hashes tp
       ++ (TextProcessor.calculate_content_hash <$> texts).
Proof.
  induction texts as [|t ts IH]; intros tp Hnd Hdist Hnew Hlen.
  - simpl. by rewrite app_nil_r.
  - rewrite feed_cons. simpl in Hlen.
    rewrite fmap_cons in Hdist. apply NoDup_cons in Hdist as [Ht Hts].
    destruct (is_duplicate_fresh tp t) as [_ Hp]; [done|lia|..].
    { apply Hnew. left. }
    pose proof (is_duplicate_max_hashes tp t) as Hmax.
    destruct (IH (TextProcessor.is_duplicate tp t).2) as [Hm Hq].
    + rewrite Hp. apply NoDup_cons. split; [|done]. apply Hnew. left.
    + done.
    + intros t' Ht'. rewrite Hp. intros [Heq|Hin]%elem_of_cons.
      * apply Ht. rewrite <- Heq. by apply list_elem_of_fmap_2.
      * revert Hin. apply Hnew. by right.
    + rewrite Hp, Hmax. simpl. lia.
    + split; [congruence|].
      rewrite Hq, Hp. simpl. by rewrite Permutation_middle.
Qed.

(** Below capacity the check is idempotent: new, then duplicate. *)
Lemma is_duplicate_twice_below_capacity tp text :
  NoDup (TextProcessor.content_hashes tp) →
  length (TextProcessor.content_hashes tp) < TextProcessor.max_hashes tp →
  TextProcessor.calculate_content_hash text ∉ TextProcessor.content_hashes tp →
  (TextProcessor.is_duplicate tp text).1 = false ∧
  (TextProcessor.is_duplicate (TextProcessor.is_duplicate tp text).2 text).1
    = true.
Proof.
  intros Hnd Hlen Hnew.
  destruct (is_duplicate_fresh tp text) as [Hf Hp]; [done|lia|done|].
  split; [done|].
  pose proof (is_duplicate_max_hashes tp text) as Hmax.
  set (tp' := (TextProcessor.is_duplicate tp text).2) in *.
  unfold TextProcessor.is_duplicate.
  set (hashes := if _ <=? _ then _ else _).
  assert (hashes ≡ₚ TextProcessor.content_hashes tp') as Hq.
  { subst hashes. destruct (_ <=? _) eqn:Hcap; [|done].
    apply Nat.leb_le in Hcap.
    assert (length (TextProcessor.content_hashes tp')
            = S (length (TextProcessor.content_hashes tp))) as Hl
      by (by rewrite Hp).
    rewrite last_n_all by lia.
    apply set_of_list_perm. rewrite Hp. by apply NoDup_cons. }
  rewrite bool_decide_eq_true_2; [done|].
  rewrite Hq, Hp. left.
Qed.

(** The fingerprint ignores case and runs of blanks. *)
Example fingerprint_ignores_case_and_blanks :
  TextProcessor.calculate_content_hash "Hello  World"
  = TextProcessor.calculate_content_hash "hello world".
Proof. vm_compute. reflexivity. Qed.

(** C2 (the code against the claim).  A processor with an empty ledger,
    given [max_hashes + 1] texts of pairwise distinct fingerprints, ends
    with [max_hashes + 1] fingerprints in the ledger: the ledger exceeds
    its capacity, and the call that found it at capacity evicted
    nothing, every fingerprint fed being still there. *)
Theorem ledger_exceeds_max_hashes tp texts :
  TextProcessor.content_hashes tp = [] →
  NoDup (TextProcessor.calculate_content_hash <$> texts) →
  length texts = S (TextProcessor.max_hashes tp) →
  length (TextProcessor.content_hashes (TextProcessor.feed tp texts))
    = S (TextProcessor.max_hashes (TextProcessor.feed tp texts)) ∧
  ∀ t, t ∈ texts →
       TextProcessor.calculate_content_hash t
       ∈ TextProcessor.content_hashes (TextProcessor.feed tp texts).
Proof.
  intros Hempty Hdist Hlen.
  destruct (feed_distinct texts tp) as [Hm Hp].
  - rewrite Hempty. constructor.
  - done.
  - intros t _. rewrite Hempty. apply not_elem_of_nil.
  - rewrite Hempty. simpl. lia.
  - rewrite Hempty in Hp. simpl in Hp. split.
    + by rewrite Hp, length_fmap, Hm.
    + intros t Ht. rewrite Hp. by apply list_elem_of_fmap_2.
Qed.

(** The processor [__init__] builds, after 10001 texts of pairwise
    distinct fingerprints, holds 10001 fingerprints. *)
Lemma init_ledger_exceeds_10000 texts :
  NoDup (TextProcessor.calculate_content_hash <$> texts) →
  length texts = S (N.to_nat 10000) →
  length (TextProcessor.content_hashes
            (TextProcessor.feed TextProcessor.init texts))
  = S (N.to_nat 10000).
Proof.
  intros Hdist Hlen.
  destruct (feed_distinct texts TextProcessor.init) as [_ Hp].
  - constructor.
  - done.
  - intros t _. apply not_elem_of_nil.
  - change (TextProcessor.content_hashes TextProcessor.init) with (@nil string).
    change (TextProcessor.max_hashes TextProcessor.init)
      with (N.to_nat 10000). simpl length. lia.
  - change (TextProcessor.content_hashes TextProcessor.init)
      with (@nil string) in Hp.
    rewrite Hp. simpl. by rewrite length_fmap.
Qed.
End DedupFacts.

Lemma ledger_exceeds_max_hashes_witness :
  let tp := {| TextProcessor.content_hashes := [];
               TextProcessor.max_hashes := 2 |} in
  let texts := ["page one"; "page two"; "page three"] in
  let tp' := @TextProcessor.feed Demo.hashlib Demo.newest_last tp texts in
  length (TextProcessor.content_hashes tp') = S (TextProcessor.max_hashes tp')
  ∧ ∀ t, t ∈ texts →
         @TextProcessor.calculate_content_hash Demo.hashlib t
         ∈ TextProcessor.content_hashes tp'.
Proof.
  apply (@ledger_exceeds_max_hashes Demo.hashlib Demo.newest_last).
  - reflexivity.
  - apply (bool_decide_unpack _). vm_compute. exact I.
  - reflexivity.
Defined.

(** *** A table that iterates its newest member first *)

Section NewestFirst.
Context `{Hashlib}.
Local Existing Instance Demo.newest_first.

Lemma newest_first_add h s :
  h ∉ s → TextProcessor.set_add h s = h :: s.
Proof.
  intros Hnew. unfold TextProcessor.set_add.
  by rewrite bool_decide_eq_false_2.
Qed.

Lemma newest_first_from l : ∀ acc,
  NoDup (acc ++ l) →
  foldl (λ s h, TextProcessor.set_add h s) acc l = reverse l ++ acc.
Proof.
  induction l as [|h l IH]; intros acc Hnd; [done|].
  assert (h ∉ acc) as Hh.
  { apply NoDup_app in Hnd as (_ & Hdisj & _).
    intros Hin. apply (Hdisj h Hin). left. }
  simpl. rewrite newest_first_add by done.
  rewrite IH.
  - by rewrite reverse_cons, <- app_assoc.
  - simpl. by rewrite Permutation_middle.
Qed.

Lemma newest_first_set_of_list l :
  NoDup l → TextProcessor.set_of_list l = reverse l.
Proof.
  intros Hnd. unfold TextProcessor.set_of_list.
  rewrite newest_first_from by done. apply app_nil_r.
Qed.

(** C8 (the code against the claim).  The ledger is full
    ([max_hashes] fingerprints, at least one) and has not seen the
    text's fingerprint; the set iterates its newest member first.  The
    first check answers "new" and leaves [max_hashes + 1] fingerprints;
    the second check cuts the ledger to the last [max_hashes] in
    iteration order, which drops the fingerprint just added, and answers
    "new" again. *)
Theorem second_check_misses_at_capacity tp text :
  NoDup (TextProcessor.content_hashes tp) →
  0 < TextProcessor.max_hashes tp →
  length (TextProcessor.content_hashes tp) = TextProcessor.max_hashes tp →
  TextProcessor.calculate_content_hash text ∉ TextProcessor.content_hashes tp →
  (TextProcessor.is_duplicate tp text).1 = false ∧
  (TextProcessor.is_duplicate (TextProcessor.is_duplicate tp text).2 text).1
    = false.
Proof.
  intros Hnd Hpos Hlen Hnew.
  set (h := TextProcessor.calculate_content_hash text) in *.
  assert (TextProcessor.is_duplicate tp text
          = (false, {| TextProcessor.content_hashes :=
                         h :: reverse (TextProcessor.content_hashes tp);
                       TextProcessor.max_hashes :=
                         TextProcessor.max_hashes tp |})) as Hfirst.
  { unfold TextProcessor.is_duplicate. fold h.
    rewrite (proj2 (Nat.leb_le _ _)) by lia.
    rewrite last_n_all by lia.
    rewrite newest_first_set_of_list by done.
    rewrite bool_decide_eq_false_2 by (by rewrite elem_of_reverse).
    by rewrite newest_first_add by (by rewrite elem_of_reverse). }
  rewrite Hfirst. split; [done|]. simpl.
  unfold TextProcessor.is_duplicate. fold h. simpl.
  rewrite length_reverse.
  rewrite (proj2 (Nat.leb_le _ _)) by lia.
  unfold Py.last_n. rewrite (proj2 (Nat.eqb_neq _ 0)) by lia.
  simpl. rewrite length_reverse.
  replace (S (length (TextProcessor.content_hashes tp))
           - TextProcessor.max_hashes tp) with 1 by lia.
  simpl. rewrite drop_0.
  rewrite newest_first_set_of_list by (by rewrite reverse_Permutation).
  rewrite reverse_involutive.
  by rewrite bool_decide_eq_false_2.
Qed.
End NewestFirst.

Lemma second_check_misses_at_capacity_witness :
  let tp := {| TextProcessor.content_hashes := ["page one"; "page two"];
               TextProcessor.max_hashes := 2 |} in
  let is_duplicate :=
    @TextProcessor.is_duplicate Demo.hashlib Demo.newest_first in
  (is_duplicate tp "Page  Three").1 = false ∧
  (is_duplicate (is_duplicate tp "Page  Three").2 "Page  Three").1 = false.
Proof.
  apply (@second_check_misses_at_capacity Demo.hashlib).
  - apply (bool_decide_unpack _). vm_compute. exact I.
  - simpl. lia.
  - reflexivity.
  - apply (bool_decide_unpack _). vm_compute. exact I.
Defined.

(** ** The retrying fetch *)

Lemma requests_of_snoc url l e :
  requests_of url (l ++ [e])
  = requests_of url l + (if decide (e = HttpGet url) then 1 else 0).
Proof.
  unfold requests_of. rewrite filter_app, length_app. f_equal.
  rewrite filter_cons, filter_nil. by destruct (decide (e = HttpGet url)).
Qed.

Lemma requests_of_emit url e w :
  (∀ u, e ≠ HttpGet u) →
  requests_of url (log (emit e w)) = requests_of url (log w).
Proof.
  intros Hne. unfold emit. simpl. rewrite requests_of_snoc.
  destruct (decide _) as [Heq|]; [by apply Hne in Heq|lia].
Qed.

Lemma requests_of_request url w :
  requests_of url (log (request url w)) = S (requests_of url (log w)).
Proof.
  unfold request. simpl. rewrite requests_of_snoc.
  destruct (decide _); [lia|done].
Qed.

Section Fetch.
Context `{Network}.

Lemma base_attempts_all_fail self url todo : ∀ w,
  (∀ k, request_exception (http k url) = true) →
  gave_up_after (length todo) url w (BaseCrawler.attempts self url todo w).
Proof.
  induction todo as [|attempt todo IH]; intros w Hfail.
  - repeat split; simpl; lia.
  - cbn [BaseCrawler.attempts length].
    set (w2 := if 0 <? attempt then _ else _).
    assert (clock w2 = clock w ∧
            requests_of url (log w2) = requests_of url (log w)) as [Hc2 Hn2].
    { subst w2. destruct (0 <? attempt); split; try done;
        by rewrite !requests_of_emit. }
    destruct (IH (emit (AttemptFailed attempt url) (request url w2)) Hfail)
      as (Hr & Hc & Hn).
    rewrite requests_of_emit, requests_of_request in Hn by done.
    simpl in Hc. pose proof (Hfail (clock w2)) as Hk.
    destruct (http (clock w2) url); try done;
      (repeat split; [done|lia|lia]).
Qed.

Lemma failed_clock self attempt url w :
  clock (DynamicCrawler.failed self attempt url w) = clock w ∧
  requests_of url (log (DynamicCrawler.failed self attempt url w))
  = requests_of url (log w).
Proof.
  unfold DynamicCrawler.failed.
  destruct (S attempt <? _); split; try done; by rewrite !requests_of_emit.
Qed.

(** What an attempt of the rendered fetch that raises leaves. *)
Lemma dynamic_attempt_raises self wt url attempt todo w :
  rendered (clock w) url = None →
  ∃ w', DynamicCrawler.attempts self wt url (attempt :: todo) w
        = DynamicCrawler.attempts self wt url todo w' ∧
        clock w' = S (clock w) ∧
        requests_of url (log w') = S (requests_of url (log w)).
Proof.
  unfold rendered. intros Hnone. cbn [DynamicCrawler.attempts].
  destruct (http (clock w) url); cbn [navigated] in Hnone;
    rewrite ?Hnone; eexists; (split; [reflexivity|]);
    destruct (failed_clock self attempt url (request url w)) as [Hc Hn];
    destruct (failed_clock self attempt url
                (emit (Sleep wt) (request url w))) as [Hc' Hn'];
    rewrite ?Hc, ?Hn, ?Hc', ?Hn', ?requests_of_emit by done;
    by rewrite requests_of_request.
Qed.

Lemma dynamic_attempts_all_fail self wait_time url todo : ∀ w,
  (∀ k, rendered k url = None) →
  gave_up_after (length todo) url w
    (DynamicCrawler.attempts self wait_time url todo w).
Proof.
  induction todo as [|attempt todo IH]; intros w Hfail.
  - repeat split; simpl; lia.
  - destruct (dynamic_attempt_raises self wait_time url attempt todo w
                (Hfail _)) as (w' & -> & Hc' & Hn').
    destruct (IH w' Hfail) as (Hr & Hc & Hn).
    repeat split; [done|rewrite Hc; simpl; lia|rewrite Hn; simpl; lia].
Qed.

(** When every attempt raises, the fetch gives up after [max_retries]
    requests and returns [None]: the direct fetch when what is raised is
    a [RequestException] each time, the rendered fetch whatever is
    raised. *)
Lemma get_page_gives_up self wait_time url w :
  ((∀ k, request_exception (http k url) = true) →
   gave_up_after (BaseCrawler.max_retries self) url w
     (BaseCrawler.get_page self url w)) ∧
  ((∀ k, rendered k url = None) →
   gave_up_after (BaseCrawler.max_retries self) url w
     (DynamicCrawler.get_page self wait_time url w)).
Proof.
  split; intros Hfail.
  - pose proof (base_attempts_all_fail self url
                  (seq 0 (BaseCrawler.max_retries self)) w Hfail) as Hres.
    by rewrite length_seq in Hres.
  - pose proof (dynamic_attempts_all_fail self wait_time url
                  (seq 0 (BaseCrawler.max_retries self)) w Hfail) as Hres.
    by rewrite length_seq in Hres.
Qed.

(** C5.  A URL whose every request is answered with an HTTP error
    status.  The direct fetch of [BaseCrawler] takes each answer as a
    failed attempt: it issues exactly [max_retries] requests and returns
    [None].  The rendered fetch of [DynamicCrawler] does not look at the
    status: its first attempt counts as a success, and it returns the
    error page as the page after one request. *)
Theorem rendered_fetch_returns_the_error_page self wait_time url w html :
  0 < BaseCrawler.max_retries self →
  (∀ k, ∃ body, http k url = ErrorStatus body) →
  page_content (clock w) url = Some html →
  gave_up_after (BaseCrawler.max_retries self) url w
    (BaseCrawler.get_page self url w) ∧
  fetched_at 1 html url w (DynamicCrawler.get_page self wait_time url w).
Proof.
  intros Hpos Hstatus Hpage. split.
  - apply get_page_gives_up; [exact wait_time|].
    intros k. by destruct (Hstatus k) as [body ->].
  - unfold DynamicCrawler.get_page.
    cbn [BaseCrawler._respect_robots_txt negb].
    destruct (BaseCrawler.max_retries self) as [|n]; [lia|].
    cbn [seq DynamicCrawler.attempts].
    destruct (Hstatus (clock w)) as [body ->]. rewrite Hpage.
    repeat split; cbn [fst snd].
    + simpl. lia.
    + rewrite !requests_of_emit, requests_of_request by done. lia.
Qed.
End Fetch.

(** ** Streaming persistence *)

Lemma keeps_ret {A} id (a : A) : keeps id (ret a).
Proof. intros s r s' [= <- <-]. done. Qed.

Lemma keeps_raise {A} id e : keeps id (@raise A e).
Proof. intros s r s' [= <- <-]. done. Qed.

Lemma keeps_bind {A B} id (m : M A) (k : A → M B) :
  keeps id m → (∀ a, keeps id (k a)) → keeps id (bind m k).
Proof.
  intros Hm Hk s r s'. unfold bind.
  destruct (m s) as [[a|e] s1] eqn:Hms; intros Hrun.
  - destruct (Hm _ _ _ Hms) as [Ho Hu].
    destruct (Hk a _ _ _ Hrun) as [Ho' Hu'].
    split; [congruence|auto].
  - injection Hrun as <- <-. by apply (Hm _ _ _ Hms).
Qed.

Lemma upload_id_never_in_locals : S3Storage.upload_id_in_locals = false.
Proof. vm_compute. reflexivity. Qed.

Section StorageFacts.
Context `{Hashlib, Gzip, PyRepr, Clock, Frames, S3Service}.

Lemma keeps_call id : keeps id S3Client.call.
Proof.
  intros s r s'. unfold S3Client.call.
  destruct (client_error (calls s)); intros [= <- <-]; done.
Qed.

Lemma keeps_upload_part id key n uid body :
  keeps id (S3Client.upload_part key n uid body).
Proof.
  apply keeps_bind; [apply keeps_call|]. intros _ s r s'.
  destruct (uploads s !! uid) as [u|] eqn:Hu; intros [= <- <-]; [|done].
  split; [done|]. simpl. intros Hid.
  destruct (decide (uid = id)) as [->|Hne].
  - rewrite lookup_insert_eq. eauto.
  - by rewrite lookup_insert_ne.
Qed.

Lemma keeps_process_chunks id mbs key uid records ending : ∀ st,
  keeps id (S3Storage.process_chunks mbs key uid records ending st).
Proof.
  induction records as [|chunk rest IH]; intros st; simpl.
  - destruct ending; [apply keeps_raise|apply keeps_ret].
  - destruct (_ <=? _)%Z; [|apply IH].
    apply keeps_bind; [apply keeps_upload_part|]. intros etag. apply IH.
Qed.

Lemma on_client_error_raises {A} key mpu e s :
  S3Storage.on_client_error (A:=A) key mpu e s = (Raise e, s).
Proof.
  unfold S3Storage.on_client_error. by rewrite upload_id_never_in_locals.
Qed.

(** What [create_multipart_upload] does when the service accepts it. *)
Lemma create_accepted key ctype cenc s :
  client_error (calls s) = false →
  ∃ s1, S3Client.create_multipart_upload key ctype cenc s
        = (Return (next_upload_id s), s1) ∧
        objects s1 = objects s ∧
        uploads s1 !! next_upload_id s
        = Some {| up_key := key; up_type := ctype; up_encoding := cenc;
                  up_parts := ∅ |}.
Proof.
  intros Hok. unfold S3Client.create_multipart_upload, bind, S3Client.call.
  rewrite Hok. eexists. split; [done|]. simpl.
  by rewrite lookup_insert_eq.
Qed.

(** A [stream_with] call that raises does so with the exception of the
    failing step, and in the store that step left. *)
Lemma complete_raise key uid parts s e s' :
  S3Client.complete_multipart_upload key uid parts s = (Raise e, s') →
  objects s' = objects s ∧ uploads s' = uploads s.
Proof.
  unfold S3Client.complete_multipart_upload, bind, S3Client.call.
  destruct (client_error (calls s)); [by intros [= <- <-]|]. simpl.
  destruct (uploads s !! uid) as [u|]; [|by intros [= <- <-]].
  destruct (S3Client.listed_parts u parts); [done|by intros [= <- <-]].
Qed.

(** C3 (the code against the claim).  The session was opened, and
    then a part upload or the combine call raised: [stream_with] raises
    too, leaving the objects as they were, but the session it opened is
    still open in the store, with whatever parts it had received: the
    abort is guarded by ['UploadId' in locals()], which never holds, and
    is never called. *)
Theorem failed_stream_is_not_aborted mbs source data filename s e s' :
  client_error (calls s) = false →
  S3Storage.stream_with mbs source data filename s = (Raise e, s') →
  is_Some (uploads s' !! next_upload_id s) ∧ objects s' = objects s.
Proof.
  intros Hok. unfold S3Storage.stream_with, try_bound.
  set (key := S3Storage._generate_key _ _ _).
  destruct (create_accepted key "application/json" (Some "gzip") s Hok)
    as (s1 & -> & Ho1 & Hu1).
  set (id := next_upload_id s) in *.
  set (rest := bind _ _).
  assert (∀ r s2, rest s1 = (r, s2) →
            match r with
            | Raise _ => is_Some (uploads s2 !! id) ∧ objects s2 = objects s1
            | Return _ => True
            end) as Hrest.
  { subst rest. intros r s2. unfold bind at 1.
    destruct (S3Storage.process_chunks _ _ _ _ _ _ s1) as [[st|e1] sa] eqn:Hpc.
    2:{ intros [= <- <-].
        destruct (keeps_process_chunks id _ _ _ _ _ _ _ _ _ Hpc) as [? Hk].
        split; [apply Hk; by rewrite Hu1|done]. }
    destruct (keeps_process_chunks id _ _ _ _ _ _ _ _ _ Hpc) as [Hoa Hka].
    unfold bind at 1.
    set (final := match S3Storage.buffer st with [] => _ | _ => _ end).
    assert (keeps id final) as Hfinal.
    { subst final. destruct (S3Storage.buffer st); [apply keeps_ret|].
      apply keeps_bind; [apply keeps_upload_part|].
      intros etag. apply keeps_ret. }
    destruct (final sa) as [[parts|e2] sb] eqn:Hfin.
    2:{ intros [= <- <-]. destruct (Hfinal _ _ _ Hfin) as [? Hk].
        split; [apply Hk, Hka; by rewrite Hu1|congruence]. }
    destruct (Hfinal _ _ _ Hfin) as [Hob Hkb].
    unfold bind at 1.
    destruct (S3Client.complete_multipart_upload _ _ _ sb)
      as [[[]|e3] sc] eqn:Hc.
    - unfold ret. intros [= <- <-]. done.
    - intros [= <- <-]. apply complete_raise in Hc as [Hoc Huc].
      split; [rewrite Huc; apply Hkb, Hka; by rewrite Hu1|congruence]. }
  destruct (rest s1) as [[k|e1] s2] eqn:Hrun; [done|].
  specialize (Hrest _ _ eq_refl). simpl in Hrest. destruct Hrest as [Hs Ho].
  destruct e1; [rewrite on_client_error_raises|unfold raise];
    intros [= <- <-]; (split; [done|congruence]).
Qed.

Lemma keeps_upload_slices id key uid slices : ∀ parts n,
  keeps id (S3Storage.upload_slices key uid slices parts n).
Proof.
  induction slices as [|chunk rest IH]; intros parts n; simpl.
  - apply keeps_ret.
  - apply keeps_bind; [apply keeps_upload_part|]. intros etag. apply IH.
Qed.

(** The multipart path of [stream_raw_data] has the same handler and
    leaves its session open in the same way. *)
Lemma failed_raw_stream_is_not_aborted source records filename s e s' :
  records ≠ [] →
  (5 * 1024 * 1024
   ≤ Z.of_nat (String.length
                 (gzip_compress (Json.dumps (JList records)))))%Z →
  client_error (calls s) = false →
  S3Storage.stream_raw_data source (iter records) filename s = (Raise e, s') →
  is_Some (uploads s' !! next_upload_id s) ∧ objects s' = objects s.
Proof.
  intros Hne Hbig Hok. unfold S3Storage.stream_raw_data.
  cbn [iter chunks ending].
  destruct records as [|r records]; [done|]. cbn [length Nat.eqb].
  rewrite (proj2 (Z.ltb_ge _ _) Hbig). unfold try_bound.
  set (key := S3Storage._generate_key _ _ _).
  destruct (create_accepted key "application/json" (Some "gzip") s Hok)
    as (s1 & -> & Ho1 & Hu1).
  set (id := next_upload_id s) in *.
  unfold bind at 1.
  destruct (S3Storage.upload_slices _ _ _ _ _ s1) as [[parts|e1] s2] eqn:Hup.
  2:{ destruct (keeps_upload_slices id _ _ _ _ _ _ _ _ Hup) as [Ho2 Hk2].
      destruct e1; [rewrite on_client_error_raises|unfold raise];
        intros [= <- <-]; (split; [apply Hk2; by rewrite Hu1|congruence]). }
  destruct (keeps_upload_slices id _ _ _ _ _ _ _ _ Hup) as [Ho2 Hk2].
  unfold bind at 1.
  destruct (S3Client.complete_multipart_upload _ _ _ s2)
    as [[[]|e2] s3] eqn:Hc; [done|].
  apply complete_raise in Hc as [Hoc Huc].
  destruct e2; [rewrite on_client_error_raises|unfold raise];
    intros [= <- <-];
    (split; [rewrite Huc; apply Hk2; by rewrite Hu1|congruence]).
Qed.
End StorageFacts.

(** *** Zero records *)

Section ClientEquations.
Context `{Hashlib, S3Service}.

Lemma create_multipart_upload_run key ctype cenc s :
  S3Client.create_multipart_upload key ctype cenc s
  = if client_error (calls s) then (Raise ClientError, S3Client.tick s)
    else (Return (next_upload_id s),
          {| objects := objects s;
             uploads := <[next_upload_id s :=
                          {| up_key := key; up_type := ctype;
                             up_encoding := cenc; up_parts := ∅ |}]>
                        (uploads s);
             next_upload_id := S (next_upload_id s);
             calls := S (calls s) |}).
Proof.
  unfold S3Client.create_multipart_upload, bind, S3Client.call.
  by destruct (client_error (calls s)).
Qed.

Lemma complete_multipart_upload_run key uid parts s :
  S3Client.complete_multipart_upload key uid parts s
  = if client_error (calls s) then (Raise ClientError, S3Client.tick s)
    else match uploads s !! uid with
         | Some u =>
             match S3Client.listed_parts u parts with
             | Some bodies =>
                 (Return (),
                  {| objects :=
                       <[up_key u :=
                         {| Body := String.concat "" bodies;
                            ContentType := up_type u;
                            ContentEncoding := up_encoding u |}]>
                       (objects s);
                     uploads := delete uid (uploads s);
                     next_upload_id := next_upload_id s;
                     calls := S (calls s) |})
             | None => (Raise ClientError, S3Client.tick s)
             end
         | None => (Raise ClientError, S3Client.tick s)
         end.
Proof.
  unfold S3Client.complete_multipart_upload, bind, S3Client.call.
  by destruct (client_error (calls s)).
Qed.

Lemma put_object_run key o s :
  S3Client.put_object key o s
  = if client_error (calls s) then (Raise ClientError, S3Client.tick s)
    else (Return (),
          {| objects := <[key := o]> (objects s); uploads := uploads s;
             next_upload_id := next_upload_id s; calls := S (calls s) |}).
Proof.
  unfold S3Client.put_object, bind, S3Client.call.
  by destruct (client_error (calls s)).
Qed.
End ClientEquations.

Section NothingToStream.
Context `{Hashlib, Gzip, PyRepr, Clock, Frames, S3Service}.

(** [stream_raw_data] given no record returns the key and touches
    nothing. *)
Lemma stream_raw_data_of_nothing source filename s :
  S3Storage.stream_raw_data source (iter []) filename s
  = (Return (S3Storage._generate_key source config.S3_RAW_DATA_PREFIX
               (S3Storage.filename_or filename source ".json.gz")), s).
Proof. reflexivity. Qed.

(** C6 (the code against the claim).  [stream_processed_text_data]
    given a generator that yields nothing is not a no-op: it calls the
    service, and it either raises [ClientError] or returns the key after
    the combine call, made with an empty part list, has put an object
    with no bytes at that key. *)
Theorem stream_text_of_nothing_is_not_a_noop source filename s :
  let key := S3Storage._generate_key source "text_processed"
               (S3Storage.filename_or filename source "_text.json.gz") in
  let r := S3Storage.stream_processed_text_data source (iter []) filename s in
  calls s < calls r.2 ∧
  ((r.1 = Raise ClientError ∧ objects r.2 = objects s) ∨
   (r.1 = Return key ∧ objects r.2 !! key = Some (S3Storage.json_object ""))).
Proof.
  intros key r. subst r.
  unfold S3Storage.stream_processed_text_data, S3Storage.stream_with.
  fold key. unfold try_bound. rewrite create_multipart_upload_run.
  destruct (client_error (calls s)) eqn:Hcreate.
  { rewrite on_client_error_raises. simpl. split; [lia|by left]. }
  cbn [iter chunks ending S3Storage.process_chunks].
  unfold bind, ret. cbn [S3Storage.buffer S3Storage.parts].
  rewrite complete_multipart_upload_run. cbn [calls].
  destruct (client_error (S (calls s))) eqn:Hcomplete.
  { rewrite on_client_error_raises. simpl. split; [lia|by left]. }
  cbn [uploads]. rewrite lookup_insert_eq.
  cbn [S3Client.listed_parts up_key up_type up_encoding fst snd calls
       objects].
  split; [lia|right]. split; [done|]. by rewrite lookup_insert_eq.
Qed.
End NothingToStream.

(** *** What a completed stream stores *)

Section StreamContent.
Context `{Hashlib, Gzip, PyRepr, Clock, Frames, S3Service}.

Lemma listed_parts_entries u bodies : ∀ start,
  (∀ i b, bodies !! i = Some b → up_parts u !! (start + i) = Some b) →
  S3Client.listed_parts u (part_entries start bodies) = Some bodies.
Proof.
  unfold part_entries.
  induction bodies as [|b bodies IH]; intros start Hparts; [done|].
  rewrite imap_cons. simpl.
  rewrite (Hparts 0 b eq_refl).
  rewrite bool_decide_eq_true_2 by done.
  rewrite (imap_ext _ (λ i b, (S start + i, md5_hexdigest b))).
  - rewrite IH; [done|]. intros i b' Hb.
    replace (S start + i) with (start + S i) by lia. by apply Hparts.
  - intros i b' _. simpl. f_equal. lia.
Qed.

Lemma upload_part_accepted id key bodies body s etag s' :
  session_holds id key bodies s →
  S3Client.upload_part key (S (length bodies)) id body s = (Return etag, s') →
  etag = md5_hexdigest body ∧ objects s' = objects s ∧
  session_holds id key (bodies ++ [body]) s'.
Proof.
  intros (u & Hu & Hk & Ht & He & Hparts).
  unfold S3Client.upload_part, bind, S3Client.call.
  destruct (client_error (calls s)); [done|]. simpl. rewrite Hu.
  intros [= <- <-]. split; [done|]. split; [done|].
  eexists. simpl. rewrite lookup_insert_eq. split; [done|].
  simpl. repeat split; try done.
  intros i b Hb. apply lookup_app_Some in Hb as [Hb|[Hlen Hb]].
  - rewrite lookup_insert_ne; [by apply Hparts|].
    apply lookup_lt_Some in Hb. lia.
  - apply list_lookup_singleton_Some in Hb as [Hi <-].
    replace (S i) with (S (length bodies)) by lia.
    by rewrite lookup_insert_eq.
Qed.

Lemma part_entries_snoc start bodies body :
  part_entries start (bodies ++ [body])
  = part_entries start bodies
    ++ [(start + length bodies, md5_hexdigest body)].
Proof.
  unfold part_entries. rewrite imap_app. simpl.
  by rewrite Nat.add_0_r.
Qed.

(** The loop, when it returns: the buffers it flushed are the parts of
    the session, in order, and the objects are untouched. *)
Lemma process_chunks_returns id key mbs records : ∀ st s done st' s',
  session_holds id key (part_body <$> done) s →
  S3Storage.parts st = part_entries 1 (part_body <$> done) →
  S3Storage.part_number st = S (length done) →
  S3Storage.process_chunks mbs key id records None st s = (Return st', s') →
  let '(ps, b) := flushed mbs records (S3Storage.buffer st)
                    (S3Storage.buffer_size st) in
  objects s' = objects s ∧
  session_holds id key (part_body <$> (done ++ ps)) s' ∧
  S3Storage.parts st' = part_entries 1 (part_body <$> (done ++ ps)) ∧
  S3Storage.part_number st' = S (length (done ++ ps)) ∧
  S3Storage.buffer st' = b.
Proof.
  induction records as [|chunk rest IH]; intros st s done st' s' Hs Hp Hn.
  - simpl. intros [= <- <-]. by rewrite app_nil_r.
  - simpl. destruct (_ <=? _)%Z.
    + unfold bind at 1.
      destruct (S3Client.upload_part _ _ _ _ s) as [[etag|e] s1] eqn:Hup;
        [|done].
      rewrite Hn in Hup.
      replace (length done) with (length (part_body <$> done)) in Hup
        by apply length_fmap.
      destruct (upload_part_accepted _ _ _ _ _ _ _ Hs Hup)
        as (-> & Ho & Hs1).
      intros Hrun.
      set (part := S3Storage.buffer st ++ [chunk]) in *.
      assert (session_holds id key (part_body <$> (done ++ [part])) s1)
        as Hs1' by (by rewrite fmap_app).
      assert (S3Storage.parts st ++ [(S3Storage.part_number st,
                                      md5_hexdigest (part_body part))]
              = part_entries 1 (part_body <$> (done ++ [part]))) as Hp1'.
      { rewrite Hp, fmap_app. simpl. rewrite part_entries_snoc.
        rewrite Hn. by rewrite length_fmap. }
      assert (S (S3Storage.part_number st) = S (length (done ++ [part])))
        as Hn1' by (rewrite length_app; simpl; lia).
      match type of Hrun with
      | S3Storage.process_chunks _ _ _ _ _ ?st1 _ = _ =>
          specialize (IH st1 s1 (done ++ [part]) st' s' Hs1' Hp1' Hn1' Hrun)
      end.
      simpl in IH.
      destruct (flushed mbs rest [] 0) as [ps b].
      destruct IH as (Ho' & Hs' & Hp' & Hn' & Hb').
      rewrite <- app_assoc in Hs', Hp', Hn'. simpl in *.
      repeat split; try done. congruence.
    + intros Hrun.
      match type of Hrun with
      | S3Storage.process_chunks _ _ _ _ _ ?st1 _ = _ =>
          specialize (IH st1 s done st' s' Hs Hp Hn Hrun)
      end.
      simpl in IH. by destruct (flushed mbs rest _ _).
Qed.

(** A [stream_with] call that returns has stored, at the key it
    returns, the concatenation of the compressed parts. *)
Lemma stream_with_returns mbs source records filename s k s' :
  S3Storage.stream_with mbs source (iter records) filename s = (Return k, s') →
  k = S3Storage._generate_key source "text_processed"
        (S3Storage.filename_or filename source "_text.json.gz") ∧
  objects s'
  = <[k := S3Storage.json_object
             (String.concat "" (part_body <$> split_parts mbs records))]>
    (objects s).
Proof.
  unfold S3Storage.stream_with, try_bound.
  set (key := S3Storage._generate_key _ _ _).
  rewrite create_multipart_upload_run.
  destruct (client_error (calls s)).
  { by rewrite on_client_error_raises. }
  set (s1 := mk_s3 _ _ _ _). set (id := next_upload_id s).
  assert (session_holds id key (part_body <$> []) s1) as Hs1.
  { eexists. subst s1. simpl. rewrite lookup_insert_eq.
    repeat split; try done. }
  unfold bind at 1. cbn [iter chunks ending].
  destruct (S3Storage.process_chunks _ _ _ _ _ _ s1) as [[st|e] s2] eqn:Hpc.
  2:{ destruct e; [by rewrite on_client_error_raises|done]. }
  pose proof (process_chunks_returns id key mbs records
                (S3Storage.mk_stream [] 1 [] 0) s1 [] st s2
                Hs1 eq_refl eq_refl Hpc) as Hloop.
  cbn [S3Storage.buffer S3Storage.buffer_size] in Hloop.
  unfold split_parts. destruct (flushed mbs records [] 0) as [ps b].
  destruct Hloop as (Ho2 & Hs2 & Hp2 & Hn2 & Hb2). simpl in Hs2, Hp2, Hn2.
  unfold bind at 1.
  set (final := match S3Storage.buffer st with [] => _ | _ => _ end).
  assert (∀ parts s3, final s2 = (Return parts, s3) →
            objects s3 = objects s2 ∧
            ∃ all, all = ps ++ (if b is [] then [] else [b]) ∧
                   session_holds id key (part_body <$> all) s3 ∧
                   parts = part_entries 1 (part_body <$> all)) as Hfinal.
  { subst final. rewrite Hb2. destruct b as [|r b].
    - intros parts s3 [= <- <-]. split; [done|]. eexists.
      split; [done|]. by rewrite app_nil_r.
    - intros parts s3. unfold bind at 1.
      destruct (S3Client.upload_part _ _ _ _ s2) as [[etag|e] s2'] eqn:Hup;
        [|done].
      rewrite Hn2 in Hup.
      replace (length ps) with (length (part_body <$> ps)) in Hup
        by apply length_fmap.
      destruct (upload_part_accepted _ _ _ _ _ _ _ Hs2 Hup)
        as (-> & Ho & Hs3).
      intros [= <- <-]. split; [done|]. eexists. split; [done|].
      rewrite fmap_app. split; [done|].
      rewrite Hp2. simpl. rewrite part_entries_snoc.
      by rewrite Hn2, length_fmap. }
  destruct (final s2) as [[parts|e] s3] eqn:Hfin.
  2:{ destruct e; [by rewrite on_client_error_raises|done]. }
  destruct (Hfinal _ _ eq_refl) as (Ho3 & all & -> & Hs3 & ->).
  unfold bind at 1. rewrite complete_multipart_upload_run.
  destruct (client_error (calls s3)).
  { by rewrite on_client_error_raises. }
  destruct Hs3 as (u & -> & Hk & Ht & He & Hparts).
  rewrite listed_parts_entries by (intros i b' Hb'; by apply Hparts).
  unfold ret. intros [= <- <-]. split; [done|]. simpl.
  rewrite Hk, Ht, He, Ho3, Ho2. subst s1. done.
Qed.

Lemma store_processed_text_data_returns source data filename s k s' :
  S3Storage.store_processed_text_data source data filename s
  = (Return k, s') →
  k = S3Storage._generate_key source "text_processed"
        (S3Storage.filename_or filename source "_text.json.gz") ∧
  objects s'
  = <[k := S3Storage.json_object (gzip_compress (Json.dumps data))]>
    (objects s).
Proof.
  unfold S3Storage.store_processed_text_data, bind.
  rewrite put_object_run. destruct (client_error (calls s)); [done|].
  unfold ret. by intros [= <- <-].
Qed.
End StreamContent.

(** *** Streamed parts against one whole object *)

Lemma string_app_cons c a b : String c a +:+ b = String c (a +:+ b).
Proof. reflexivity. Qed.

Lemma string_app_assoc a b c : (a +:+ b) +:+ c = a +:+ b +:+ c.
Proof.
  induction a as [|x a IH]; [done|].
  rewrite !string_app_cons. by rewrite IH.
Qed.

Lemma join_app sep l1 l2 :
  l1 ≠ [] → l2 ≠ [] →
  Py.join sep (l1 ++ l2) = Py.join sep l1 +:+ sep +:+ Py.join sep l2.
Proof.
  intros H1 H2. induction l1 as [|x l1 IH]; [done|].
  destruct l1 as [|y l1].
  - simpl. by destruct l2.
  - change (Py.join sep ((x :: y :: l1) ++ l2))
      with (x +:+ sep +:+ Py.join sep ((y :: l1) ++ l2)).
    rewrite IH by done.
    change (Py.join sep (x :: y :: l1))
      with (x +:+ sep +:+ Py.join sep (y :: l1)).
    by rewrite !string_app_assoc.
Qed.

Lemma two_parts_differ parts :
  Forall (λ p, p ≠ []) parts → 2 ≤ length parts →
  dumps_parts parts ≠ Json.dumps (JList (concat parts)).
Proof.
  intros Hne Hlen.
  destruct parts as [|p1 [|p2 ps]]; [simpl in Hlen; lia..|].
  apply Forall_cons in Hne as [Hp1 Hne].
  apply Forall_cons in Hne as [Hp2 _].
  set (rest := concat (p2 :: ps)).
  assert (rest ≠ []) as Hrest.
  { subst rest. simpl. by destruct p2. }
  change (concat (p1 :: p2 :: ps)) with (p1 ++ rest).
  unfold dumps_parts. rewrite !fmap_cons.
  change (String.concat "" (?a :: ?b :: ?l))
    with (a +:+ "" +:+ String.concat "" (b :: l)).
  set (X := String.concat "" _).
  change (Json.dumps (JList p1))
    with ("[" +:+ Py.join ", " (List.map Json.dumps p1) +:+ "]").
  change (Json.dumps (JList (p1 ++ rest)))
    with ("[" +:+ Py.join ", " (List.map Json.dumps (p1 ++ rest)) +:+ "]").
  rewrite List.map_app.
  rewrite join_app; [|by destruct p1|by destruct rest].
  rewrite !string_app_assoc.
  intros Heq. apply (inj _) in Heq. apply (inj _) in Heq.
  rewrite !string_app_cons in Heq. discriminate Heq.
Qed.

Section Partition.
Context `{PyRepr}.

Lemma flushed_spec mbs records : ∀ buffer size,
  buffer ++ records
  = concat (flushed mbs records buffer size).1
    ++ (flushed mbs records buffer size).2 ∧
  Forall (λ p, p ≠ []) (flushed mbs records buffer size).1.
Proof.
  induction records as [|chunk rest IH]; intros buffer size; simpl.
  - by rewrite app_nil_r.
  - destruct (_ <=? _)%Z.
    + specialize (IH [] 0%Z). destruct (flushed mbs rest [] 0) as [ps b].
      simpl in *. destruct IH as [Heq Hne]. split.
      * rewrite Heq. by rewrite <- !app_assoc.
      * constructor; [by destruct buffer|done].
    + specialize (IH (buffer ++ [chunk]) (size + str_len chunk)%Z).
      by rewrite <- app_assoc in IH.
Qed.

Lemma split_parts_spec mbs records :
  concat (split_parts mbs records) = records ∧
  Forall (λ p, p ≠ []) (split_parts mbs records).
Proof.
  unfold split_parts.
  destruct (flushed_spec mbs records [] 0%Z) as [Heq Hne].
  destruct (flushed mbs records [] 0) as [ps [|r b]]; simpl in *.
  - rewrite app_nil_r in *. by rewrite Heq.
  - rewrite concat_app. simpl. rewrite app_nil_r. split; [done|].
    apply Forall_app. split; [done|]. by repeat constructor.
Qed.
End Partition.

Section Equivalence.
Context `{Hashlib, Gzip, PyRepr, Clock, Frames, S3Service}.

Lemma decompress_parts parts :
  gzip_decompress (String.concat "" (part_body <$> parts))
  = Some (dumps_parts parts).
Proof.
  unfold dumps_parts. rewrite <- gzip_members. f_equal. f_equal.
  unfold part_body. by rewrite <- list_fmap_compose.
Qed.

Lemma decompress_whole data :
  gzip_decompress (gzip_compress (Json.dumps data)) = Some (Json.dumps data).
Proof. apply (gzip_members [Json.dumps data]). Qed.

(** C4 (the code against the claim).  Whenever the stream uploads two
    parts or more, the object it stores and the object a single
    whole-object write of the same records stores, under the same key,
    decompress to different texts: the first is one JSON array per part,
    the second one array of all the records. *)
Theorem streamed_parts_differ_from_whole_object
    mbs source records filename s k1 s1 k2 s2 :
  2 ≤ length (split_parts mbs records) →
  S3Storage.stream_with mbs source (iter records) filename s
    = (Return k1, s1) →
  S3Storage.store_processed_text_data source (JList records) filename s
    = (Return k2, s2) →
  k1 = k2 ∧
  ∃ o1 o2, objects s1 !! k1 = Some o1 ∧ objects s2 !! k2 = Some o2 ∧
           gzip_decompress (Body o1)
             = Some (dumps_parts (split_parts mbs records)) ∧
           gzip_decompress (Body o2) = Some (Json.dumps (JList records)) ∧
           gzip_decompress (Body o1) ≠ gzip_decompress (Body o2).
Proof.
  intros Hparts Hstream Hstore.
  apply stream_with_returns in Hstream as [Hk1 Ho1].
  apply store_processed_text_data_returns in Hstore as [Hk2 Ho2].
  split; [congruence|].
  eexists _, _. rewrite Ho1, Ho2, !lookup_insert_eq.
  split; [done|]. split; [done|]. cbn [Body S3Storage.json_object].
  rewrite decompress_parts, decompress_whole.
  split; [done|]. split; [done|].
  destruct (split_parts_spec mbs records) as [Hcat Hne].
  intros [= Heq]. revert Heq. rewrite <- Hcat at 2.
  by apply two_parts_differ.
Qed.

(** With a single part the two objects hold the same text. *)
Lemma single_part_same_as_whole_object
    mbs source records filename s k1 s1 k2 s2 :
  length (split_parts mbs records) = 1 →
  S3Storage.stream_with mbs source (iter records) filename s
    = (Return k1, s1) →
  S3Storage.store_processed_text_data source (JList records) filename s
    = (Return k2, s2) →
  k1 = k2 ∧ objects s1 !! k1 = objects s2 !! k2.
Proof.
  intros Hparts Hstream Hstore.
  apply stream_with_returns in Hstream as [Hk1 Ho1].
  apply store_processed_text_data_returns in Hstore as [Hk2 Ho2].
  split; [congruence|].
  rewrite Ho1, Ho2, !lookup_insert_eq.
  destruct (split_parts_spec mbs records) as [Hcat _].
  destruct (split_parts mbs records) as [|p [|]]; try done.
  simpl in Hcat. rewrite app_nil_r in Hcat. by subst p.
Qed.
End Equivalence.

(** ** The crawl loop *)

Lemma fetches_of_snoc url l e :
  fetches_of url (l ++ [e])
  = fetches_of url l + (if decide (e = Crawling url) then 1 else 0).
Proof.
  unfold fetches_of. rewrite filter_app, length_app. f_equal.
  rewrite filter_cons, filter_nil. by destruct (decide (e = Crawling url)).
Qed.

Lemma fetches_of_emit url e w :
  (∀ u, e ≠ Crawling u) →
  fetches_of url (log (emit e w)) = fetches_of url (log w).
Proof.
  intros Hne. unfold emit. simpl. rewrite fetches_of_snoc.
  destruct (decide _) as [Heq|]; [by apply Hne in Heq|lia].
Qed.

Lemma fetches_of_request url u w :
  fetches_of url (log (request u w)) = fetches_of url (log w).
Proof.
  unfold request. simpl. rewrite fetches_of_snoc.
  destruct (decide _); [done|lia].
Qed.

Section FetchLog.
Context `{Network}.

Lemma base_attempts_log self url u todo : ∀ w,
  fetches_of url (log (BaseCrawler.attempts self u todo w).2)
  = fetches_of url (log w).
Proof.
  induction todo as [|attempt todo IH]; intros w; [done|].
  cbn [BaseCrawler.attempts].
  set (w2 := if 0 <? attempt then _ else _).
  assert (fetches_of url (log w2) = fetches_of url (log w)) as Hw2.
  { subst w2. destruct (0 <? attempt); by rewrite !fetches_of_emit. }
  destruct (http (clock w2) u); cbn [snd].
  - by rewrite fetches_of_emit, fetches_of_request.
  - by rewrite IH, fetches_of_emit, fetches_of_request.
  - by rewrite IH, fetches_of_emit, fetches_of_request.
  - by rewrite fetches_of_request.
Qed.

Lemma failed_log self attempt url u w :
  fetches_of url (log (DynamicCrawler.failed self attempt u w))
  = fetches_of url (log w).
Proof.
  unfold DynamicCrawler.failed.
  destruct (S attempt <? _); by rewrite !fetches_of_emit by done.
Qed.

Lemma dynamic_attempts_log self wt url u todo : ∀ w,
  fetches_of url (log (DynamicCrawler.attempts self wt u todo w).2)
  = fetches_of url (log w).
Proof.
  induction todo as [|attempt todo IH]; intros w; [done|].
  cbn [DynamicCrawler.attempts].
  destruct (http (clock w) u); try destruct (page_content (clock w) u);
    cbn [snd]; rewrite ?IH, ?failed_log, ?fetches_of_emit by done;
    by rewrite fetches_of_request.
Qed.
End FetchLog.

Section LoopFacts.
Context `{Hashlib, PySet, Nlp, Network, Extraction, Clock}.

Local Abbreviation visited f :=
  (StaticCrawler.visited_urls (StaticCrawler.self f)).
Local Abbreviation limit f := (StaticCrawler.page_limit (StaticCrawler.self f)).
Local Abbreviation queue f := (StaticCrawler.to_visit f).
Local Abbreviation log_of f := (log (StaticCrawler.world f)).

Lemma get_page_log self url u w :
  fetches_of url (log (StaticCrawler.get_page self u w).2)
  = fetches_of url (log w).
Proof.
  unfold StaticCrawler.get_page, BaseCrawler.get_page,
    DynamicCrawler.get_page.
  destruct (StaticCrawler.wait_time self); simpl;
    [apply dynamic_attempts_log|apply base_attempts_log].
Qed.

Lemma turn_inv f f' :
  turn f f' →
  ∃ url rest,
    queue f = url :: rest ∧
    size (visited f) < limit f ∧
    limit f' = limit f ∧
    StaticCrawler.metrics (StaticCrawler.self f')
      = StaticCrawler.metrics (StaticCrawler.self f) ∧
    StaticCrawler.base (StaticCrawler.self f')
      = StaticCrawler.base (StaticCrawler.self f) ∧
    turn_kind f f' url.
Proof.
  unfold turn, StaticCrawler.loop_step.
  destruct (queue f) as [|url rest] eqn:Hq; [done|].
  destruct (size (visited f) <? limit f) eqn:Hlim; [|done].
  apply Nat.ltb_lt in Hlim. simpl.
  case_bool_decide as Hvis.
  { intros [= <-]. exists url, rest. repeat split; try done.
    apply AlreadyVisited; try done. by rewrite Hq. }
  destruct (StaticCrawler.get_page _ _ _) as [[html|e] w] eqn:Hget; [|done].
  destruct (StaticCrawler.not_html html) eqn:Hnot.
  { intros [= <-]. exists url, rest. repeat split; try done.
    eapply FetchFailed; try done. by rewrite Hq. }
  destruct html as [html|]; [|done]. simpl in Hnot. simpl.
  destruct (StaticCrawler.parse _ _) as [[page|] tp];
    intros [= <-]; exists url, rest; (repeat split; try done);
    eapply Fetched; eauto.
Qed.

Lemma turn_kind_fetches f f' url u :
  turn_kind f f' url →
  fetches_of u (log_of f')
  = fetches_of u (log_of f)
    + (if bool_decide (u = url ∧ url ∉ visited f) then 1 else 0).
Proof.
  intros [Hvis Hself Hq Hlog|html w Hvis Hget Hnot Hself Hq Hw
          |html w Hvis Hget Hnot Hvis' Hw].
  - rewrite Hlog. rewrite bool_decide_eq_false_2; [lia|]. by intros [_ ?].
  - rewrite Hw, fetches_of_emit by done.
    pose proof (get_page_log (StaticCrawler.self f) u url
                  (emit (Crawling url) (StaticCrawler.world f))) as Hl.
    rewrite Hget in Hl. simpl in Hl. rewrite Hl.
    unfold emit. simpl. rewrite fetches_of_snoc.
    destruct (decide (Crawling url = Crawling u)) as [[= ->]|Hne].
    + by rewrite bool_decide_eq_true_2.
    + rewrite bool_decide_eq_false_2; [done|]. intros [-> _]. by apply Hne.
  - assert (fetches_of u (log_of f') = fetches_of u (log w)) as ->.
    { destruct Hw as [-> | ->]; [by rewrite fetches_of_emit|done]. }
    pose proof (get_page_log (StaticCrawler.self f) u url
                  (emit (Crawling url) (StaticCrawler.world f))) as Hl.
    rewrite Hget in Hl. simpl in Hl. rewrite Hl.
    unfold emit. simpl. rewrite fetches_of_snoc.
    destruct (decide (Crawling url = Crawling u)) as [[= ->]|Hne].
    + by rewrite bool_decide_eq_true_2.
    + rewrite bool_decide_eq_false_2; [done|]. intros [-> _]. by apply Hne.
Qed.

Lemma turn_kind_visited f f' url :
  turn_kind f f' url → visited f ⊆ visited f'.
Proof.
  intros [Hvis Hself Hq Hlog|html w Hvis Hget Hnot Hself Hq Hw
          |html w Hvis Hget Hnot Hvis' Hw].
  - by rewrite Hself.
  - by rewrite Hself.
  - rewrite Hvis'. apply union_subseteq_r.
Qed.
End LoopFacts.

Section Frontier.
Context `{Hashlib, PySet, Nlp, Network, Extraction, Clock}.

Local Abbreviation visited f :=
  (StaticCrawler.visited_urls (StaticCrawler.self f)).
Local Abbreviation limit f := (StaticCrawler.page_limit (StaticCrawler.self f)).
Local Abbreviation queue f := (StaticCrawler.to_visit f).
Local Abbreviation log_of f := (log (StaticCrawler.world f)).

Lemma size_add_new (url : string) (X : gset string) :
  url ∉ X → size ({[url]} ∪ X) = S (size X).
Proof.
  intros Hnew. rewrite size_union by (by apply disjoint_singleton_l).
  by rewrite size_singleton.
Qed.

(** Termination, by the lexicographic measure (pages still allowed,
    length of the queue). *)
Lemma generator_ends n : ∀ m f,
  limit f - size (visited f) ≤ n → length (queue f) ≤ m →
  ∃ fuel r, StaticCrawler.text_data_generator fuel f = Some r.
Proof.
  induction n as [n IHn] using lt_wf_ind.
  induction m as [|m IHm]; intros f Hn Hm.
  - destruct (queue f) eqn:Hq; [|simpl in Hm; lia].
    exists 1, (StaticCrawler.Exhausted f). simpl.
    unfold StaticCrawler.loop_step. by rewrite Hq.
  - destruct (StaticCrawler.loop_step f) as [f'| |e f'] eqn:Hstep.
    + destruct (turn_inv f f' Hstep)
        as (url & rest & Hq & Hlim & Hl & _ & _ & Hkind).
      assert (∃ fuel r, StaticCrawler.text_data_generator fuel f' = Some r)
        as (fuel & r & Hrun).
      { destruct Hkind as [Hvis Hself Hq' Hlog|html w Hvis Hget Hnot Hself Hq' Hw
                          |html w Hvis Hget Hnot Hvis' Hw].
        - apply IHm; [by rewrite Hself|].
          rewrite Hq', Hq. rewrite Hq in Hm. simpl in *. lia.
        - apply IHm; [by rewrite Hself|].
          rewrite Hq', Hq. rewrite Hq in Hm. simpl in *. lia.
        - apply (IHn (limit f' - size (visited f')))
            with (m := length (queue f')); [|done..].
          rewrite Hvis', size_add_new, Hl by done. lia. }
      exists (S fuel), r. simpl. by rewrite Hstep.
    + exists 1, (StaticCrawler.Exhausted f). simpl. by rewrite Hstep.
    + exists 1, (StaticCrawler.Raised e f'). simpl. by rewrite Hstep.
Qed.

Lemma turn_within_limit f f' :
  turn f f' → size (visited f) ≤ limit f →
  limit f' = limit f ∧ size (visited f') ≤ limit f'.
Proof.
  intros Hstep Hle.
  destruct (turn_inv f f' Hstep)
    as (url & rest & Hq & Hlim & Hl & _ & _ & Hkind).
  split; [done|]. rewrite Hl.
  destruct Hkind as [Hvis Hself Hq' Hlog|html w Hvis Hget Hnot Hself Hq' Hw
                    |html w Hvis Hget Hnot Hvis' Hw].
  - by rewrite Hself.
  - by rewrite Hself.
  - rewrite Hvis', size_add_new by done. lia.
Qed.

(** A run of the generator passes through loop turns only; the frame it
    ends with holds the crawler of the last frame reached. *)
Lemma generator_run fuel : ∀ f r,
  StaticCrawler.text_data_generator fuel f = Some r →
  ∃ f', rtc turn f f' ∧
        StaticCrawler.self (StaticCrawler.ended_frame r)
        = StaticCrawler.self f' ∧
        StaticCrawler.yielded (StaticCrawler.ended_frame r)
        = StaticCrawler.yielded f' ∧
        StaticCrawler.crawled_data (StaticCrawler.ended_frame r)
        = StaticCrawler.crawled_data f'.
Proof.
  induction fuel as [|fuel IH]; intros f r; [done|]. simpl.
  destruct (StaticCrawler.loop_step f) as [f'| |e f'] eqn:Hstep.
  - intros Hrun. destruct (IH _ _ Hrun) as (f'' & Hrtc & Hself).
    exists f''. split; [|done]. by eapply rtc_l.
  - intros [= <-]. by exists f.
  - intros [= <-]. exists f. split; [done|]. simpl.
    revert Hstep. unfold StaticCrawler.loop_step.
    destruct (queue f) as [|url rest]; [done|].
    destruct (negb _); [done|]. case_bool_decide; [done|].
    destruct (StaticCrawler.get_page _ _ _) as [[html|e'] w]; [|by intros [= _ <-]].
    destruct (StaticCrawler.not_html html); [done|].
    by destruct (StaticCrawler.parse _ _) as [[page|] tp].
Qed.

(** C7.  Started with no more than [page_limit] visited URLs, the
    crawl loop terminates (some amount of fuel lets the generator run to
    its end), and in every frame the loop reaches, and in the one it
    ends with, the visited set holds at most [page_limit] URLs. *)
Theorem crawl_loop_terminates_within_limit f0 :
  size (visited f0) ≤ limit f0 →
  (∃ fuel r, StaticCrawler.text_data_generator fuel f0 = Some r) ∧
  (∀ f, rtc turn f0 f → size (visited f) ≤ limit f0) ∧
  (∀ fuel r, StaticCrawler.text_data_generator fuel f0 = Some r →
     size (visited (StaticCrawler.ended_frame r)) ≤ limit f0).
Proof.
  intros Hle.
  assert (∀ f, rtc turn f0 f →
            limit f = limit f0 ∧ size (visited f) ≤ limit f) as Hinv.
  { intros f Hrtc. induction Hrtc as [f|f f' f'' Hstep _ IH]; [done|].
    destruct (turn_within_limit f f' Hstep Hle) as [Hl Hle'].
    rewrite <- Hl. by apply IH. }
  split; [by eapply generator_ends|]. split.
  - intros f Hrtc. destruct (Hinv f Hrtc) as [Hl Hf]. by rewrite <- Hl.
  - intros fuel r Hrun.
    destruct (generator_run fuel f0 r Hrun) as (f & Hrtc & -> & _).
    destruct (Hinv f Hrtc) as [Hl Hf]. by rewrite <- Hl.
Qed.
End Frontier.

Section NoRefetch.
Context `{Hashlib, PySet, Nlp, Network, Extraction, Clock}.

Local Abbreviation visited f :=
  (StaticCrawler.visited_urls (StaticCrawler.self f)).
Local Abbreviation limit f := (StaticCrawler.page_limit (StaticCrawler.self f)).
Local Abbreviation queue f := (StaticCrawler.to_visit f).
Local Abbreviation log_of f := (log (StaticCrawler.world f)).

(** Whatever the loop does from a frame on, the URLs visited there stay
    visited and are not fetched. *)
Lemma visited_never_fetched f f' :
  rtc turn f f' →
  ∀ u, u ∈ visited f →
       u ∈ visited f' ∧ fetches_of u (log_of f') = fetches_of u (log_of f).
Proof.
  induction 1 as [f|f f1 f' Hstep _ IH]; intros u Hu; [done|].
  destruct (turn_inv f f1 Hstep) as (url & rest & _ & _ & _ & _ & _ & Hkind).
  pose proof (turn_kind_visited _ _ _ Hkind) as Hsub.
  pose proof (turn_kind_fetches _ _ _ u Hkind) as Hfetch.
  rewrite bool_decide_eq_false_2 in Hfetch
    by (intros [-> Hnew]; by apply Hnew).
  destruct (IH u) as [Hin Hsame]; [by apply Hsub|].
  split; [done|]. rewrite Hsame, Hfetch. lia.
Qed.

(** C1, as amended.  The loop fetches the URL at the head of the queue
    only when it is not in the visited set, and whenever [get_page]
    returns, the loop continues.  If the fetch gave nothing (the retries
    were exhausted and [get_page] returned [None], or the body was
    empty) the URL is skipped: a warning is logged, the crawler and its
    visited set are unchanged and the queue only loses its head.  If the
    fetch gave a document the URL is in the visited set afterwards.
    From then on no URL of the visited set is fetched again. *)
Theorem fetch_is_skipped_or_marks_visited f url rest r w :
  queue f = url :: rest →
  size (visited f) < limit f →
  url ∉ visited f →
  StaticCrawler.get_page (StaticCrawler.self f) url
    (emit (Crawling url) (StaticCrawler.world f)) = (Return r, w) →
  ∃ f', turn f f' ∧
        (if StaticCrawler.not_html r
         then StaticCrawler.self f' = StaticCrawler.self f ∧
              queue f' = rest ∧
              StaticCrawler.world f' = emit (FailedToFetch url) w
         else url ∈ visited f') ∧
        ∀ f'', rtc turn f' f'' →
               ∀ u, u ∈ visited f' →
                    u ∈ visited f'' ∧
                    fetches_of u (log_of f'') = fetches_of u (log_of f').
Proof.
  intros Hq Hlim Hnew Hget.
  assert (∃ f', turn f f' ∧
                if StaticCrawler.not_html r
                then StaticCrawler.self f' = StaticCrawler.self f ∧
                     queue f' = rest ∧
                     StaticCrawler.world f' = emit (FailedToFetch url) w
                else url ∈ visited f') as (f' & Hturn & Hcase).
  { unfold turn, StaticCrawler.loop_step. rewrite Hq.
    rewrite (proj2 (Nat.ltb_lt _ _) Hlim). simpl.
    rewrite bool_decide_eq_false_2 by done. rewrite Hget.
    destruct (StaticCrawler.not_html r) eqn:Hnot.
    - eexists. split; [done|]. done.
    - destruct (StaticCrawler.parse _ _) as [[page|] tp];
        (eexists; split; [done|]); simpl;
        apply elem_of_union_l; by apply elem_of_singleton. }
  exists f'. split; [done|]. split; [done|].
  intros f'' Hrtc. by apply visited_never_fetched.
Qed.
End NoRefetch.

(** C1 (the claim as stated, refuted).  On the small site the fetch of
    /a fails, /a is not marked visited, /c puts it back into the queue
    and it is fetched a second time. *)
Lemma failed_url_is_fetched_twice :
  match Site.run with
  | Some (StaticCrawler.Exhausted f) =>
      fetches_of "https://ex.com/a" (log (StaticCrawler.world f)) = 2 ∧
      requests_of "https://ex.com/a" (log (StaticCrawler.world f)) = 2 ∧
      bool_decide ("https://ex.com/a"
                   ∈ StaticCrawler.visited_urls (StaticCrawler.self f))
      = false
  | _ => False
  end.
Proof. vm_compute. repeat split; reflexivity. Qed.

Lemma fetch_is_skipped_or_marks_visited_witness :
  let f := StaticCrawler.start Site.crawler Site.w0 in
  ∃ f', @turn Demo.hashlib Demo.newest_last Demo.nlp Site.network
          Site.extraction Site.wall_clock f f' ∧
        "https://ex.com" ∈ StaticCrawler.visited_urls (StaticCrawler.self f').
Proof.
  destruct (@fetch_is_skipped_or_marks_visited
              Demo.hashlib Demo.newest_last Demo.nlp Site.network
              Site.extraction Site.wall_clock
              (StaticCrawler.start Site.crawler Site.w0)
              "https://ex.com" [] (Some "/a /c")
              (mk_io 1 [Crawling "https://ex.com"; RotateUserAgent;
                        HttpGet "https://ex.com"; Sleep 1]))
    as (f' & Hturn & Hvis & _).
  - reflexivity.
  - vm_compute. lia.
  - apply (bool_decide_unpack _). vm_compute. exact I.
  - vm_compute. reflexivity.
  - exists f'. split; [exact Hturn|exact Hvis].
Defined.

(** ** Link filtering *)

Section Links.
Context `{Extraction}.

Lemma links_of_acc self page hrefs : ∀ links,
  StaticCrawler.links_of self page hrefs links
  = links ++ StaticCrawler.links_of self page hrefs [].
Proof.
  induction hrefs as [|href hrefs IH]; intros links; simpl.
  - by rewrite app_nil_r.
  - destruct (StaticCrawler.skip_href href); [apply IH|].
    destruct (Py.startswith _ _); [|apply IH].
    rewrite IH, (IH [_]). by rewrite <- app_assoc.
Qed.

Lemma links_of_cons self page href hrefs :
  StaticCrawler.links_of self page (href :: hrefs) []
  = (if kept self page href then [urljoin page href] else [])
    ++ StaticCrawler.links_of self page hrefs [].
Proof.
  unfold kept. simpl.
  destruct (StaticCrawler.skip_href href); [done|]. simpl.
  destruct (Py.startswith _ _); [|done]. apply links_of_acc.
Qed.

Lemma links_of_app self page hrefs1 hrefs2 :
  StaticCrawler.links_of self page (hrefs1 ++ hrefs2) []
  = StaticCrawler.links_of self page hrefs1 []
    ++ StaticCrawler.links_of self page hrefs2 [].
Proof.
  induction hrefs1 as [|href hrefs1 IH]; [done|].
  rewrite <- app_comm_cons, !links_of_cons, IH. by rewrite app_assoc.
Qed.

(** C9, as amended.  For the [href]s of a fetched page taken in
    document order, the link of an [href] is appended to the queue if
    and only if the [href] is not empty and starts with neither "#" nor
    "javascript:", its absolute form starts with the base URL, and that
    form is neither visited nor in the queue as it stands when the
    link's turn comes; otherwise the queue is left as it is.  The queue
    after the page is what the remaining [href]s make of it. *)
Theorem link_is_enqueued_iff self html page visited q before href after :
  anchors html = before ++ href :: after →
  let link := urljoin page href in
  let q1 := StaticCrawler.enqueue_links visited q
              (StaticCrawler.links_of self page before []) in
  let q2 := StaticCrawler.enqueue_links visited q
              (StaticCrawler.links_of self page (before ++ [href]) []) in
  q2 = (if negb (StaticCrawler.skip_href href)
           && Py.startswith link
                (BaseCrawler.base_url (StaticCrawler.base self))
           && bool_decide (link ∉ visited) && bool_decide (link ∉ q1)
        then q1 ++ [link] else q1) ∧
  StaticCrawler.enqueue_links visited q
    (StaticCrawler.extract_links self html page)
  = StaticCrawler.enqueue_links visited q2
      (StaticCrawler.links_of self page after []).
Proof.
  intros Hanchors link q1 q2. split.
  - subst q2 q1. unfold StaticCrawler.enqueue_links.
    rewrite links_of_app, foldl_app, links_of_cons. fold link.
    change (negb (StaticCrawler.skip_href href) && _) with (kept self page href).
    by destruct (kept self page href).
  - subst q2. unfold StaticCrawler.extract_links, StaticCrawler.enqueue_links.
    rewrite Hanchors.
    replace (before ++ href :: after) with ((before ++ [href]) ++ after)
      by (by rewrite <- app_assoc).
    by rewrite (links_of_app _ _ (before ++ [href])), foldl_app.
Qed.
End Links.

Section LinksInLoop.
Context `{Hashlib, PySet, Nlp, Network, Extraction, Clock}.

Local Abbreviation visited f :=
  (StaticCrawler.visited_urls (StaticCrawler.self f)).
Local Abbreviation limit f := (StaticCrawler.page_limit (StaticCrawler.self f)).
Local Abbreviation queue f := (StaticCrawler.to_visit f).

Lemma links_of_base self1 self2 page hrefs : ∀ links,
  StaticCrawler.base self1 = StaticCrawler.base self2 →
  StaticCrawler.links_of self1 page hrefs links
  = StaticCrawler.links_of self2 page hrefs links.
Proof.
  induction hrefs as [|href hrefs IH]; intros links Hbase; [done|].
  simpl. rewrite Hbase. destruct (StaticCrawler.skip_href href); [by apply IH|].
  destruct (Py.startswith _ _); by apply IH.
Qed.

(** The queue after a turn that fetched a document: the rest of the
    queue for duplicate content, whose links are not looked at, and
    otherwise the rest of the queue with the links of the page offered
    to it, the page itself being visited by then. *)
Lemma queue_after_fetch f url rest html w :
  queue f = url :: rest →
  size (visited f) < limit f →
  url ∉ visited f →
  StaticCrawler.get_page (StaticCrawler.self f) url
    (emit (Crawling url) (StaticCrawler.world f)) = (Return (Some html), w) →
  Py.falsy html = false →
  ∃ f', turn f f' ∧
        queue f'
        = match StaticCrawler.parse (StaticCrawler.self f) html with
          | (None, _) => rest
          | (Some _, _) =>
              StaticCrawler.enqueue_links ({[url]} ∪ visited f) rest
                (StaticCrawler.extract_links (StaticCrawler.self f) html url)
          end.
Proof.
  intros Hq Hlim Hnew Hget Hhtml.
  unfold turn, StaticCrawler.loop_step. rewrite Hq.
  rewrite (proj2 (Nat.ltb_lt _ _) Hlim). simpl.
  rewrite bool_decide_eq_false_2 by done. rewrite Hget. simpl.
  rewrite Hhtml.
  destruct (StaticCrawler.parse _ _) as [[page|] tp];
    (eexists; split; [done|]); [|done]. simpl.
  unfold StaticCrawler.extract_links. f_equal. by apply links_of_base.
Qed.
End LinksInLoop.

Lemma link_is_enqueued_iff_witness :
  @anchors Site.extraction "/a /c /a" = ["/a"] ++ "/c" :: ["/a"] ∧
  StaticCrawler.enqueue_links {["https://ex.com"]} []
    (@StaticCrawler.extract_links Site.extraction Site.crawler "/a /c /a"
       "https://ex.com")
  = ["https://ex.com/a"; "https://ex.com/c"].
Proof.
  split; [reflexivity|].
  destruct (@link_is_enqueued_iff Site.extraction Site.crawler "/a /c /a"
              "https://ex.com" {["https://ex.com"]} [] ["/a"] "/c" ["/a"]
              eq_refl) as [Hq2 Hall].
  cbv zeta in Hq2, Hall. rewrite Hall, Hq2. vm_compute. reflexivity.
Defined.

(** C9 (the claim as stated, refuted).  On the page https://ex.com/a
    the anchor "#top" resolves to https://ex.com/a#top, which starts
    with the base URL and is neither visited nor queued: the policy of
    the claim offers it, the code drops it. *)
Lemma fragment_link_is_dropped :
  let self := Site.crawler in
  let page := "https://ex.com/a" in
  let visited : gset string := {["https://ex.com"; "https://ex.com/a"]} in
  @anchors Site.extraction "#top" = ["#top"] ∧
  @urljoin Site.extraction page "#top" = "https://ex.com/a#top" ∧
  @offered_by_prefix_policy Site.extraction self page visited [] "#top"
    = true ∧
  StaticCrawler.enqueue_links visited []
    (@StaticCrawler.extract_links Site.extraction self "#top" page) = [].
Proof. vm_compute. repeat split; reflexivity. Qed.

(** ** The post-crawl summary *)

Lemma falsy_suffixed a c b : Py.falsy (a +:+ String c b) = false.
Proof. by destruct a. Qed.

Section Summary.
Context `{Hashlib, PySet, Nlp, Network, Extraction, Clock, Gzip, PyRepr,
          Frames, S3Service}.

Lemma turns_keep_configuration f f' :
  rtc turn f f' →
  StaticCrawler.metrics (StaticCrawler.self f')
    = StaticCrawler.metrics (StaticCrawler.self f) ∧
  StaticCrawler.base (StaticCrawler.self f')
    = StaticCrawler.base (StaticCrawler.self f).
Proof.
  induction 1 as [f|f f1 f' Hstep _ [IHm IHb]]; [done|].
  destruct (turn_inv f f1 Hstep) as (_ & _ & _ & _ & _ & Hm & Hb & _).
  split; congruence.
Qed.

Lemma process_chunks_raising mbs key id records e : ∀ st s st' s',
  S3Storage.process_chunks mbs key id records (Some e) st s
  ≠ (Return st', s').
Proof.
  induction records as [|chunk rest IH]; intros st s st' s'; [done|].
  simpl. destruct (_ <=? _)%Z; [|apply IH].
  unfold bind at 1.
  destruct (S3Client.upload_part _ _ _ _ s) as [[etag|e'] s1]; [apply IH|done].
Qed.

(** A generator that raises makes the stream raise. *)
Lemma stream_of_raising_generator mbs source records e filename s k s' :
  S3Storage.stream_with mbs source
    {| chunks := records; ending := Some e |} filename s
  ≠ (Return k, s').
Proof.
  unfold S3Storage.stream_with, try_bound.
  destruct (S3Client.create_multipart_upload _ _ _ s) as [[id|e1] s1].
  2:{ destruct e1; [by rewrite on_client_error_raises|done]. }
  unfold bind at 1. simpl.
  destruct (S3Storage.process_chunks _ _ _ _ _ _ s1) as [[st|e2] s2] eqn:Hpc.
  - by apply process_chunks_raising in Hpc.
  - destruct e2; [by rewrite on_client_error_raises|done].
Qed.

Lemma summary_key_is_not_sitemap_key self :
  summary_key self
  ≠ S3Storage._generate_key (BaseCrawler.name (StaticCrawler.base self))
      config.S3_PROCESSED_DATA_PREFIX (StaticCrawler.sitemap_filename self).
Proof.
  unfold summary_key, S3Storage._generate_key,
    StaticCrawler.summary_filename, StaticCrawler.sitemap_filename.
  intros Heq. do 7 apply (inj _) in Heq. discriminate Heq.
Qed.

(** What [_post_crawl_processing] leaves when it returns. *)
Lemma post_crawl_processing_returns self w s self' s' :
  StaticCrawler._post_crawl_processing self w s = (Return self', s') →
  objects s' !! summary_key self
  = Some (S3Storage.json_object
            (gzip_compress
               (Json.dumps
                  (JObj [("total_pages",
                          JInt (Z.of_nat (size (StaticCrawler.visited_urls self))));
                         ("successful_crawls",
                          JInt (Z.of_nat (size (StaticCrawler.visited_urls self))));
                         ("failed_crawls",
                          JInt (Z.of_nat (StaticCrawler.failed_crawls
                                            (StaticCrawler.metrics self))));
                         ("start_time",
                          JStr (StaticCrawler.start_time
                                  (StaticCrawler.metrics self)));
                         ("end_time", JStr (isoformat_now (clock w)))])))) ∧
  StaticCrawler.visited_urls self' = StaticCrawler.visited_urls self ∧
  StaticCrawler.total_pages (StaticCrawler.metrics self')
    = size (StaticCrawler.visited_urls self) ∧
  StaticCrawler.successful_crawls (StaticCrawler.metrics self')
    = size (StaticCrawler.visited_urls self) ∧
  StaticCrawler.failed_crawls (StaticCrawler.metrics self')
    = StaticCrawler.failed_crawls (StaticCrawler.metrics self).
Proof.
  unfold StaticCrawler._post_crawl_processing, S3Storage.store_processed_data.
  rewrite !bool_decide_eq_true_2 by done.
  unfold S3Storage.filename_or, StaticCrawler.summary_filename,
    StaticCrawler.sitemap_filename.
  rewrite !falsy_suffixed.
  unfold bind, ret. rewrite put_object_run.
  destruct (client_error (calls s)); [done|].
  rewrite put_object_run. cbn [calls].
  destruct (client_error (S (calls s))); [done|].
  intros [= <- <-]. split; [|done]. cbn [objects].
  rewrite lookup_insert_ne.
  - unfold summary_key, StaticCrawler.summary_filename.
    by rewrite lookup_insert_eq.
  - intros Heq. by apply (summary_key_is_not_sitemap_key self).
Qed.

(** C10.  A crawler whose [failed_crawls] counter is 0, as [__init__]
    leaves it, runs a crawl that reaches post-crawl processing and
    returns.  The summary stored then reports [total_pages] and
    [successful_crawls] both equal to the size of the final visited set
    and [failed_crawls] equal to 0, for every network: failed fetches
    are not counted, and duplicate pages are in the visited set like the
    others.  The counter is 0 again afterwards. *)
Theorem summary_counts_visited_and_no_failures fuel c w s data c' w' s' :
  StaticCrawler.failed_crawls (StaticCrawler.metrics c) = 0 →
  StaticCrawler.crawl fuel c w s = Some (Return (data, c', w'), s') →
  objects s' !! summary_key c
  = Some (S3Storage.json_object
            (gzip_compress
               (Json.dumps
                  (summary_of (size (StaticCrawler.visited_urls c'))
                     (StaticCrawler.start_time (StaticCrawler.metrics c))
                     (isoformat_now (clock w')))))) ∧
  StaticCrawler.failed_crawls (StaticCrawler.metrics c') = 0.
Proof.
  intros Hzero. unfold StaticCrawler.crawl.
  destruct (S3Storage.init s) as [[[]|e0] s0]; [|done].
  destruct (StaticCrawler.text_data_generator fuel _) as [r|] eqn:Hgen;
    [|done].
  destruct (generator_run _ _ _ Hgen) as (f & Hrtc & Hself & _).
  destruct (turns_keep_configuration _ _ Hrtc) as [Hm Hb].
  rewrite <- Hself in Hm, Hb. simpl in Hm, Hb.
  set (fr := StaticCrawler.ended_frame r) in *.
  unfold bind at 1.
  destruct (S3Storage.stream_processed_text_data _ _ _ s0)
    as [[k|e1] s1] eqn:Hstream; [|done].
  destruct (StaticCrawler._post_crawl_processing _ _ s1)
    as [[self'|e2] s2] eqn:Hpost; [|done].
  intros [= <- <- <- <-].
  apply post_crawl_processing_returns in Hpost
    as (Hobj & Hvis & _ & _ & Hfailed).
  rewrite Hm, Hzero in Hobj, Hfailed. split; [|done].
  unfold summary_of. rewrite Hvis.
  replace (summary_key c) with (summary_key (StaticCrawler.self fr)); [done|].
  unfold summary_key, StaticCrawler.summary_filename. by rewrite Hb.
Qed.
End Summary.

(** ** Concrete runs *)

Lemma rendered_fetch_returns_the_error_page_witness :
  gave_up_after 3 "https://ex.com/a" Site.w0
    (@BaseCrawler.get_page Store.server_error Store.three_retries
       "https://ex.com/a" Site.w0) ∧
  fetched_at 1 "<html>Internal Server Error</html>" "https://ex.com/a"
    Site.w0
    (@DynamicCrawler.get_page Store.server_error Store.three_retries 5
       "https://ex.com/a" Site.w0).
Proof.
  apply (@rendered_fetch_returns_the_error_page Store.server_error
           Store.three_retries 5 "https://ex.com/a" Site.w0).
  - simpl. lia.
  - intros k. by eexists.
  - reflexivity.
Defined.

Lemma failed_stream_is_not_aborted_witness :
  let run := @S3Storage.stream_with Demo.hashlib Store.gzip Store.pyrepr
               Site.wall_clock Store.refuses_second
               S3Storage.max_buffer_size "ex"
               (iter [Store.record "https://ex.com"]) None Store.empty in
  run.1 = Raise ClientError ∧
  is_Some (uploads run.2 !! 0) ∧ objects run.2 = objects Store.empty.
Proof.
  intros run. split; [vm_compute; reflexivity|].
  apply (@failed_stream_is_not_aborted Demo.hashlib Store.gzip Store.pyrepr
           Site.wall_clock Store.refuses_second
           S3Storage.max_buffer_size "ex"
           (iter [Store.record "https://ex.com"]) None Store.empty
           ClientError run.2).
  - reflexivity.
  - vm_compute. reflexivity.
Defined.

Lemma streamed_parts_differ_from_whole_object_witness :
  let records := [Store.record "https://ex.com";
                  Store.record "https://ex.com/c"] in
  let streamed := @S3Storage.stream_with Demo.hashlib Store.gzip
                    Store.pyrepr Site.wall_clock Store.reliable
                    20 "ex" (iter records) None Store.empty in
  let whole := @S3Storage.store_processed_text_data Store.gzip
                 Site.wall_clock Store.reliable
                 "ex" (JList records) None Store.empty in
  ∃ k o1 o2,
    streamed.1 = Return k ∧ whole.1 = Return k ∧
    objects streamed.2 !! k = Some o1 ∧ objects whole.2 !! k = Some o2 ∧
    @gzip_decompress Store.gzip (Body o1)
    ≠ @gzip_decompress Store.gzip (Body o2).
Proof.
  intros records streamed whole.
  destruct (@streamed_parts_differ_from_whole_object
              Demo.hashlib Store.gzip Store.pyrepr Site.wall_clock
              Store.reliable 20%Z "ex" records None Store.empty
              "text_processed/ex/2026/01/01/ex_20260101000000_text.json.gz"
              streamed.2
              "text_processed/ex/2026/01/01/ex_20260101000000_text.json.gz"
              whole.2)
    as (_ & o1 & o2 & Ho1 & Ho2 & _ & _ & Hne).
  - vm_compute. lia.
  - vm_compute. reflexivity.
  - vm_compute. reflexivity.
  - eexists _, o1, o2. split; [vm_compute; reflexivity|].
    split; [vm_compute; reflexivity|]. done.
Defined.

Lemma crawl_loop_terminates_within_limit_witness :
  let f0 := StaticCrawler.start Site.crawler Site.w0 in
  (∃ fuel r,
     @StaticCrawler.text_data_generator Demo.hashlib Demo.newest_last
       Demo.nlp Site.network Site.extraction Site.wall_clock fuel f0
     = Some r) ∧
  ∀ fuel r,
    @StaticCrawler.text_data_generator Demo.hashlib Demo.newest_last
      Demo.nlp Site.network Site.extraction Site.wall_clock fuel f0
    = Some r →
    size (StaticCrawler.visited_urls
            (StaticCrawler.self (StaticCrawler.ended_frame r))) ≤ 10.
Proof.
  intros f0.
  destruct (@crawl_loop_terminates_within_limit Demo.hashlib
              Demo.newest_last Demo.nlp Site.network Site.extraction
              Site.wall_clock f0) as (Hends & _ & Hlimit).
  - vm_compute. lia.
  - split; [exact Hends|exact Hlimit].
Defined.

(** The scenario of the linear site: with a limit of two pages the
    crawl visits ex.com and /a, and never fetches /b or /c. *)
Example linear_site_stops_at_the_limit :
  match Linear.run with
  | Some (StaticCrawler.Exhausted f) =>
      StaticCrawler.visited_urls (StaticCrawler.self f)
        = {["https://ex.com"; "https://ex.com/a"]} ∧
      fetches_of "https://ex.com/b" (log (StaticCrawler.world f)) = 0 ∧
      fetches_of "https://ex.com/c" (log (StaticCrawler.world f)) = 0 ∧
      StaticCrawler.to_visit f = ["https://ex.com/b"]
  | _ => False
  end.
Proof. vm_compute. repeat split; reflexivity. Qed.

Lemma crawl_run_returns :
  ∃ data c' w' s', Store.crawl_run = Some (Return (data, c', w'), s') ∧
                   size (StaticCrawler.visited_urls c') = 2.
Proof. vm_compute. eexists _, _, _, _. split; reflexivity. Qed.

Lemma summary_counts_visited_and_no_failures_witness :
  ∃ data c' w' s',
    Store.crawl_run = Some (Return (data, c', w'), s') ∧
    size (StaticCrawler.visited_urls c') = 2 ∧
    objects s' !! @summary_key Site.wall_clock Site.crawler
    = Some (S3Storage.json_object
              (@gzip_compress Store.gzip
                 (Json.dumps
                    (summary_of (size (StaticCrawler.visited_urls c'))
                       "2026-01-01T00:00:00"
                       (@isoformat_now Site.wall_clock (clock w')))))) ∧
    StaticCrawler.failed_crawls (StaticCrawler.metrics c') = 0.
Proof.
  destruct crawl_run_returns as (data & c' & w' & s' & Hrun & Hsize).
  exists data, c', w', s'. split; [exact Hrun|]. split; [exact Hsize|].
  apply (@summary_counts_visited_and_no_failures Demo.hashlib
           Demo.newest_last Demo.nlp Site.network Site.extraction
           Site.wall_clock Store.gzip Store.pyrepr Store.frames
           Store.reliable 10 Site.crawler Site.w0 Store.empty data c' w' s'
           eq_refl Hrun).
Defined.

(** * Further properties of the code *)

(** ** The duplicate ledger, continued *)

Section LedgerInvariant.
Context `{Hashlib, PySet}.

Lemma length_last_n {A} n (l : list A) :
  0 < n → length (Py.last_n n l) ≤ n.
Proof.
  intros Hn. unfold Py.last_n. rewrite (proj2 (Nat.eqb_neq _ 0)) by lia.
  rewrite length_drop. lia.
Qed.

Lemma NoDup_last_n {A} n (l : list A) : NoDup l → NoDup (Py.last_n n l).
Proof.
  intros Hnd. unfold Py.last_n. destruct (n =? 0); [done|].
  rewrite <- (take_drop (length l - n) l) in Hnd.
  by apply NoDup_app in Hnd as (_ & _ & Hd).
Qed.

(** One check keeps the ledger free of repetitions and within
    [max_hashes + 1] entries. *)
Lemma is_duplicate_keeps_bound tp text :
  0 < TextProcessor.max_hashes tp →
  NoDup (TextProcessor.content_hashes tp) →
  NoDup (TextProcessor.content_hashes (TextProcessor.is_duplicate tp text).2)
  ∧ length (TextProcessor.content_hashes
              (TextProcessor.is_duplicate tp text).2)
    ≤ S (TextProcessor.max_hashes tp).
Proof.
  intros Hpos Hnd. unfold TextProcessor.is_duplicate.
  set (hashes := if _ <=? _ then _ else _).
  assert (NoDup hashes ∧ length hashes ≤ TextProcessor.max_hashes tp)
    as [Hnd' Hlen'].
  { subst hashes. destruct (_ <=? _) eqn:Hcap.
    - pose proof (NoDup_last_n (TextProcessor.max_hashes tp) _ Hnd) as Hl.
      rewrite (set_of_list_perm _ Hl). split; [done|].
      by apply length_last_n.
    - apply Nat.leb_gt in Hcap. split; [done|lia]. }
  case_bool_decide as Hin; simpl.
  - split; [done|lia].
  - rewrite (set_add_new _ _ Hin). split; [by apply NoDup_cons|simpl; lia].
Qed.

(** X1.  Whatever texts are checked, in whatever order, a ledger that
    starts without repetitions (the empty one of [__init__], say) never
    holds a fingerprint twice and, for a positive [max_hashes], never
    holds more than [max_hashes + 1] fingerprints. *)
Theorem ledger_stays_within_one_of_capacity texts : ∀ tp,
  0 < TextProcessor.max_hashes tp →
  NoDup (TextProcessor.content_hashes tp) →
  length (TextProcessor.content_hashes tp) ≤ S (TextProcessor.max_hashes tp) →
  TextProcessor.max_hashes (TextProcessor.feed tp texts)
    = TextProcessor.max_hashes tp ∧
  NoDup (TextProcessor.content_hashes (TextProcessor.feed tp texts)) ∧
  length (TextProcessor.content_hashes (TextProcessor.feed tp texts))
    ≤ S (TextProcessor.max_hashes tp).
Proof.
  induction texts as [|t ts IH]; intros tp Hpos Hnd Hlen; [done|].
  rewrite feed_cons.
  destruct (is_duplicate_keeps_bound tp t Hpos Hnd) as [Hnd1 Hlen1].
  pose proof (is_duplicate_max_hashes tp t) as Hmax.
  destruct (IH (TextProcessor.is_duplicate tp t).2) as (Hm & Hn & Hl);
    rewrite ?Hmax; try done.
  rewrite Hmax in Hm, Hl. done.
Qed.

(** A check of a text whose fingerprint the ledger holds, the ledger
    being within capacity, answers "duplicate" and evicts nothing. *)
Lemma is_duplicate_known tp text :
  NoDup (TextProcessor.content_hashes tp) →
  length (TextProcessor.content_hashes tp) ≤ TextProcessor.max_hashes tp →
  TextProcessor.calculate_content_hash text ∈ TextProcessor.content_hashes tp →
  (TextProcessor.is_duplicate tp text).1 = true ∧
  TextProcessor.content_hashes (TextProcessor.is_duplicate tp text).2
    ≡ₚ TextProcessor.content_hashes tp.
Proof.
  intros Hnd Hlen Hold. unfold TextProcessor.is_duplicate.
  set (hashes := if _ <=? _ then _ else _).
  assert (hashes ≡ₚ TextProcessor.content_hashes tp) as Hp.
  { subst hashes. destruct (_ <=? _) eqn:Hcap; [|done].
    rewrite last_n_all by lia. by apply set_of_list_perm. }
  rewrite bool_decide_eq_true_2 by (by rewrite Hp). done.
Qed.

(** X2.  On a ledger below capacity that has not seen a text's
    fingerprint, the first check of the text answers "new", and every
    check of the same text after it, however many, answers
    "duplicate". *)
Theorem repeated_checks_are_duplicates tp text n :
  NoDup (TextProcessor.content_hashes tp) →
  length (TextProcessor.content_hashes tp) < TextProcessor.max_hashes tp →
  TextProcessor.calculate_content_hash text ∉ TextProcessor.content_hashes tp →
  (TextProcessor.is_duplicate tp text).1 = false ∧
  (TextProcessor.is_duplicate
     (TextProcessor.feed (TextProcessor.is_duplicate tp text).2
        (replicate n text)) text).1 = true.
Proof.
  intros Hnd Hlen Hnew.
  destruct (is_duplicate_fresh tp text) as [Hf Hp]; [done|lia|done|].
  split; [done|].
  pose proof (is_duplicate_max_hashes tp text) as Hmax.
  set (tp1 := (TextProcessor.is_duplicate tp text).2) in *.
  assert (∀ tp', TextProcessor.max_hashes tp' = TextProcessor.max_hashes tp →
                 TextProcessor.content_hashes tp'
                   ≡ₚ TextProcessor.content_hashes tp1 →
                 (TextProcessor.is_duplicate
                    (TextProcessor.feed tp' (replicate n text)) text).1
                 = true) as Hrep.
  { induction n as [|n IH]; intros tp' Hm Hq.
    - change (TextProcessor.feed tp' (replicate 0 text)) with tp'.
      apply is_duplicate_known.
      + rewrite Hq, Hp. by apply NoDup_cons.
      + rewrite Hq, Hp, Hm. simpl. lia.
      + rewrite Hq, Hp. left.
    - simpl replicate. rewrite feed_cons.
      destruct (is_duplicate_known tp' text) as [_ Hq'].
      + rewrite Hq, Hp. by apply NoDup_cons.
      + rewrite Hq, Hp, Hm. simpl. lia.
      + rewrite Hq, Hp. left.
      + apply IH; [by rewrite is_duplicate_max_hashes|by rewrite Hq']. }
  by apply Hrep.
Qed.
End LedgerInvariant.

Lemma ledger_stays_within_one_of_capacity_witness :
  let tp := {| TextProcessor.content_hashes := [];
               TextProcessor.max_hashes := 2 |} in
  let tp' := @TextProcessor.feed Demo.hashlib Demo.newest_first tp
               ["a"; "b"; "a"; "c"; "d"; "b"; "e"] in
  TextProcessor.max_hashes tp' = 2 ∧
  NoDup (TextProcessor.content_hashes tp') ∧
  length (TextProcessor.content_hashes tp') ≤ 3.
Proof.
  apply (@ledger_stays_within_one_of_capacity Demo.hashlib Demo.newest_first).
  - simpl. lia.
  - constructor.
  - simpl. lia.
Defined.

Lemma repeated_checks_are_duplicates_witness :
  let tp := {| TextProcessor.content_hashes := ["page one"];
               TextProcessor.max_hashes := 3 |} in
  let is_duplicate :=
    @TextProcessor.is_duplicate Demo.hashlib Demo.newest_first in
  (is_duplicate tp "Page Two").1 = false ∧
  (is_duplicate
     (@TextProcessor.feed Demo.hashlib Demo.newest_first
        (is_duplicate tp "Page Two").2 (replicate 4 "Page Two"))
     "Page Two").1 = true.
Proof.
  apply (@repeated_checks_are_duplicates Demo.hashlib Demo.newest_first).
  - apply (bool_decide_unpack _). vm_compute. exact I.
  - simpl. lia.
  - apply (bool_decide_unpack _). vm_compute. exact I.
Defined.

(** ** The content fingerprint *)

Lemma lower_char_idemp c : Py.lower_char (Py.lower_char c) = Py.lower_char c.
Proof. by destruct c as [[] [] [] [] [] [] [] []]. Qed.

Lemma lower_idemp s : Py.lower (Py.lower s) = Py.lower s.
Proof.
  induction s as [|c s IH]; [done|]. simpl. by rewrite lower_char_idemp, IH.
Qed.

Lemma lower_length s : String.length (Py.lower s) = String.length s.
Proof. induction s as [|c s IH]; [done|]. simpl. by rewrite IH. Qed.

Lemma lower_of_list l :
  Py.lower (string_of_list_ascii l)
  = string_of_list_ascii (Py.lower_char <$> l).
Proof. induction l as [|c l IH]; [done|]. simpl. by rewrite IH. Qed.

Lemma list_of_lower s :
  list_ascii_of_string (Py.lower s) = Py.lower_char <$> list_ascii_of_string s.
Proof. induction s as [|c s IH]; [done|]. simpl. by rewrite IH. Qed.

Lemma slices_go_cons fuel n l :
  l ≠ [] →
  Py.slices_go (S fuel) n l
  = string_of_list_ascii (take n l) :: Py.slices_go fuel n (drop n l).
Proof. by destruct l. Qed.

Lemma slices_go_lower fuel n : ∀ l,
  Py.slices_go fuel n (Py.lower_char <$> l)
  = Py.lower <$> Py.slices_go fuel n l.
Proof.
  induction fuel as [|fuel IH]; intros l; [done|].
  destruct l as [|c l]; [done|].
  rewrite (slices_go_cons fuel n (c :: l)) by done.
  rewrite (slices_go_cons fuel n (Py.lower_char <$> c :: l)) by done.
  rewrite <- fmap_take, <- fmap_drop, IH, fmap_cons.
  by rewrite lower_of_list.
Qed.

Lemma slices_lower n s : Py.slices n (Py.lower s) = Py.lower <$> Py.slices n s.
Proof.
  unfold Py.slices. by rewrite lower_length, list_of_lower, slices_go_lower.
Qed.

Lemma normalize_lower chunk :
  TextProcessor.normalize (Py.lower chunk) = TextProcessor.normalize chunk.
Proof. unfold TextProcessor.normalize. by rewrite lower_idemp. Qed.

Lemma length_list_ascii_of_string s :
  length (list_ascii_of_string s) = String.length s.
Proof. induction s as [|c s IH]; [done|]. simpl. by rewrite IH. Qed.

(** A text that fits in one slice is one slice. *)
Lemma slices_short n s :
  s ≠ EmptyString → String.length s ≤ n → Py.slices n s = [s].
Proof.
  intros Hne Hlen. unfold Py.slices.
  rewrite <- length_list_ascii_of_string in Hlen |- *.
  rewrite <- (string_of_list_ascii_of_string s) at 3.
  destruct (list_ascii_of_string s) as [|c l] eqn:Hl.
  { destruct s; [done|discriminate Hl]. }
  cbn [length Py.slices_go]. rewrite take_ge, drop_ge by done.
  by destruct (length l).
Qed.

Section Fingerprint.
Context `{Hashlib}.

(** X3.  The fingerprint does not see the case of ASCII letters: two
    texts that are equal once lower-cased have the same fingerprint,
    whatever their length. *)
Theorem fingerprint_is_case_insensitive t1 t2 :
  Py.lower t1 = Py.lower t2 →
  TextProcessor.calculate_content_hash t1
  = TextProcessor.calculate_content_hash t2.
Proof.
  intros Heq.
  assert (∀ t, TextProcessor.calculate_content_hash (Py.lower t)
               = TextProcessor.calculate_content_hash t) as Hlower.
  { intros t. unfold TextProcessor.calculate_content_hash.
    rewrite slices_lower, <- list_fmap_compose. do 2 f_equal.
    apply list_fmap_ext. intros i chunk _. apply normalize_lower. }
  by rewrite <- (Hlower t1), <- (Hlower t2), Heq.
Qed.

(** The fingerprint of a text of at most 100000 characters is the
    digest of its lower-cased words joined by single blanks. *)
Lemma fingerprint_of_short_text t :
  String.length t ≤ N.to_nat TextProcessor.chunk_size →
  TextProcessor.calculate_content_hash t
  = md5_hexdigest (Py.join " " (Py.split (Py.lower t))).
Proof.
  intros Hlen. unfold TextProcessor.calculate_content_hash.
  destruct t as [|c t]; [done|].
  by rewrite slices_short.
Qed.

(** X4.  For texts of at most 100000 characters the fingerprint
    depends only on the sequence of lower-cased words: texts that
    differ in case and in the blanks between, before and after the
    words have the same fingerprint. *)
Theorem fingerprint_depends_on_words_only t1 t2 :
  String.length t1 ≤ N.to_nat TextProcessor.chunk_size →
  String.length t2 ≤ N.to_nat TextProcessor.chunk_size →
  Py.split (Py.lower t1) = Py.split (Py.lower t2) →
  TextProcessor.calculate_content_hash t1
  = TextProcessor.calculate_content_hash t2.
Proof.
  intros H1 H2 Hwords.
  by rewrite !fingerprint_of_short_text, Hwords.
Qed.
End Fingerprint.

Lemma fingerprint_is_case_insensitive_witness :
  @TextProcessor.calculate_content_hash Demo.hashlib "Supply CHAIN News"
  = @TextProcessor.calculate_content_hash Demo.hashlib "supply chain news".
Proof.
  apply (@fingerprint_is_case_insensitive Demo.hashlib). reflexivity.
Defined.

Lemma fingerprint_depends_on_words_only_witness :
  @TextProcessor.calculate_content_hash Demo.hashlib "  Hello   World "
  = @TextProcessor.calculate_content_hash Demo.hashlib "hello world".
Proof.
  apply (@fingerprint_depends_on_words_only Demo.hashlib).
  - apply Nat.leb_le. vm_compute. reflexivity.
  - apply Nat.leb_le. vm_compute. reflexivity.
  - vm_compute. reflexivity.
Defined.

(** ** The retrying fetch, continued *)

Lemma slept_snoc l e :
  slept (l ++ [e])
  = (slept l + match e with Sleep z => z | _ => 0 end)%Z.
Proof.
  unfold slept. induction l as [|e' l IH]; simpl.
  - destruct e; lia.
  - rewrite IH. destruct e'; lia.
Qed.

Lemma slept_emit e w :
  slept (log (emit e w))
  = (slept (log w) + match e with Sleep z => z | _ => 0 end)%Z.
Proof. unfold emit. simpl. apply slept_snoc. Qed.

Lemma slept_request url w : slept (log (request url w)) = slept (log w).
Proof. unfold request. simpl. rewrite slept_snoc. lia. Qed.

Section FetchOutcomes.
Context `{Network}.

Lemma base_attempts_first_success self url body k : ∀ n a w,
  k < n →
  (∀ j, j < k → request_exception (http (clock w + j) url) = true) →
  http (clock w + k) url = Success body →
  fetched_at (S k) body url w (BaseCrawler.attempts self url (seq a n) w).
Proof.
  induction k as [|k IH]; intros n a w Hlt Hfail Hok;
    (destruct n as [|n]; [lia|]); cbn [seq BaseCrawler.attempts].
  - set (w2 := if 0 <? a then _ else _).
    assert (clock w2 = clock w ∧
            requests_of url (log w2) = requests_of url (log w)) as [Hc Hn].
    { subst w2. destruct (0 <? a); split; try done;
        by rewrite !requests_of_emit. }
    rewrite Hc. rewrite Nat.add_0_r in Hok. rewrite Hok.
    repeat split; cbn [fst snd].
    + simpl. lia.
    + rewrite requests_of_emit, requests_of_request by done. lia.
  - set (w2 := if 0 <? a then _ else _).
    assert (clock w2 = clock w ∧
            requests_of url (log w2) = requests_of url (log w)) as [Hc Hn].
    { subst w2. destruct (0 <? a); split; try done;
        by rewrite !requests_of_emit. }
    rewrite Hc. pose proof (Hfail 0 ltac:(lia)) as H0.
    rewrite Nat.add_0_r in H0.
    set (w' := emit (AttemptFailed a url) (request url w2)).
    assert (clock w' = S (clock w)) as Hc' by (subst w'; simpl; lia).
    destruct (IH n (S a) w') as (Hr & Hck & Hrq).
    + lia.
    + intros j Hj. rewrite Hc'.
      replace (S (clock w) + j) with (clock w + S j) by lia.
      apply Hfail. lia.
    + rewrite Hc'. by replace (S (clock w) + k) with (clock w + S k) by lia.
    + assert (requests_of url (log w') = S (requests_of url (log w))) as Hw'.
      { subst w'. rewrite requests_of_emit, requests_of_request by done.
        lia. }
      destruct (http (clock w) url); try done;
        (repeat split; [done|lia|rewrite Hrq; lia]).
Qed.

Lemma dynamic_attempts_first_success self wt url html k : ∀ n a w,
  k < n →
  (∀ j, j < k → rendered (clock w + j) url = None) →
  rendered (clock w + k) url = Some html →
  fetched_at (S k) html url w
    (DynamicCrawler.attempts self wt url (seq a n) w).
Proof.
  induction k as [|k IH]; intros n a w Hlt Hfail Hok;
    (destruct n as [|n]; [lia|]); cbn [seq].
  - rewrite Nat.add_0_r in Hok. unfold rendered in Hok.
    cbn [DynamicCrawler.attempts].
    destruct (http (clock w) url); cbn [navigated] in Hok; try done;
      rewrite Hok;
      (repeat split; cbn [fst snd];
       [simpl; lia
       |rewrite !requests_of_emit, requests_of_request by done; lia]).
  - pose proof (Hfail 0 ltac:(lia)) as H0. rewrite Nat.add_0_r in H0.
    destruct (dynamic_attempt_raises self wt url a (seq (S a) n) w H0)
      as (w' & -> & Hc & Hn).
    destruct (IH n (S a) w') as (Hr & Hck & Hrq).
    + lia.
    + intros j Hj. rewrite Hc.
      replace (S (clock w) + j) with (clock w + S j) by lia.
      apply Hfail. lia.
    + rewrite Hc. by replace (S (clock w) + k) with (clock w + S k) by lia.
    + repeat split; [done|lia|rewrite Hrq; lia].
Qed.

(** X5.  When the first [k] attempts to fetch a URL raise and the next
    one gets the page, with [k] below [max_retries], [get_page] returns
    that page after exactly [k + 1] requests.  The direct fetch retries
    after a [RequestException], raised when there is no response or when
    the response has an error status, and returns the body of the first
    response whose status check passes.  The rendered fetch retries
    after any exception and returns the first document it renders,
    whatever the status of the response. *)
Theorem get_page_returns_first_success self wait_time url k w :
  k < BaseCrawler.max_retries self →
  (∀ body,
     (∀ j, j < k → request_exception (http (clock w + j) url) = true) →
     http (clock w + k) url = Success body →
     fetched_at (S k) body url w (BaseCrawler.get_page self url w)) ∧
  (∀ html,
     (∀ j, j < k → rendered (clock w + j) url = None) →
     rendered (clock w + k) url = Some html →
     fetched_at (S k) html url w
       (DynamicCrawler.get_page self wait_time url w)).
Proof.
  intros Hlt. split.
  - intros body Hfail Hok. by apply base_attempts_first_success.
  - intros html Hfail Hok. by apply dynamic_attempts_first_success.
Qed.

(** X6.  The rendered fetch never raises: whatever each attempt ends
    in, [DynamicCrawler.get_page] returns a page or [None]. *)
Theorem dynamic_get_page_never_raises self wait_time url w :
  ∃ page, (DynamicCrawler.get_page self wait_time url w).1 = Return page.
Proof.
  unfold DynamicCrawler.get_page.
  cbn [BaseCrawler._respect_robots_txt negb].
  generalize (seq 0 (BaseCrawler.max_retries self)). intros todo. revert w.
  induction todo as [|attempt todo IH]; intros w; [by eexists|].
  cbn [DynamicCrawler.attempts].
  destruct (http (clock w) url);
    try destruct (page_content (clock w) url);
    first [by eexists|apply IH].
Qed.

(** X7.  The direct fetch retries after a [RequestException] only: an
    exception of another class in an attempt leaves [get_page] at once,
    and the attempts that were left are not made. *)
Theorem base_get_page_propagates_other_errors self url k w :
  k < BaseCrawler.max_retries self →
  (∀ j, j < k → http (clock w + j) url = RequestException) →
  http (clock w + k) url = OtherError →
  let r := BaseCrawler.get_page self url w in
  r.1 = Raise OtherException ∧ clock r.2 = clock w + S k.
Proof.
  assert (∀ k n a w,
            k < n →
            (∀ j, j < k → http (clock w + j) url = RequestException) →
            http (clock w + k) url = OtherError →
            let r := BaseCrawler.attempts self url (seq a n) w in
            r.1 = Raise OtherException ∧ clock r.2 = clock w + S k)
    as Hattempts.
  { clear k w. intros k.
    induction k as [|k IH]; intros n a w Hlt Hfail Hok;
      (destruct n as [|n]; [lia|]); cbn [seq BaseCrawler.attempts].
    - set (w2 := if 0 <? a then _ else _).
      assert (clock w2 = clock w) as Hc by (subst w2; by destruct (0 <? a)).
      rewrite Hc. rewrite Nat.add_0_r in Hok. rewrite Hok.
      split; [done|]. simpl. lia.
    - set (w2 := if 0 <? a then _ else _).
      assert (clock w2 = clock w) as Hc by (subst w2; by destruct (0 <? a)).
      rewrite Hc. pose proof (Hfail 0 ltac:(lia)) as H0.
      rewrite Nat.add_0_r in H0. rewrite H0.
      set (w' := emit (AttemptFailed a url) (request url w2)).
      assert (clock w' = S (clock w)) as Hc' by (subst w'; simpl; lia).
      destruct (IH n (S a) w') as (Hr & Hck).
      + lia.
      + intros j Hj. rewrite Hc'.
        replace (S (clock w) + j) with (clock w + S j) by lia.
        apply Hfail. lia.
      + rewrite Hc'. by replace (S (clock w) + k) with (clock w + S k) by lia.
      + split; [done|lia]. }
  intros Hlt Hfail Hok. by apply Hattempts.
Qed.
End FetchOutcomes.

Lemma get_page_returns_first_success_witness :
  fetched_at 3 "page" "https://ex.com/a" Site.w0
    (@BaseCrawler.get_page Fixtures.flaky Store.three_retries
       "https://ex.com/a" Site.w0) ∧
  fetched_at 3 "<html>page</html>" "https://ex.com/a" Site.w0
    (@DynamicCrawler.get_page Fixtures.flaky Store.three_retries 5
       "https://ex.com/a" Site.w0).
Proof.
  destruct (@get_page_returns_first_success Fixtures.flaky
              Store.three_retries 5 "https://ex.com/a" 2 Site.w0)
    as [Hdirect Hrendered].
  - simpl. lia.
  - split.
    + apply Hdirect; [|reflexivity].
      intros j Hj. simpl. by destruct j as [|[|j]]; [..|lia].
    + apply Hrendered; [|reflexivity].
      intros j Hj. simpl. by destruct j as [|[|j]]; [..|lia].
Defined.

Lemma base_get_page_propagates_other_errors_witness :
  let r := @BaseCrawler.get_page Fixtures.crashing Store.three_retries
             "https://ex.com/a" Site.w0 in
  r.1 = Raise OtherException ∧ clock r.2 = 2.
Proof.
  apply (@base_get_page_propagates_other_errors Fixtures.crashing
           Store.three_retries "https://ex.com/a" 1 Site.w0).
  - simpl. lia.
  - intros j Hj. simpl. by destruct j as [|j]; [|lia].
  - reflexivity.
Defined.

Section Backoff.
Context `{Network}.

Lemma base_attempts_slept self url n : ∀ a w,
  (∀ k, request_exception (http k url) = true) →
  0 < a →
  (2 * (slept (log (BaseCrawler.attempts self url (seq a n) w).2)
        - slept (log w))
   = BaseCrawler.delay self * Z.of_nat n * (2 * Z.of_nat a + Z.of_nat n + 1))%Z.
Proof.
  induction n as [|n IH]; intros a w Hfail Ha.
  - simpl. lia.
  - cbn [seq BaseCrawler.attempts].
    destruct (0 <? a) eqn:Hpos; [|apply Nat.ltb_ge in Hpos; lia].
    set (w2 := emit (Sleep _) _).
    set (w' := emit (AttemptFailed a url) (request url w2)).
    pose proof (IH (S a) w' Hfail ltac:(lia)) as Hind.
    assert (slept (log w')
            = (slept (log w) + BaseCrawler.delay self * (Z.of_nat a + 1))%Z)
      as Hw'.
    { subst w' w2. rewrite slept_emit, slept_request, slept_emit, slept_emit.
      lia. }
    rewrite Hw' in Hind. pose proof (Hfail (clock w2)) as Hk.
    destruct (http (clock w2) url); try done; cbn [snd]; nia.
Qed.

Lemma failed_slept self attempt url w :
  slept (log (DynamicCrawler.failed self attempt url w))
  = (slept (log w)
     + if (S attempt <? BaseCrawler.max_retries self)%nat
       then BaseCrawler.delay self * (Z.of_nat attempt + 1) else 0)%Z.
Proof.
  unfold DynamicCrawler.failed.
  destruct (S attempt <? _); rewrite !slept_emit; lia.
Qed.

Lemma navigations_S url k n :
  navigations url k (S n)
  = (if navigated (http k url) then 1 else 0) + navigations url (S k) n.
Proof.
  unfold navigations. cbn [seq]. rewrite filter_cons.
  destruct (decide _) as [Hy|Hn].
  - by rewrite Hy.
  - by destruct (navigated (http k url)).
Qed.

Lemma dynamic_attempts_slept self wt url n : ∀ a w,
  (∀ k, rendered k url = None) →
  a + n = BaseCrawler.max_retries self →
  (2 * (slept (log (DynamicCrawler.attempts self wt url (seq a n) w).2)
        - slept (log w))
   = BaseCrawler.delay self * Z.of_nat (n - 1)
     * (2 * Z.of_nat a + Z.of_nat n)
     + 2 * wt * Z.of_nat (navigations url (clock w) n))%Z.
Proof.
  induction n as [|n IH]; intros a w Hfail Han.
  - unfold navigations. simpl. lia.
  - cbn [seq].
    assert (∃ w',
              DynamicCrawler.attempts self wt url (a :: seq (S a) n) w
              = DynamicCrawler.attempts self wt url (seq (S a) n) w' ∧
              clock w' = S (clock w) ∧
              slept (log w')
              = (slept (log w)
                 + (if navigated (http (clock w) url) then wt else 0)
                 + if (0 <? n)%nat
                   then BaseCrawler.delay self * (Z.of_nat a + 1)
                   else 0)%Z) as (w' & -> & Hc & Hs).
    { pose proof (Hfail (clock w)) as Hnone. unfold rendered in Hnone.
      assert ((S a <? BaseCrawler.max_retries self) = (0 <? n)) as Hlast.
      { destruct n as [|n].
        - rewrite (proj2 (Nat.ltb_ge _ _)) by lia. done.
        - rewrite (proj2 (Nat.ltb_lt _ _)) by lia. done. }
      cbn [DynamicCrawler.attempts].
      destruct (http (clock w) url); cbn [navigated] in *; rewrite ?Hnone;
        eexists; (split; [reflexivity|]);
        (split; [by rewrite (proj1 (failed_clock _ _ _ _))|]);
        rewrite failed_slept, ?slept_emit, slept_request, Hlast; lia. }
    pose proof (IH (S a) w' Hfail ltac:(lia)) as Hind.
    rewrite Hc, Hs in Hind. rewrite navigations_S.
    destruct (navigated (http (clock w) url));
      destruct n as [|n]; simpl in Hind |- *;
      rewrite ?Nat.sub_0_r in Hind; nia.
Qed.

(** X8.  The seconds slept by a fetch whose [n = max_retries] attempts
    all raise, for the delay [d].  The direct fetch waits [d * (k + 1)]
    before attempt [k >= 1], which sums to [d * (n - 1) * (n + 2) / 2].
    The rendered fetch waits [d * (k + 1)] after the failed attempt [k]
    unless it was the last, which sums to [d * (n - 1) * n / 2], and
    [wait_time] more in every attempt whose navigation returned: what
    failed there came after the wait for the scripts. *)
Theorem backoff_of_a_failed_fetch self wait_time url w :
  0 < BaseCrawler.max_retries self →
  let n := Z.of_nat (BaseCrawler.max_retries self) in
  ((∀ k, request_exception (http k url) = true) →
   (2 * (slept (log (BaseCrawler.get_page self url w).2) - slept (log w))
    = BaseCrawler.delay self * (n - 1) * (n + 2))%Z) ∧
  ((∀ k, rendered k url = None) →
   (2 * (slept (log (DynamicCrawler.get_page self wait_time url w).2)
         - slept (log w))
    = BaseCrawler.delay self * (n - 1) * n
      + 2 * wait_time
        * Z.of_nat (navigations url (clock w)
                      (BaseCrawler.max_retries self)))%Z).
Proof.
  intros Hpos n. split; intros Hfail.
  - unfold BaseCrawler.get_page. cbn [BaseCrawler._respect_robots_txt negb].
    destruct (BaseCrawler.max_retries self) as [|m] eqn:Hm; [lia|].
    cbn [seq BaseCrawler.attempts].
    change (0 <? 0) with false. cbv iota.
    set (w' := emit (AttemptFailed 0 url)
                 (request url (emit RotateUserAgent w))).
    pose proof (base_attempts_slept self url m 1 w' Hfail ltac:(lia)) as Hs.
    assert (slept (log w') = slept (log w)) as Hw'.
    { subst w'. rewrite slept_emit, slept_request, slept_emit. lia. }
    rewrite Hw' in Hs. subst n.
    change (Z.of_nat 1) with 1%Z in Hs. rewrite Nat2Z.inj_succ.
    unfold Z.succ. rewrite Z.add_simpl_r.
    replace (Z.of_nat m + 1 + 2)%Z with (2 * 1 + Z.of_nat m + 1)%Z by lia.
    pose proof (Hfail (clock (emit RotateUserAgent w))) as Hk.
    destruct (http (clock (emit RotateUserAgent w)) url); try done;
      by rewrite <- Hs.
  - unfold DynamicCrawler.get_page.
    cbn [BaseCrawler._respect_robots_txt negb].
    pose proof (dynamic_attempts_slept self wait_time url
                  (BaseCrawler.max_retries self) 0 w Hfail ltac:(lia)) as Hs.
    subst n. rewrite Hs, Nat2Z.inj_sub by lia.
    change (Z.of_nat 0) with 0%Z. change (Z.of_nat 1) with 1%Z. ring.
Qed.
End Backoff.

Lemma backoff_of_a_failed_fetch_witness :
  (2 * (slept (log (@BaseCrawler.get_page Fixtures.unrendered
                      Store.three_retries "https://ex.com/a" Site.w0).2)
        - slept (log Site.w0)) = 1 * (3 - 1) * (3 + 2))%Z ∧
  (2 * (slept (log (@DynamicCrawler.get_page Fixtures.unrendered
                      Store.three_retries 5 "https://ex.com/a" Site.w0).2)
        - slept (log Site.w0)) = 1 * (3 - 1) * 3 + 2 * 5 * 3)%Z.
Proof.
  destruct (@backoff_of_a_failed_fetch Fixtures.unrendered
              Store.three_retries 5 "https://ex.com/a" Site.w0)
    as [Hdirect Hrendered].
  - simpl. lia.
  - split; [apply Hdirect|apply Hrendered]; intros k; reflexivity.
Defined.

(** ** Stored objects, read back *)

Lemma string_of_list_ascii_app l1 l2 :
  string_of_list_ascii (l1 ++ l2)
  = string_of_list_ascii l1 +:+ string_of_list_ascii l2.
Proof.
  induction l1 as [|c l1 IH]; [done|]. simpl.
  by rewrite string_app_cons, IH.
Qed.

Lemma string_app_nil_r s : s +:+ "" = s.
Proof.
  induction s as [|c s IH]; [done|]. by rewrite string_app_cons, IH.
Qed.

Lemma string_concat_cons x l :
  String.concat "" (x :: l) = x +:+ String.concat "" l.
Proof.
  destruct l; [|done]. change (x = x +:+ ""). by rewrite string_app_nil_r.
Qed.

Lemma concat_slices_go n fuel : ∀ l,
  0 < n → length l ≤ fuel →
  String.concat "" (Py.slices_go fuel n l) = string_of_list_ascii l.
Proof.
  induction fuel as [|fuel IH]; intros l Hn Hlen.
  - by destruct l; [|simpl in Hlen; lia].
  - destruct l as [|c l]; [done|].
    rewrite slices_go_cons by done. rewrite string_concat_cons, IH; [|done|].
    + by rewrite <- string_of_list_ascii_app, take_drop.
    + rewrite length_drop. simpl in *. lia.
Qed.

(** The slices of a string, put together again, are the string. *)
Lemma concat_slices n s :
  0 < n → String.concat "" (Py.slices n s) = s.
Proof.
  intros Hn. unfold Py.slices. rewrite concat_slices_go; [|done|].
  - apply string_of_list_ascii_of_string.
  - by rewrite length_list_ascii_of_string.
Qed.

Section ReadBack.
Context `{Hashlib, Gzip, PyRepr, Clock, Frames, S3Service, Decoders}.

Lemma put_then_ret key o s k s' :
  bind (S3Client.put_object key o) (λ _, ret key) s = (Return k, s') →
  k = key ∧ objects s' = <[key := o]> (objects s).
Proof.
  unfold bind. rewrite put_object_run.
  destruct (client_error (calls s)); [done|].
  unfold ret. by intros [= <- <-].
Qed.

(** What each one-shot store leaves at the key it returns. *)
Lemma store_raw_data_returns source data filename s k s' :
  S3Storage.store_raw_data source data filename s = (Return k, s') →
  objects s' !! k
  = Some (S3Storage.json_object (gzip_compress (Json.dumps data))).
Proof.
  intros Hrun. apply put_then_ret in Hrun as [-> ->].
  by rewrite lookup_insert_eq.
Qed.

Lemma store_processed_data_returns source data format filename s k s' :
  S3Storage.store_processed_data source data format filename s
    = (Return k, s') →
  ∃ o, objects s' !! k = Some o ∧
       (format = "json" →
        o = S3Storage.json_object (gzip_compress (Json.dumps data))).
Proof.
  unfold S3Storage.store_processed_data.
  repeat case_bool_decide;
    try destruct (to_parquet data); try destruct (to_csv data);
    intros Hrun; try done;
    apply put_then_ret in Hrun as [-> ->];
    rewrite lookup_insert_eq; eexists; (split; [done|]); try done;
    intros ->; done.
Qed.

Lemma store_text_returns source data filename s k s' :
  S3Storage.store_processed_text_data source data filename s
    = (Return k, s') →
  objects s' !! k
  = Some (S3Storage.json_object (gzip_compress (Json.dumps data))).
Proof.
  intros Hrun. apply put_then_ret in Hrun as [-> ->].
  by rewrite lookup_insert_eq.
Qed.

Lemma check_file_exists_run key s :
  S3Storage.check_file_exists key s
  = if client_error (calls s) then (Raise ClientError, S3Client.tick s)
    else (Return (bool_decide (is_Some (objects s !! key))),
          S3Client.tick s).
Proof.
  unfold S3Storage.check_file_exists, S3Client.head_object, bind,
    S3Client.call.
  by destruct (client_error (calls s)).
Qed.

(** X9.  The key a one-shot store returns holds an object: after
    [store_raw_data], [store_processed_data] (in any of its formats) or
    [store_processed_text_data] has returned a key, [check_file_exists]
    on that key returns [True], unless the service refuses the call. *)
Theorem stored_key_is_found source data format filename s k s' :
  S3Storage.store_raw_data source data filename s = (Return k, s') ∨
  S3Storage.store_processed_data source data format filename s
    = (Return k, s') ∨
  S3Storage.store_processed_text_data source data filename s
    = (Return k, s') →
  S3Storage.check_file_exists k s'
  = if client_error (calls s') then (Raise ClientError, S3Client.tick s')
    else (Return true, S3Client.tick s').
Proof.
  intros Hstored. rewrite check_file_exists_run.
  destruct (client_error (calls s')); [done|].
  assert (is_Some (objects s' !! k)) as Hk.
  { destruct Hstored as [Hrun|[Hrun|Hrun]].
    - apply store_raw_data_returns in Hrun. by rewrite Hrun.
    - apply store_processed_data_returns in Hrun as (o & Ho & _).
      by rewrite Ho.
    - apply store_text_returns in Hrun. by rewrite Hrun. }
  by rewrite bool_decide_eq_true_2.
Qed.

Lemma get_object_run key s :
  S3Client.get_object key s
  = if client_error (calls s) then (Raise ClientError, S3Client.tick s)
    else match objects s !! key with
         | Some o => (Return o, S3Client.tick s)
         | None => (Raise ClientError, S3Client.tick s)
         end.
Proof.
  unfold S3Client.get_object, bind, S3Client.call.
  destruct (client_error (calls s)); [done|]. simpl.
  by destruct (objects s !! key).
Qed.

(** Loading a compressed JSON object. *)
Lemma load_json_object key text s :
  objects s !! key = Some (S3Storage.json_object (gzip_compress text)) →
  client_error (calls s) = false →
  S3Storage.load_data key s
  = S3Storage.decoded (json_loads text) (S3Client.tick s).
Proof.
  intros Hobj Hok. unfold S3Storage.load_data. unfold bind at 1.
  rewrite get_object_run, Hok, Hobj.
  cbn [S3Storage.json_object ContentType ContentEncoding Body default].
  rewrite bool_decide_eq_true_2 by done.
  pose proof (gzip_members [text]) as Hz. simpl in Hz. rewrite Hz.
  unfold bind, ret.
  by change (Py.contains "json" "application/json") with true.
Qed.

(** X10.  What is stored as JSON is what is loaded: after a one-shot
    store of [data] as JSON has returned a key, [load_data] on that key
    decompresses the object and hands [json.loads] exactly the text
    [json.dumps] made of [data]. *)
Theorem load_data_reads_the_stored_text source data filename s k s' :
  S3Storage.store_raw_data source data filename s = (Return k, s') ∨
  S3Storage.store_processed_data source data "json" filename s
    = (Return k, s') ∨
  S3Storage.store_processed_text_data source data filename s
    = (Return k, s') →
  client_error (calls s') = false →
  S3Storage.load_data k s'
  = S3Storage.decoded (json_loads (Json.dumps data)) (S3Client.tick s').
Proof.
  intros Hstored Hok. apply load_json_object; [|done].
  destruct Hstored as [Hrun|[Hrun|Hrun]].
  - by apply store_raw_data_returns in Hrun.
  - apply store_processed_data_returns in Hrun as (o & Ho & Hjson).
    by rewrite Ho, Hjson.
  - by apply store_text_returns in Hrun.
Qed.

(** A key that holds no object: [check_file_exists] returns [False]
    and [load_data] raises [ClientError]. *)
Lemma absent_key key s :
  objects s !! key = None →
  client_error (calls s) = false →
  S3Storage.check_file_exists key s = (Return false, S3Client.tick s) ∧
  S3Storage.load_data key s = (Raise ClientError, S3Client.tick s).
Proof.
  intros Hnone Hok. split.
  - rewrite check_file_exists_run, Hok, Hnone.
    by rewrite bool_decide_eq_false_2 by (by intros [? ?]).
  - unfold S3Storage.load_data. unfold bind at 1.
    by rewrite get_object_run, Hok, Hnone.
Qed.
End ReadBack.

Lemma stored_key_is_found_witness :
  let r := @S3Storage.store_raw_data Store.gzip Site.wall_clock Store.reliable
             "ex" (Store.record "https://ex.com") None Store.empty in
  ∃ k, r.1 = Return k ∧
  @S3Storage.check_file_exists Store.reliable k r.2
  = (Return true, S3Client.tick r.2).
Proof.
  intros r. eexists. split; [reflexivity|].
  apply (@stored_key_is_found Store.gzip Site.wall_clock Store.frames
           Store.reliable "ex" (Store.record "https://ex.com") "json" None
           Store.empty).
  left. reflexivity.
Defined.

Lemma load_data_reads_the_stored_text_witness :
  let r := @S3Storage.store_raw_data Store.gzip Site.wall_clock Store.reliable
             "ex" (Store.record "https://ex.com") None Store.empty in
  ∃ k, r.1 = Return k ∧
  @S3Storage.load_data Store.gzip Store.reliable Fixtures.decoders k r.2
  = (Return (JStr (Json.dumps (Store.record "https://ex.com"))),
     S3Client.tick r.2).
Proof.
  intros r. eexists. split; [reflexivity|].
  apply (@load_data_reads_the_stored_text Store.gzip Site.wall_clock
           Store.frames Store.reliable Fixtures.decoders "ex"
           (Store.record "https://ex.com") None Store.empty).
  - left. reflexivity.
  - reflexivity.
Defined.

(** ** What the streams store *)

Section RawStream.
Context `{Hashlib, Gzip, PyRepr, Clock, Frames, S3Service}.

Lemma upload_slices_returns id key slices : ∀ done parts n s parts' s',
  session_holds id key done s →
  parts = part_entries 1 done →
  n = S (length done) →
  S3Storage.upload_slices key id slices parts n s = (Return parts', s') →
  objects s' = objects s ∧
  session_holds id key (done ++ slices) s' ∧
  parts' = part_entries 1 (done ++ slices).
Proof.
  induction slices as [|slice slices IH];
    intros done parts n s parts' s' Hs -> ->.
  - simpl. intros [= <- <-]. by rewrite app_nil_r.
  - cbn [S3Storage.upload_slices]. unfold bind at 1.
    destruct (S3Client.upload_part _ _ _ _ s) as [[etag|e] s1] eqn:Hup;
      [|done].
    destruct (upload_part_accepted _ _ _ _ _ _ _ Hs Hup) as (-> & Ho & Hs1).
    intros Hrun.
    apply (IH (done ++ [slice])) in Hrun as (Ho' & Hs' & ->).
    + rewrite <- app_assoc in *. simpl in *. split; [congruence|done].
    + done.
    + by rewrite part_entries_snoc.
    + rewrite length_app. simpl. lia.
Qed.

(** The object [stream_raw_data] stores when it returns, on either
    path. *)
Lemma raw_stream_object source records filename s k s' :
  records ≠ [] →
  S3Storage.stream_raw_data source (iter records) filename s
    = (Return k, s') →
  k = S3Storage._generate_key source config.S3_RAW_DATA_PREFIX
        (S3Storage.filename_or filename source ".json.gz") ∧
  objects s'
  = <[k := S3Storage.json_object
             (gzip_compress (Json.dumps (JList records)))]> (objects s).
Proof.
  intros Hne. unfold S3Storage.stream_raw_data.
  set (key := S3Storage._generate_key _ _ _).
  set (body := gzip_compress _).
  cbn [iter chunks ending].
  destruct records as [|r records]; [done|].
  change (length (r :: records) =? 0) with false. cbv iota.
  destruct (_ <? _)%Z.
  - destruct (bind _ _ s) as [[k'|e] s1] eqn:Hput.
    + apply put_then_ret in Hput as [-> Ho]. by intros [= <- <-].
    + destruct e; [by rewrite on_client_error_raises|done].
  - unfold try_bound. rewrite create_multipart_upload_run.
    destruct (client_error (calls s)).
    { by rewrite on_client_error_raises. }
    set (s1 := mk_s3 _ _ _ _). set (id := next_upload_id s).
    assert (session_holds id key [] s1) as Hs1.
    { eexists. subst s1. simpl. rewrite lookup_insert_eq.
      repeat split; try done. }
    unfold bind at 1.
    destruct (S3Storage.upload_slices _ _ _ _ _ s1) as [[parts|e] s2]
      eqn:Hup.
    2:{ destruct e; [by rewrite on_client_error_raises|done]. }
    apply (upload_slices_returns id key _ []) in Hup
      as (Ho2 & Hs2 & ->); [|done..].
    unfold bind at 1. rewrite complete_multipart_upload_run.
    destruct (client_error (calls s2)).
    { by rewrite on_client_error_raises. }
    destruct Hs2 as (u & -> & Hk & Ht & He & Hparts).
    rewrite listed_parts_entries by (intros i b' Hb'; by apply Hparts).
    unfold ret. intros [= <- <-]. split; [done|]. simpl.
    rewrite Hk, Ht, He, Ho2. subst s1. simpl.
    rewrite concat_slices; [done|].
    apply Nat.ltb_lt. vm_compute. reflexivity.
Qed.

(** X11.  [stream_raw_data] given at least one record stores, when it
    returns, the same object a one-shot [store_raw_data] of the list of
    records stores: the compressed JSON array of all the records, at the
    key it returns, whether the bytes went up in one request or, from
    5 MiB on, as the parts of a multipart upload.  [load_data] on that
    key hands [json.loads] the JSON text of the whole list. *)
Theorem raw_stream_stores_the_whole_array `{Decoders}
    source records filename s k s' :
  records ≠ [] →
  S3Storage.stream_raw_data source (iter records) filename s
    = (Return k, s') →
  k = S3Storage._generate_key source config.S3_RAW_DATA_PREFIX
        (S3Storage.filename_or filename source ".json.gz") ∧
  objects s'
  = <[k := S3Storage.json_object
             (gzip_compress (Json.dumps (JList records)))]> (objects s) ∧
  (client_error (calls s') = false →
   S3Storage.load_data k s'
   = S3Storage.decoded (json_loads (Json.dumps (JList records)))
       (S3Client.tick s')).
Proof.
  intros Hne Hrun.
  destruct (raw_stream_object _ _ _ _ _ _ Hne Hrun) as [Hk Hobj].
  split; [exact Hk|]. split; [exact Hobj|].
  intros Hok. apply load_json_object; [|exact Hok].
  rewrite Hobj. apply lookup_insert_eq.
Qed.
End RawStream.

Section Threshold.
Context `{PyRepr}.

Lemma records_size_snoc buffer r :
  records_size (buffer ++ [r]) = (records_size buffer + str_len r)%Z.
Proof.
  unfold records_size. induction buffer as [|x buffer IH]; simpl; lia.
Qed.

Lemma flushed_threshold mbs records : (0 < mbs)%Z → ∀ buffer,
  (records_size buffer < mbs)%Z →
  Forall (λ p, ∃ q r, p = q ++ [r] ∧
               (records_size q < mbs ≤ records_size p)%Z)
    (flushed mbs records buffer (records_size buffer)).1 ∧
  (records_size (flushed mbs records buffer (records_size buffer)).2
   < mbs)%Z.
Proof.
  intros Hpos.
  induction records as [|chunk rest IH]; intros buffer Hlt;
    cbn [flushed]; [done|].
  destruct (_ <=? _)%Z eqn:Hflush.
  - apply Z.leb_le in Hflush.
    specialize (IH [] Hpos). change (records_size []) with 0%Z in IH.
    destruct (flushed mbs rest [] 0) as [ps b]. cbn [fst snd] in *.
    destruct IH as [Hps Hb]. split; [|done].
    constructor; [|done]. exists buffer, chunk.
    rewrite records_size_snoc. split; [done|lia].
  - apply Z.leb_gt in Hflush.
    rewrite <- records_size_snoc in Hflush |- *. by apply IH.
Qed.
End Threshold.

Section TextStream.
Context `{Hashlib, Gzip, PyRepr, Clock, Frames, S3Service}.

(** X12.  What [stream_processed_text_data] stores when it returns,
    for any positive buffer limit: the object at the returned key
    decompresses to one JSON array per uploaded part, one after the
    other; the parts hold the yielded records, each once and in the
    order yielded; no part is empty; and every part but the last was
    flushed by the record that took the buffer to the limit. *)
Theorem text_stream_partitions_the_records
    mbs source records filename s k s' :
  (0 < mbs)%Z →
  S3Storage.stream_with mbs source (iter records) filename s
    = (Return k, s') →
  ∃ o parts,
    objects s' !! k = Some o ∧
    gzip_decompress (Body o) = Some (dumps_parts parts) ∧
    concat parts = records ∧
    Forall (λ p, p ≠ []) parts ∧
    ∀ i p, parts !! i = Some p → S i < length parts →
      ∃ q r, p = q ++ [r] ∧ (records_size q < mbs ≤ records_size p)%Z.
Proof.
  intros Hpos Hrun. apply stream_with_returns in Hrun as [-> Hobj].
  eexists _, (split_parts mbs records).
  rewrite Hobj, lookup_insert_eq. split; [done|].
  cbn [Body S3Storage.json_object]. split; [apply decompress_parts|].
  destruct (split_parts_spec mbs records) as [Hcat Hne].
  split; [done|]. split; [done|].
  intros i p Hp Hi. unfold split_parts in Hp, Hi.
  pose proof (flushed_threshold mbs records Hpos [] Hpos) as Hth.
  change (records_size []) with 0%Z in Hth.
  destruct (flushed mbs records [] 0) as [ps b].
  destruct Hth as [Hps _]. simpl in Hps.
  rewrite Forall_lookup in Hps. apply (Hps i).
  apply lookup_app_Some in Hp as [Hp|[Hlen Hp]]; [done|].
  rewrite length_app in Hi. destruct b as [|r b]; simpl in *.
  - by rewrite lookup_nil in Hp.
  - lia.
Qed.
End TextStream.

Lemma raw_stream_stores_the_whole_array_witness :
  let records := [Store.record "https://ex.com";
                  Store.record "https://ex.com/a"] in
  let r := @S3Storage.stream_raw_data Demo.hashlib Store.gzip Site.wall_clock
             Store.reliable "ex" (iter records) None Store.empty in
  ∃ k, r.1 = Return k ∧
  k = "raw/ex/2026/01/01/ex_20260101000000.json.gz" ∧
  objects r.2
  = <[k := S3Storage.json_object (Json.dumps (JList records))]>
      (objects Store.empty) ∧
  @S3Storage.load_data Store.gzip Store.reliable Fixtures.decoders k r.2
  = (Return (JStr (Json.dumps (JList records))), S3Client.tick r.2).
Proof.
  intros records r. eexists. split; [reflexivity|].
  destruct (@raw_stream_stores_the_whole_array Demo.hashlib Store.gzip
              Site.wall_clock Store.reliable Fixtures.decoders "ex" records
              None Store.empty
              "raw/ex/2026/01/01/ex_20260101000000.json.gz" r.2)
    as (Hk & Hobj & Hload).
  - discriminate.
  - reflexivity.
  - split; [exact Hk|]. split; [exact Hobj|]. apply Hload. reflexivity.
Defined.

Lemma text_stream_partitions_the_records_witness :
  let records := [Store.record "https://ex.com";
                  Store.record "https://ex.com/a";
                  Store.record "https://ex.com/b"] in
  let r := @S3Storage.stream_with Demo.hashlib Store.gzip Store.pyrepr
             Site.wall_clock Store.reliable 40 "ex" (iter records) None
             Store.empty in
  ∃ k o parts,
    r.1 = Return k ∧
    objects r.2 !! k = Some o ∧
    @gzip_decompress Store.gzip (Body o) = Some (dumps_parts parts) ∧
    concat parts = records ∧
    Forall (λ p, p ≠ []) parts ∧
    ∀ i p, parts !! i = Some p → S i < length parts →
      ∃ q r, p = q ++ [r] ∧
        (@records_size Store.pyrepr q < 40 ≤ @records_size Store.pyrepr p)%Z.
Proof.
  intros records r.
  destruct (@text_stream_partitions_the_records Demo.hashlib Store.gzip
              Store.pyrepr Site.wall_clock Store.reliable 40 "ex" records
              None Store.empty
              "text_processed/ex/2026/01/01/ex_20260101000000_text.json.gz"
              r.2) as (o & parts & Hres).
  - reflexivity.
  - vm_compute. reflexivity.
  - by eexists _, o, parts.
Defined.

(** ** The crawl loop, continued *)

Lemma prefix_refl s : String.prefix s s = true.
Proof.
  induction s as [|c s IH]; [done|]. simpl.
  by destruct (ascii_dec c c).
Qed.

Section LoopInvariants.
Context `{Hashlib, PySet, Nlp, Network, Extraction, Clock}.

Local Abbreviation visited f :=
  (StaticCrawler.visited_urls (StaticCrawler.self f)).
Local Abbreviation limit f := (StaticCrawler.page_limit (StaticCrawler.self f)).
Local Abbreviation queue f := (StaticCrawler.to_visit f).
Local Abbreviation log_of f := (log (StaticCrawler.world f)).
Local Abbreviation ledger f :=
  (TextProcessor.content_hashes
     (StaticCrawler.text_processor (StaticCrawler.self f))).
Local Abbreviation site f :=
  (BaseCrawler.base_url (StaticCrawler.base (StaticCrawler.self f))).

(** What [parse] says about the duplicate check it made. *)
Lemma parse_inv self html r tp :
  StaticCrawler.parse self html = (r, tp) →
  let text := extract_text html in
  TextProcessor.is_duplicate (StaticCrawler.text_processor self) text
  = (if r is Some _ then false else true, tp) ∧
  ∀ page, r = Some page →
    StaticCrawler.p_content_hash page
    = TextProcessor.calculate_content_hash text.
Proof.
  unfold StaticCrawler.parse, TextProcessor.process_text.
  destruct (TextProcessor.is_duplicate _ _) as [[] tp'];
    intros [= <- <-]; (split; [done|]); [done|].
  by intros page [= <-].
Qed.

(** The frames a loop turn can lead to, field by field. *)
Lemma turn_frames f f' :
  turn f f' →
  ∃ url rest,
    queue f = url :: rest ∧
    size (visited f) < limit f ∧
    StaticCrawler.base (StaticCrawler.self f')
      = StaticCrawler.base (StaticCrawler.self f) ∧
    limit f' = limit f ∧
    ((StaticCrawler.self f' = StaticCrawler.self f ∧
      queue f' = rest ∧
      StaticCrawler.yielded f' = StaticCrawler.yielded f ∧
      StaticCrawler.crawled_data f' = StaticCrawler.crawled_data f ∧
      StaticCrawler.pages_processed f' = StaticCrawler.pages_processed f)
     ∨
     ((url ∉ visited f) ∧
      visited f' = {[url]} ∪ visited f ∧
      ∃ html r,
        StaticCrawler.parse (StaticCrawler.self f) html
        = (r, StaticCrawler.text_processor (StaticCrawler.self f')) ∧
        match r with
        | None =>
            queue f' = rest ∧
            StaticCrawler.yielded f' = StaticCrawler.yielded f ∧
            StaticCrawler.crawled_data f' = StaticCrawler.crawled_data f ∧
            StaticCrawler.pages_processed f'
            = StaticCrawler.pages_processed f
        | Some page =>
            queue f'
            = StaticCrawler.enqueue_links (visited f') rest
                (StaticCrawler.extract_links (StaticCrawler.self f) html url) ∧
            (∃ td, StaticCrawler.yielded f'
                   = StaticCrawler.yielded f ++ [td] ∧
                   StaticCrawler.td_url td = url ∧
                   StaticCrawler.td_content_hash td
                   = StaticCrawler.p_content_hash page) ∧
            (∃ pd, StaticCrawler.crawled_data f'
                   = StaticCrawler.crawled_data f ++ [pd] ∧
                   StaticCrawler.pd_url pd = url) ∧
            StaticCrawler.pages_processed f'
            = S (StaticCrawler.pages_processed f)
        end)).
Proof.
  unfold turn, StaticCrawler.loop_step.
  destruct (queue f) as [|url rest] eqn:Hq; [done|].
  destruct (size (visited f) <? limit f) eqn:Hlim; [|done].
  apply Nat.ltb_lt in Hlim. cbn [negb].
  case_bool_decide as Hvis.
  { intros [= <-]. exists url, rest. repeat split; try done. by left. }
  destruct (StaticCrawler.get_page _ _ _) as [[html|e] w] eqn:Hget; [|done].
  destruct (StaticCrawler.not_html html) eqn:Hnot.
  { intros [= <-]. exists url, rest. repeat split; try done. by left. }
  destruct html as [html|]; [|done]. cbn [default].
  destruct (StaticCrawler.parse _ _) as [[page|] tp] eqn:Hparse;
    intros [= <-]; exists url, rest; (repeat split; try done); right;
    (split; [done|]); (split; [done|]); exists html; eexists;
    (split; [exact Hparse|]); cbn.
  - split.
    { unfold StaticCrawler.extract_links. f_equal. by apply links_of_base. }
    split; [by eexists|]. split; [by eexists|done].
  - done.
Qed.

Lemma links_of_within self page hrefs : ∀ links,
  Forall (λ u, Py.startswith u
                 (BaseCrawler.base_url (StaticCrawler.base self)) = true)
    links →
  Forall (λ u, Py.startswith u
                 (BaseCrawler.base_url (StaticCrawler.base self)) = true)
    (StaticCrawler.links_of self page hrefs links).
Proof.
  induction hrefs as [|href hrefs IH]; intros links Hin; [done|].
  simpl. destruct (StaticCrawler.skip_href href); [by apply IH|].
  destruct (Py.startswith _ _) eqn:Hsite; [|by apply IH].
  apply IH. apply Forall_app. split; [done|]. by repeat constructor.
Qed.

Lemma enqueue_links_within (P : string → Prop) seen links : ∀ q,
  Forall P q → Forall P links →
  Forall P (StaticCrawler.enqueue_links seen q links).
Proof.
  unfold StaticCrawler.enqueue_links.
  induction links as [|link links IH]; intros q Hq Hl; [done|].
  apply Forall_cons in Hl as [Hlink Hl]. simpl. apply IH; [|done].
  unfold StaticCrawler.offer. destruct (_ && _); [|done].
  apply Forall_app. split; [done|]. by repeat constructor.
Qed.

Lemma enqueue_links_fresh seen links : ∀ q,
  NoDup q → (∀ u, u ∈ q → u ∉ seen) →
  NoDup (StaticCrawler.enqueue_links seen q links) ∧
  ∀ u, u ∈ StaticCrawler.enqueue_links seen q links → u ∉ seen.
Proof.
  unfold StaticCrawler.enqueue_links.
  induction links as [|link links IH]; intros q Hnd Hq; [done|].
  simpl. apply IH; unfold StaticCrawler.offer.
  - destruct (bool_decide (link ∉ seen)) eqn:Hs; [|done].
    destruct (bool_decide (link ∉ q)) eqn:Hl; [|done]. simpl.
    apply bool_decide_eq_true in Hl.
    apply NoDup_app. split; [done|]. split; [|apply NoDup_singleton].
    intros u Hu Hin. apply list_elem_of_singleton in Hin as ->. done.
  - intros u. destruct (bool_decide (link ∉ seen)) eqn:Hs; [|by apply Hq].
    destruct (bool_decide (link ∉ q)) eqn:Hl; [|by apply Hq]. simpl.
    apply bool_decide_eq_true in Hs.
    intros [Hu|Hu]%elem_of_app; [by apply Hq|].
    by apply list_elem_of_singleton in Hu as ->.
Qed.

(** X13.  The crawl stays on its site: in every frame the loop reaches
    from the start of [_crawl], every queued URL and the URL of every
    record yielded start with the crawler's base URL, and a URL that
    does not start with it has not been fetched. *)
Theorem crawl_stays_on_the_site self w f :
  rtc turn (StaticCrawler.start self w) f →
  let on_site u :=
    Py.startswith u (BaseCrawler.base_url (StaticCrawler.base self)) = true in
  Forall on_site (queue f) ∧
  Forall on_site (StaticCrawler.td_url <$> StaticCrawler.yielded f) ∧
  ∀ u, ¬ on_site u → fetches_of u (log_of f) = fetches_of u (log w).
Proof.
  intros Hrtc on_site.
  assert (∀ f0 f1, rtc turn f0 f1 →
            StaticCrawler.base (StaticCrawler.self f0)
              = StaticCrawler.base self →
            Forall on_site (queue f0) →
            Forall on_site (StaticCrawler.td_url <$> StaticCrawler.yielded f0) →
            StaticCrawler.base (StaticCrawler.self f1)
              = StaticCrawler.base self ∧
            Forall on_site (queue f1) ∧
            Forall on_site (StaticCrawler.td_url <$> StaticCrawler.yielded f1) ∧
            ∀ u, ¬ on_site u →
                 fetches_of u (log_of f1) = fetches_of u (log_of f0)) as Hinv.
  { clear. intros f0 f1 Hrtc.
    induction Hrtc as [f0|f0 f1 f2 Hstep _ IH]; intros Hb Hq Hy; [done|].
    destruct (turn_inv f0 f1 Hstep)
      as (url0 & rest0 & Hq0 & _ & _ & _ & _ & Hkind).
    destruct (turn_frames f0 f1 Hstep)
      as (url & rest & Hq1 & _ & Hbase & _ & Hcases).
    rewrite Hq0 in Hq1. injection Hq1 as <- <-.
    rewrite Hq0 in Hq. apply Forall_cons in Hq as [Hurl Hrest].
    assert (Forall on_site (queue f1) ∧
            Forall on_site (StaticCrawler.td_url <$> StaticCrawler.yielded f1))
      as [Hq1 Hy1].
    { destruct Hcases as [(_ & -> & -> & _)|(_ & _ & html & r & _ & Hr)];
        [done|].
      destruct r as [page|].
      - destruct Hr as (-> & (td & -> & Htd & _) & _). split.
        + apply enqueue_links_within; [done|].
          unfold StaticCrawler.extract_links. subst on_site. cbv beta.
          rewrite <- Hb. by apply links_of_within.
        + rewrite fmap_app. apply Forall_app. split; [done|].
          simpl. rewrite Htd. by repeat constructor.
      - by destruct Hr as (-> & -> & _). }
    destruct IH as (Hb2 & Hq2 & Hy2 & Hlog); [congruence|done..|].
    repeat split; try done.
    intros u Hu. rewrite Hlog by done.
    rewrite (turn_kind_fetches _ _ _ u Hkind).
    rewrite bool_decide_eq_false_2; [lia|]. intros [-> _]. by apply Hu. }
  destruct (Hinv _ _ Hrtc) as (_ & Hq & Hy & Hlog); try done.
  subst on_site. repeat constructor. apply prefix_refl.
Qed.

(** X14.  In a crawl that starts with its base URL not yet visited, the
    queue never holds a URL twice and never holds a visited URL; so the
    URL taken from the queue is never found in the visited set. *)
Theorem queue_holds_new_urls_once self w f :
  BaseCrawler.base_url (StaticCrawler.base self)
    ∉ StaticCrawler.visited_urls self →
  rtc turn (StaticCrawler.start self w) f →
  NoDup (queue f) ∧ ∀ u, u ∈ queue f → u ∉ visited f.
Proof.
  intros Hnew Hrtc.
  assert (∀ f0 f1, rtc turn f0 f1 →
            NoDup (queue f0) → (∀ u, u ∈ queue f0 → u ∉ visited f0) →
            NoDup (queue f1) ∧ ∀ u, u ∈ queue f1 → u ∉ visited f1) as Hinv.
  { clear. intros f0 f1 Hrtc.
    induction Hrtc as [f0|f0 f1 f2 Hstep _ IH]; intros Hnd Hq; [done|].
    destruct (turn_frames f0 f1 Hstep)
      as (url & rest & Hq0 & _ & _ & _ & Hcases).
    rewrite Hq0 in Hnd, Hq. apply NoDup_cons in Hnd as [Hurl Hrest].
    apply IH.
    - destruct Hcases as [(_ & -> & _)|(_ & Hv & html & r & _ & Hr)];
        [done|].
      destruct r as [page|]; [|by destruct Hr as (-> & _)].
      destruct Hr as (-> & _). apply enqueue_links_fresh; [done|].
      intros u Hu. rewrite Hv, not_elem_of_union, not_elem_of_singleton.
      split; [by intros ->|]. apply Hq. by right.
    - destruct Hcases as [(-> & -> & _)|(_ & Hv & html & r & _ & Hr)].
      { intros u Hu. apply Hq. by right. }
      assert (∀ u, u ∈ rest → u ∉ visited f1) as Hrest'.
      { intros u Hu. rewrite Hv, not_elem_of_union, not_elem_of_singleton.
        split; [by intros ->|]. apply Hq. by right. }
      destruct r as [page|]; [|by destruct Hr as (-> & _)].
      destruct Hr as (-> & _). by apply enqueue_links_fresh. }
  apply (Hinv _ _ Hrtc); simpl.
  - apply NoDup_singleton.
  - intros u Hu. by apply list_elem_of_singleton in Hu as ->.
Qed.

(** What the loop keeps of its records, from any frame on. *)
Lemma loop_keeps_the_records f0 f1 :
  rtc turn f0 f1 →
  size (visited f0) ≤ limit f0 →
  StaticCrawler.pages_processed f0 = length (StaticCrawler.yielded f0) →
  StaticCrawler.pd_url <$> StaticCrawler.crawled_data f0
    = StaticCrawler.td_url <$> StaticCrawler.yielded f0 →
  NoDup (StaticCrawler.td_url <$> StaticCrawler.yielded f0) →
  (∀ u, u ∈ StaticCrawler.td_url <$> StaticCrawler.yielded f0 →
        u ∈ visited f0) →
  length (StaticCrawler.td_url <$> StaticCrawler.yielded f0)
    ≤ size (visited f0) →
  limit f1 = limit f0 ∧
  StaticCrawler.pages_processed f1 = length (StaticCrawler.yielded f1) ∧
  StaticCrawler.pd_url <$> StaticCrawler.crawled_data f1
    = StaticCrawler.td_url <$> StaticCrawler.yielded f1 ∧
  NoDup (StaticCrawler.td_url <$> StaticCrawler.yielded f1) ∧
  (∀ u, u ∈ StaticCrawler.td_url <$> StaticCrawler.yielded f1 →
        u ∈ visited f1) ∧
  length (StaticCrawler.td_url <$> StaticCrawler.yielded f1)
    ≤ size (visited f1) ∧
  size (visited f1) ≤ limit f1.
Proof.
  intros Hrtc.
  induction Hrtc as [f0|f0 f1 f2 Hstep _ IH];
    intros Hlim Hpp Hcd Hnd Hvis Hlen; [done|].
  destruct (turn_within_limit f0 f1 Hstep Hlim) as [Hl Hlim1].
  destruct (turn_frames f0 f1 Hstep)
    as (url & rest & Hq0 & _ & _ & _ & Hcases).
  rewrite <- Hl. apply IH; [done|..].
  - destruct Hcases as [(_ & _ & -> & _ & ->)|(_ & _ & html & r & _ & Hr)];
      [done|].
    destruct r as [page|]; [|by destruct Hr as (_ & -> & _ & ->)].
    destruct Hr as (_ & (td & -> & _) & _ & ->).
    rewrite length_app. simpl. lia.
  - destruct Hcases as [(_ & _ & -> & -> & _)|(_ & _ & html & r & _ & Hr)];
      [done|].
    destruct r as [page|]; [|by destruct Hr as (_ & -> & -> & _)].
    destruct Hr as (_ & (td & -> & Htd & _) & (pd & -> & Hpd) & _).
    rewrite !fmap_app, Hcd. simpl. by rewrite Htd, Hpd.
  - destruct Hcases as [(_ & _ & -> & _)|(Hnew & _ & html & r & _ & Hr)];
      [done|].
    destruct r as [page|]; [|by destruct Hr as (_ & -> & _)].
    destruct Hr as (_ & (td & -> & Htd & _) & _).
    rewrite fmap_app. simpl. rewrite Htd.
    apply NoDup_app. split; [done|]. split; [|apply NoDup_singleton].
    intros u Hu Hin. apply list_elem_of_singleton in Hin as ->.
    by apply Hnew, Hvis.
  - destruct Hcases as [(-> & _ & -> & _)|(_ & Hv & html & r & _ & Hr)];
      [done|].
    intros u. rewrite Hv.
    destruct r as [page|].
    + destruct Hr as (_ & (td & -> & Htd & _) & _).
      rewrite fmap_app. simpl. rewrite Htd.
      intros [Hu|Hu]%elem_of_app.
      * apply elem_of_union_r. by apply Hvis.
      * apply list_elem_of_singleton in Hu as ->.
        apply elem_of_union_l. by apply elem_of_singleton.
    + destruct Hr as (_ & -> & _). intros Hu.
      apply elem_of_union_r. by apply Hvis.
  - destruct Hcases as [(-> & _ & -> & _)|(Hnew & Hv & html & r & _ & Hr)];
      [done|].
    rewrite Hv, size_add_new by done.
    destruct r as [page|].
    + destruct Hr as (_ & (td & -> & _) & _).
      rewrite fmap_app, length_app. simpl. lia.
    + destruct Hr as (_ & -> & _). lia.
Qed.

(** X15.  The records of a crawl: in every frame the loop reaches
    from the start of [_crawl], [pages_processed] is the number of
    records yielded, the pages collected for the caller carry the URLs
    of these records in the same order, no URL is yielded twice, every
    yielded URL is visited, and, the crawler starting within its page
    limit, at most [page_limit] records are yielded. *)
Theorem yielded_records_are_counted self w f :
  size (StaticCrawler.visited_urls self) ≤ StaticCrawler.page_limit self →
  rtc turn (StaticCrawler.start self w) f →
  StaticCrawler.pages_processed f = length (StaticCrawler.yielded f) ∧
  StaticCrawler.pd_url <$> StaticCrawler.crawled_data f
    = StaticCrawler.td_url <$> StaticCrawler.yielded f ∧
  NoDup (StaticCrawler.td_url <$> StaticCrawler.yielded f) ∧
  (∀ u, u ∈ StaticCrawler.td_url <$> StaticCrawler.yielded f →
        u ∈ visited f) ∧
  length (StaticCrawler.yielded f) ≤ StaticCrawler.page_limit self.
Proof.
  intros Hle Hrtc.
  destruct (loop_keeps_the_records _ _ Hrtc)
    as (Hl & Hpp & Hcd & Hnd & Hvis & Hlen & Hlim).
  - exact Hle.
  - reflexivity.
  - reflexivity.
  - apply NoDup_nil_2.
  - intros u Hu. by apply elem_of_nil in Hu.
  - simpl. lia.
  - rewrite length_fmap in Hlen. simpl in Hl.
    repeat split; try done. lia.
Qed.
End LoopInvariants.

Section Fingerprints.
Context `{Hashlib, PySet, Nlp, Network, Extraction, Clock}.

Local Abbreviation visited f :=
  (StaticCrawler.visited_urls (StaticCrawler.self f)).
Local Abbreviation limit f := (StaticCrawler.page_limit (StaticCrawler.self f)).
Local Abbreviation processor f :=
  (StaticCrawler.text_processor (StaticCrawler.self f)).
Local Abbreviation ledger f := (TextProcessor.content_hashes (processor f)).

(** A generator that is exhausted in a frame has reached it by loop
    turns. *)
Lemma exhausted_reached fuel : ∀ f f',
  StaticCrawler.text_data_generator fuel f
    = Some (StaticCrawler.Exhausted f') →
  rtc turn f f'.
Proof.
  induction fuel as [|fuel IH]; intros f f'; [done|]. simpl.
  destruct (StaticCrawler.loop_step f) as [f1| |e f1] eqn:Hstep.
  - intros Hrun. eapply rtc_l; [exact Hstep|by apply IH].
  - by intros [= <-].
  - done.
Qed.

(** X16.  A crawl whose page limit does not exceed the capacity of the
    duplicate ledger yields no two records with the same content
    fingerprint: started with a ledger free of repetitions that holds
    no more fingerprints than there are visited URLs (an empty one,
    say), every fingerprint yielded is in the ledger and none is
    yielded twice. *)
Theorem yielded_fingerprints_are_distinct self w f :
  StaticCrawler.page_limit self
    ≤ TextProcessor.max_hashes (StaticCrawler.text_processor self) →
  NoDup (TextProcessor.content_hashes (StaticCrawler.text_processor self)) →
  length (TextProcessor.content_hashes (StaticCrawler.text_processor self))
    ≤ size (StaticCrawler.visited_urls self) →
  rtc turn (StaticCrawler.start self w) f →
  NoDup (StaticCrawler.td_content_hash <$> StaticCrawler.yielded f) ∧
  ∀ h, h ∈ StaticCrawler.td_content_hash <$> StaticCrawler.yielded f →
       h ∈ ledger f.
Proof.
  intros Hcap Hnd Hlen Hrtc.
  set (hashes f := StaticCrawler.td_content_hash <$> StaticCrawler.yielded f).
  assert (∀ f0 f1, rtc turn f0 f1 →
            limit f0 ≤ TextProcessor.max_hashes (processor f0) →
            NoDup (ledger f0) →
            length (ledger f0) ≤ size (visited f0) →
            NoDup (hashes f0) →
            (∀ h, h ∈ hashes f0 → h ∈ ledger f0) →
            NoDup (hashes f1) ∧ ∀ h, h ∈ hashes f1 → h ∈ ledger f1) as Hinv.
  { clear. intros f0 f1 Hrtc.
    induction Hrtc as [f0|f0 f1 f2 Hstep _ IH];
      intros Hcap Hnd Hlen Hy Hin; [done|].
    destruct (turn_frames f0 f1 Hstep)
      as (url & rest & _ & Hlim & _ & Hl & Hcases).
    destruct Hcases as [(Hself & _ & Hyield & _)
                       |(Hnew & Hv & html & r & Hparse & Hr)].
    { apply IH; subst hashes; cbv beta in *; rewrite ?Hself, ?Hyield;
        try done. }
    apply parse_inv in Hparse as [Hdup Hhash]. cbv zeta in Hdup.
    set (text := extract_text html) in *.
    pose proof (is_duplicate_max_hashes (processor f0) text) as Hmax.
    rewrite Hdup in Hmax. cbn [snd] in Hmax.
    assert (length (ledger f0) ≤ TextProcessor.max_hashes (processor f0))
      as Hroom by lia.
    destruct (decide (TextProcessor.calculate_content_hash text
                      ∈ ledger f0)) as [Hold|Hfresh].
    - destruct (is_duplicate_known _ text Hnd Hroom Hold) as [Hd Hp].
      rewrite Hdup in Hd, Hp. cbn [fst snd] in Hd, Hp.
      destruct r as [page|]; [done|].
      destruct Hr as (_ & Hyield & _).
      apply IH; subst hashes; cbv beta in *; rewrite ?Hyield, ?Hp, ?Hmax, ?Hl;
        try done.
      + rewrite Hv, size_add_new by done. lia.
      + intros h Hh. rewrite Hp. by apply Hin.
    - destruct (is_duplicate_fresh _ text Hnd Hroom Hfresh) as [Hd Hp].
      rewrite Hdup in Hd, Hp. cbn [fst snd] in Hd, Hp.
      destruct r as [page|]; [|done].
      destruct Hr as (_ & (td & Hyield & _ & Htd) & _).
      rewrite (Hhash page eq_refl) in Htd.
      apply IH; subst hashes; cbv beta in *;
        rewrite ?Hyield, ?Hp, ?Hmax, ?Hl; try done.
      + by apply NoDup_cons.
      + rewrite Hv, size_add_new by done. simpl. lia.
      + rewrite fmap_app. simpl. rewrite Htd.
        apply NoDup_app. split; [done|]. split; [|apply NoDup_singleton].
        intros h Hh Hh'. apply list_elem_of_singleton in Hh' as ->.
        by apply Hfresh, Hin.
      + intros h. rewrite fmap_app, Hp. simpl. rewrite Htd.
        intros [Hh|Hh]%elem_of_app.
        * right. by apply Hin.
        * apply list_elem_of_singleton in Hh as ->. left. }
  apply (Hinv _ _ Hrtc); try done.
  - apply NoDup_nil_2.
  - intros h Hh. by apply elem_of_nil in Hh.
Qed.
End Fingerprints.

Lemma crawl_stays_on_the_site_witness :
  let f := Fixtures.end_of_run in
  let on_site u := Py.startswith u "https://ex.com" = true in
  Forall on_site (StaticCrawler.to_visit f) ∧
  Forall on_site (StaticCrawler.td_url <$> StaticCrawler.yielded f) ∧
  ∀ u, ¬ on_site u →
       fetches_of u (log (StaticCrawler.world f)) = fetches_of u (log Site.w0).
Proof.
  apply (@crawl_stays_on_the_site Demo.hashlib Demo.newest_last Demo.nlp
           Site.network Site.extraction Site.wall_clock Site.crawler Site.w0
           Fixtures.end_of_run).
  apply (exhausted_reached 10). vm_compute. reflexivity.
Defined.

Lemma queue_holds_new_urls_once_witness :
  let f := Fixtures.end_of_run in
  NoDup (StaticCrawler.to_visit f) ∧
  ∀ u, u ∈ StaticCrawler.to_visit f →
       u ∉ StaticCrawler.visited_urls (StaticCrawler.self f).
Proof.
  apply (@queue_holds_new_urls_once Demo.hashlib Demo.newest_last Demo.nlp
           Site.network Site.extraction Site.wall_clock Site.crawler Site.w0
           Fixtures.end_of_run).
  - apply (bool_decide_unpack _). vm_compute. exact I.
  - apply (exhausted_reached 10). vm_compute. reflexivity.
Defined.

Lemma yielded_records_are_counted_witness :
  let f := Fixtures.end_of_run in
  StaticCrawler.pages_processed f = length (StaticCrawler.yielded f) ∧
  StaticCrawler.pd_url <$> StaticCrawler.crawled_data f
    = StaticCrawler.td_url <$> StaticCrawler.yielded f ∧
  NoDup (StaticCrawler.td_url <$> StaticCrawler.yielded f) ∧
  (∀ u, u ∈ StaticCrawler.td_url <$> StaticCrawler.yielded f →
        u ∈ StaticCrawler.visited_urls (StaticCrawler.self f)) ∧
  length (StaticCrawler.yielded f) ≤ 10.
Proof.
  apply (@yielded_records_are_counted Demo.hashlib Demo.newest_last Demo.nlp
           Site.network Site.extraction Site.wall_clock Site.crawler Site.w0
           Fixtures.end_of_run).
  - vm_compute. lia.
  - apply (exhausted_reached 10). vm_compute. reflexivity.
Defined.

Lemma yielded_fingerprints_are_distinct_witness :
  let f := Fixtures.end_of_run in
  NoDup (StaticCrawler.td_content_hash <$> StaticCrawler.yielded f) ∧
  ∀ h, h ∈ StaticCrawler.td_content_hash <$> StaticCrawler.yielded f →
       h ∈ TextProcessor.content_hashes
             (StaticCrawler.text_processor (StaticCrawler.self f)).
Proof.
  apply (@yielded_fingerprints_are_distinct Demo.hashlib Demo.newest_last
           Demo.nlp Site.network Site.extraction Site.wall_clock Site.crawler
           Site.w0 Fixtures.end_of_run).
  - apply Nat.leb_le. vm_compute. reflexivity.
  - apply NoDup_nil_2.
  - simpl. lia.
  - apply (exhausted_reached 10). vm_compute. reflexivity.
Defined.

(** ** Keywords and entities *)

Lemma count_of_snoc w words x :
  count_of w (words ++ [x])
  = count_of w words + (if decide (x = w) then 1 else 0).
Proof.
  unfold count_of. rewrite filter_app, length_app. f_equal.
  rewrite filter_cons, filter_nil. by destruct (decide (x = w)).
Qed.

Lemma count_of_pos w words : w ∈ words ↔ 0 < count_of w words.
Proof.
  unfold count_of. split.
  - intros Hin.
    assert (w ∈ filter (λ x, x = w) words) as Hf
      by (by apply list_elem_of_filter).
    destruct (filter _ words); [by apply elem_of_nil in Hf|simpl; lia].
  - intros Hpos. destruct (filter _ words) as [|x l] eqn:Hf;
      [simpl in Hpos; lia|].
    assert (x ∈ filter (λ x, x = w) words) as Hx by (rewrite Hf; left).
    by apply list_elem_of_filter in Hx as [-> ?].
Qed.

Lemma count_of_filter (P : string → Prop) `{∀ x, Decision (P x)} w words :
  P w → count_of w (filter P words) = count_of w words.
Proof.
  intros Hw. unfold count_of. induction words as [|x words IH]; [done|].
  rewrite !filter_cons. destruct (decide (P x)) as [Hx|Hx].
  - rewrite filter_cons. destruct (decide (x = w)); simpl; by rewrite IH.
  - destruct (decide (x = w)) as [->|]; [done|]. by rewrite IH.
Qed.

Lemma in_take {A} (x : A) n l : x ∈ take n l → x ∈ l.
Proof.
  intros (i & Hi & _)%elem_of_take. by eapply list_elem_of_lookup_2.
Qed.

Section DictFacts.

Lemma count_up_keys k d :
  (NlpMethods.count_up k d).*1
  = if bool_decide (k ∈ d.*1) then d.*1 else d.*1 ++ [k].
Proof.
  induction d as [|[k' n] d IH]; [done|]. cbn [NlpMethods.count_up].
  destruct (decide (k' = k)) as [->|Hne]; rewrite !fmap_cons; cbn [fst].
  - by rewrite bool_decide_eq_true_2 by left.
  - rewrite IH. case_bool_decide as Hin.
    + by rewrite bool_decide_eq_true_2 by (by right).
    + rewrite bool_decide_eq_false_2; [done|].
      intros [?|?]%elem_of_cons; [by apply Hne|done].
Qed.

Lemma count_up_map k d :
  (list_to_map (NlpMethods.count_up k d) : gmap string nat)
  = <[k := S (default 0 ((list_to_map d : gmap string nat) !! k))]>
      (list_to_map d).
Proof.
  induction d as [|[k' n] d IH]; [done|]. cbn [NlpMethods.count_up].
  destruct (decide (k' = k)) as [->|Hne]; rewrite !list_to_map_cons.
  - by rewrite lookup_insert_eq, insert_insert_eq.
  - rewrite IH, lookup_insert_ne by done. by apply insert_insert_ne.
Qed.



Lemma keys_grow {A} `{EqDecision A} (keys : list A) (k : A) :
  NoDup keys →
  NoDup (if bool_decide (k ∈ keys) then keys else keys ++ [k]).
Proof.
  intros Hnd. case_bool_decide as Hin; [done|].
  apply NoDup_app. split; [done|]. split; [|apply NoDup_singleton].
  intros x Hx Hx'. by apply list_elem_of_singleton in Hx' as ->.
Qed.
End DictFacts.

Section Sorting.

Local Abbreviation by_count :=
  (λ x y : string * nat, y.2 ≤ x.2).

Lemma insert_by_count_perm x l : NlpMethods.insert_by_count x l ≡ₚ x :: l.
Proof.
  induction l as [|y l IH]; [done|]. simpl.
  destruct (x.2 <? y.2); [|done]. rewrite IH. apply Permutation_swap.
Qed.

Lemma insert_by_count_sorted x l :
  StronglySorted by_count l →
  StronglySorted by_count (NlpMethods.insert_by_count x l).
Proof.
  induction 1 as [|y l Hl IH Hy]; simpl.
  - by repeat constructor.
  - destruct (x.2 <? y.2) eqn:Hlt.
    + apply Nat.ltb_lt in Hlt. constructor; [done|].
      rewrite insert_by_count_perm. constructor; [simpl; lia|done].
    + apply Nat.ltb_ge in Hlt. constructor; [by constructor|].
      constructor; [done|].
      eapply Forall_impl; [exact Hy|]. simpl. intros z Hz. lia.
Qed.

Lemma sorted_by_count_perm l : NlpMethods.sorted_by_count l ≡ₚ l.
Proof.
  unfold NlpMethods.sorted_by_count.
  induction l as [|x l IH]; [done|]. simpl.
  by rewrite insert_by_count_perm, IH.
Qed.

Lemma sorted_by_count_sorted l :
  StronglySorted by_count (NlpMethods.sorted_by_count l).
Proof.
  unfold NlpMethods.sorted_by_count.
  induction l as [|x l IH]; [constructor|]. simpl.
  by apply insert_by_count_sorted.
Qed.
End Sorting.

Lemma foldl_count_long words : ∀ d,
  foldl (λ d word, if 3 <? String.length word
                   then NlpMethods.count_up word d else d) d words
  = foldl (λ d word, NlpMethods.count_up word d) d
      (filter (λ w, 3 < String.length w) words).
Proof.
  induction words as [|w words IH]; intros d; [done|]. simpl.
  rewrite filter_cons. destruct (decide (3 < String.length w)) as [Hl|Hl].
  - rewrite (proj2 (Nat.ltb_lt _ _) Hl). simpl. apply IH.
  - rewrite (proj2 (Nat.ltb_ge _ _)) by lia. apply IH.
Qed.

(** The counts [word_freq] holds once the words are gone through. *)
Lemma word_freq_counts words :
  let d := foldl (λ d word, NlpMethods.count_up word d) [] words in
  NoDup d.*1 ∧
  ∀ w, (list_to_map d : gmap string nat) !! w
       = if count_of w words =? 0 then None else Some (count_of w words).
Proof.
  induction words as [|x words IH] using rev_ind.
  { split; [apply NoDup_nil_2|done]. }
  cbv zeta in *. rewrite foldl_app. cbn [foldl]. destruct IH as [Hnd Hmap].
  set (d := foldl _ [] words) in *. split.
  - rewrite count_up_keys. by apply keys_grow.
  - intros w. rewrite count_up_map, count_of_snoc.
    destruct (decide (x = w)) as [->|Hne].
    + rewrite lookup_insert_eq, Hmap.
      destruct (count_of w words) as [|n] eqn:Hc; simpl; f_equal; lia.
    + rewrite lookup_insert_ne, Hmap by done. by rewrite Nat.add_0_r.
Qed.

(** The sorted items of [word_freq]: one for each lower-cased word
    longer than three characters, with its frequency, the more frequent
    first. *)
Lemma sorted_word_freq text :
  let words := Py.split (Py.lower text) in
  let sorted :=
    NlpMethods.sorted_by_count
      (foldl (λ d word, if 3 <? String.length word
                        then NlpMethods.count_up word d else d) [] words) in
  NoDup sorted.*1 ∧
  StronglySorted (λ x y : string * nat, y.2 ≤ x.2) sorted ∧
  ∀ k n, (k, n) ∈ sorted ↔
         n = count_of k words ∧ k ∈ words ∧ 3 < String.length k.
Proof.
  intros words sorted. subst sorted. rewrite foldl_count_long.
  set (long := filter (λ w, 3 < String.length w) words).
  destruct (word_freq_counts long) as [Hnd Hmap]. cbv zeta in Hnd, Hmap.
  set (d := foldl _ [] long) in *.
  pose proof (sorted_by_count_perm d) as Hperm.
  split; [by rewrite Hperm|]. split; [apply sorted_by_count_sorted|].
  intros k n. rewrite Hperm.
  rewrite (elem_of_list_to_map (M := gmap string)) by done.
  rewrite Hmap. split.
  - destruct (count_of k long =? 0) eqn:Hz; [done|].
    apply Nat.eqb_neq in Hz. intros [= <-].
    assert (k ∈ long) as Hk by (apply count_of_pos; lia).
    apply list_elem_of_filter in Hk as [Hlong Hk].
    split; [|done]. by apply count_of_filter.
  - intros (-> & Hk & Hlong).
    assert (count_of k long = count_of k words) as ->
      by (by apply (count_of_filter (λ w, 3 < String.length w))).
    apply count_of_pos in Hk.
    by rewrite (proj2 (Nat.eqb_neq _ 0)) by lia.
Qed.

(** X17.  The keywords of the fallback branch of [extract_keywords],
    for an ASCII text: at most [top_n] distinct lower-cased words of the
    text, each longer than three characters, in the order of
    non-increasing frequency; and a word longer than three characters
    that is left out is no more frequent than any keyword returned,
    [top_n] of which are then returned. *)
Theorem basic_keywords_are_the_most_frequent text top_n :
  Py.isascii text = true →
  let words := Py.split (Py.lower text) in
  let keywords := NlpMethods.basic_keywords text top_n in
  NoDup keywords ∧ length keywords ≤ top_n ∧
  (∀ k, k ∈ keywords → k ∈ words ∧ 3 < String.length k) ∧
  (∀ i j k1 k2, i < j → keywords !! i = Some k1 → keywords !! j = Some k2 →
     count_of k2 words ≤ count_of k1 words) ∧
  (∀ w, w ∈ words → 3 < String.length w →
     w ∈ keywords ∨
     (length keywords = top_n ∧
      ∀ k, k ∈ keywords → count_of w words ≤ count_of k words)).
Proof.
  intros _ words keywords. subst keywords. unfold NlpMethods.basic_keywords.
  fold words.
  destruct (sorted_word_freq text) as (Hnd & Hsorted & Hentry).
  cbv zeta in Hnd, Hsorted, Hentry. fold words in Hnd, Hsorted, Hentry.
  set (sorted := NlpMethods.sorted_by_count _) in *.
  rewrite <- (take_drop top_n sorted) in Hsorted, Hnd.
  split; [|split; [|split; [|split]]].
  - rewrite fmap_app in Hnd. by apply NoDup_app in Hnd as [? _].
  - rewrite length_fmap, length_take. lia.
  - intros k Hk. apply list_elem_of_fmap in Hk as ([k' n] & -> & Hin).
    apply in_take in Hin. by apply Hentry in Hin as (_ & ? & ?).
  - intros i j k1 k2 Hij H1 H2.
    apply list_lookup_fmap_Some in H1 as ([k1' n1] & -> & H1).
    apply list_lookup_fmap_Some in H2 as ([k2' n2] & -> & H2).
    simpl.
    apply StronglySorted_app_1_l in Hsorted.
    rewrite <- (take_drop j (take top_n sorted)) in Hsorted.
    assert ((k1', n1) ∈ take j (take top_n sorted)) as Hin1.
    { apply list_elem_of_lookup. exists i. by rewrite lookup_take_lt. }
    assert ((k2', n2) ∈ drop j (take top_n sorted)) as Hin2.
    { apply list_elem_of_lookup. exists 0. rewrite lookup_drop.
      by rewrite Nat.add_0_r. }
    pose proof (StronglySorted_app_1_elem_of _ _ _ _ _ Hsorted Hin1 Hin2)
      as Hle. simpl in Hle.
    apply list_elem_of_lookup_2, in_take in H1.
    apply list_elem_of_lookup_2, in_take in H2.
    apply Hentry in H1 as [<- _]. by apply Hentry in H2 as [<- _].
  - intros w Hw Hlong.
    assert ((w, count_of w words) ∈ sorted) as Hin by (by apply Hentry).
    rewrite <- (take_drop top_n sorted) in Hin.
    apply elem_of_app in Hin as [Hin|Hin].
    + left. apply list_elem_of_fmap. by exists (w, count_of w words).
    + right. split.
      * rewrite length_fmap, length_take.
        destruct (decide (top_n ≤ length sorted)); [lia|].
        rewrite drop_ge in Hin by lia. by apply elem_of_nil in Hin.
      * intros k Hk. apply list_elem_of_fmap in Hk as ([k' n] & -> & Hk).
        pose proof (StronglySorted_app_1_elem_of _ _ _ _ _ Hsorted Hk Hin)
          as Hle. simpl in Hle.
        apply in_take, Hentry in Hk as [-> _]. done.
Qed.

Lemma basic_keywords_are_the_most_frequent_witness :
  let text := "Ship early, SHIP often; ship the parcel to port - parcel" in
  NlpMethods.basic_keywords text 2 = ["ship"; "parcel"] ∧
  count_of "port" (Py.split (Py.lower text))
  ≤ count_of "parcel" (Py.split (Py.lower text)).
Proof.
  intros text. split; [reflexivity|].
  destruct (basic_keywords_are_the_most_frequent text 2 eq_refl)
    as (_ & _ & _ & _ & Hleft).
  destruct (Hleft "port") as [Hin|[_ Hle]].
  - vm_compute. by repeat constructor.
  - vm_compute. lia.
  - vm_compute in Hin. by repeat (apply elem_of_cons in Hin as [Hin|Hin]);
      [..|apply elem_of_nil in Hin].
  - apply Hle. vm_compute. by repeat constructor.
Defined.



Section Methods.
Context `{Models}.




End Methods.

(** ** The factory and the main script *)

Section Factory.

Local Abbreviation name_of :=
  (λ c : config.website, default "" (config.cfg_name c)).

Lemma create_crawler_name c now :
  BaseCrawler.name (StaticCrawler.base (CrawlerFactory.create_crawler c now))
  = name_of c.
Proof.
  unfold CrawlerFactory.create_crawler.
  by destruct (default false (config.cfg_dynamic c)).
Qed.

Lemma create_from_spec now websites : ∀ i crawlers,
  let r := CrawlerFactory.create_from now i websites crawlers in
  (∀ name, name ∉ name_of <$> websites → r !! name = crawlers !! name) ∧
  (∀ j c, websites !! j = Some c →
     (∀ j' c', j < j' → websites !! j' = Some c' → name_of c' ≠ name_of c) →
     r !! name_of c = Some (CrawlerFactory.create_crawler c (now (i + j)))).
Proof.
  induction websites as [|c0 websites IH]; intros i crawlers; [done|].
  cbn [CrawlerFactory.create_from].
  destruct (IH (S i) (<[name_of c0 :=
                        CrawlerFactory.create_crawler c0 (now i)]> crawlers))
    as [Hout Hin].
  split.
  - intros name Hname. rewrite fmap_cons, not_elem_of_cons in Hname.
    destruct Hname as [Hne Hname].
    rewrite Hout by done. by rewrite lookup_insert_ne.
  - intros [|j] c Hj Hlast.
    + injection Hj as ->. rewrite Hout.
      * by rewrite lookup_insert_eq, Nat.add_0_r.
      * intros (c' & Hn & Hc')%list_elem_of_fmap.
        apply list_elem_of_lookup in Hc' as [j' Hj'].
        by apply (Hlast (S j') c'); [lia|..].
    + replace (i + S j) with (S i + j) by lia. apply Hin; [done|].
      intros j' c' Hlt Hj'. apply (Hlast (S j') c'); [lia|done].
Qed.

(** X20.  [create_all_crawlers] returns a crawler for every configured
    name (the empty name for a configuration without one) and for no
    other; each crawler carries the name it is stored under; and when
    several configurations have the same name, the crawler kept is the
    one made from the last of them. *)
Theorem create_all_crawlers_keeps_the_last WEBSITES now :
  let crawlers := CrawlerFactory.create_all_crawlers WEBSITES now in
  (∀ name, is_Some (crawlers !! name) ↔ name ∈ name_of <$> WEBSITES) ∧
  (∀ name crawler, crawlers !! name = Some crawler →
     BaseCrawler.name (StaticCrawler.base crawler) = name) ∧
  (∀ i c, WEBSITES !! i = Some c →
     (∀ j c', i < j → WEBSITES !! j = Some c' → name_of c' ≠ name_of c) →
     crawlers !! name_of c = Some (CrawlerFactory.create_crawler c (now i))).
Proof.
  intros crawlers. subst crawlers. unfold CrawlerFactory.create_all_crawlers.
  destruct (create_from_spec now WEBSITES 0 ∅) as [Hout Hin].
  cbv zeta in Hout, Hin.
  assert (∀ name, name ∈ name_of <$> WEBSITES →
            ∃ i c, WEBSITES !! i = Some c ∧ name_of c = name ∧
                   ∀ j c', i < j → WEBSITES !! j = Some c' →
                           name_of c' ≠ name_of c) as Hlast.
  { clear. induction WEBSITES as [|c0 ws IH]; intros name Hname.
    { by apply elem_of_nil in Hname. }
    destruct (decide (name ∈ name_of <$> ws)) as [Hin|Hnin].
    - destruct (IH name Hin) as (i & c & Hi & Hc & Hl).
      exists (S i), c. split; [done|]. split; [done|].
      intros [|j] c' Hlt Hj; [lia|]. apply (Hl j c'); [lia|done].
    - rewrite fmap_cons in Hname.
      apply elem_of_cons in Hname as [->|?]; [|done].
      exists 0, c0. split; [done|]. split; [done|].
      intros [|j] c' Hlt Hj; [lia|]. simpl in Hj.
      intros Heq. apply Hnin. rewrite <- Heq.
      apply list_elem_of_fmap. exists c'. split; [done|].
      by eapply list_elem_of_lookup_2. }
  split; [|split].
  - intros name. split.
    + intros Hsome. destruct (decide (name ∈ name_of <$> WEBSITES));
        [done|].
      rewrite Hout in Hsome by done. by destruct Hsome.
    + intros (i & c & Hi & <- & Hl)%Hlast. by rewrite (Hin i c Hi Hl).
  - intros name crawler Hlook.
    destruct (decide (name ∈ name_of <$> WEBSITES)) as [Hname|Hname].
    + apply Hlast in Hname as (i & c & Hi & <- & Hl).
      rewrite (Hin i c Hi Hl) in Hlook. injection Hlook as <-.
      apply create_crawler_name.
    + by rewrite Hout in Hlook.
  - intros i c Hi Hl. by rewrite (Hin i c Hi Hl).
Qed.
End Factory.

Section MainFacts.
Context {W : Type} `{SiteRuns W}.

Lemma dict_set_keys {V} k (v : V) d :
  (Main.dict_set k v d).*1
  = if bool_decide (k ∈ d.*1) then d.*1 else d.*1 ++ [k].
Proof.
  induction d as [|[k' v'] d IH]; [done|]. cbn [Main.dict_set].
  destruct (decide (k' = k)) as [->|Hne]; rewrite !fmap_cons; cbn [fst].
  - by rewrite bool_decide_eq_true_2 by left.
  - rewrite IH. case_bool_decide as Hin.
    + by rewrite bool_decide_eq_true_2 by (by right).
    + rewrite bool_decide_eq_false_2; [done|].
      intros [?|?]%elem_of_cons; [by apply Hne|done].
Qed.

Lemma dict_set_get {V} k (v : V) d k' :
  Main.dict_get k' (Main.dict_set k v d)
  = if decide (k = k') then Some v else Main.dict_get k' d.
Proof.
  induction d as [|[k0 v0] d IH]; simpl.
  - destruct (decide (k = k')); [done|done].
  - destruct (decide (k0 = k)) as [->|Hne]; simpl.
    + destruct (decide (k = k')); [done|done].
    + destruct (decide (k0 = k')) as [->|Hne'].
      * by destruct (decide (k = k')) as [->|].
      * apply IH.
Qed.

Lemma dict_get_keys {V} k (d : list (option string * V)) :
  is_Some (Main.dict_get k d) ↔ k ∈ d.*1.
Proof.
  induction d as [|[k0 v0] d IH]; simpl.
  - split; [by intros [? ?]|by intros ?%elem_of_nil].
  - rewrite elem_of_cons. destruct (decide (k0 = k)) as [->|Hne].
    + split; [by left|by eexists].
    + rewrite IH. split; [by right|]. by intros [->|?].
Qed.

(** Whether [crawl_websites] finds nothing to crawl for a name. *)
Local Abbreviation unconfigured :=
  (λ WEBSITES name,
     match Main.find_config WEBSITES name with
     | Some c => Main.empty_config c = true
     | None => True
     end).

(** What the loop of [crawl_websites] keeps, from any results on. *)
Lemma visits_spec WEBSITES names : ∀ r w,
  let r' := (foldl (Main.visit WEBSITES) (r, w) names).1 in
  Main.successful_crawls r' + Main.failed_crawls r'
    = Main.successful_crawls r + Main.failed_crawls r + length names ∧
  Main.total_pages r' = Main.total_pages r ∧
  Main.start_time r' = Main.start_time r ∧
  Main.end_time r' = Main.end_time r ∧
  (NoDup (Main.websites r).*1 → NoDup (Main.websites r').*1) ∧
  (∀ name, name ∈ (Main.websites r').*1
           ↔ name ∈ (Main.websites r).*1 ∨ name ∈ names) ∧
  ((∀ name entry, Main.dict_get name (Main.websites r) = Some entry →
      (entry = Main.NotConfigured ↔ unconfigured WEBSITES name)) →
   ∀ name entry, Main.dict_get name (Main.websites r') = Some entry →
      (entry = Main.NotConfigured ↔ unconfigured WEBSITES name)).
Proof.
  induction names as [|name names IH]; intros r w.
  { cbn [foldl fst length]. split; [lia|]. do 4 (split; [done|]).
    split; [|done]. intros name. split; [by left|].
    intros [?|Hin]; [done|]. by apply elem_of_nil in Hin. }
  cbn [foldl].
  assert (∃ entry w1,
            Main.visit WEBSITES (r, w) name
              = (Main.record_result r name entry, w1) ∧
            (entry = Main.NotConfigured ↔ unconfigured WEBSITES name))
    as (entry & w1 & -> & Hentry).
  { unfold Main.visit.
    destruct (Main.find_config WEBSITES name) as [c|]; [|by eexists _, _].
    destruct (Main.empty_config c) eqn:Hc; [by eexists _, _|].
    destruct (crawl_and_stream c name w) as [[key|e] w1];
      eexists _, _; (split; [done|]); by split. }
  destruct (IH (Main.record_result r name entry) w1)
    as (Hcount & Hpages & Hstart & Hend & Hnd & Hkeys & Hclass).
  cbv zeta in *.
  set (r' := (foldl _ _ names).1) in *.
  split; [|split; [exact Hpages|split; [exact Hstart|split;
            [exact Hend|split; [|split]]]]].
  - rewrite Hcount. simpl. destruct entry; simpl; lia.
  - intros Hr. apply Hnd. simpl. rewrite dict_set_keys. by apply keys_grow.
  - intros name'. rewrite Hkeys. simpl. rewrite dict_set_keys, elem_of_cons.
    case_bool_decide as Hin.
    + split; [intros [?|?]; [by left|by right; right]|].
      intros [?|[->|?]]; [by left|by left|by right].
    + rewrite elem_of_app, list_elem_of_singleton.
      split; [intros [[?| ->]|?]; [by left|by right; left|by right; right]|].
      intros [?|[->|?]]; [by left; left|by left; right|by right].
  - intros Hr. apply Hclass. intros name' entry'. simpl.
    rewrite dict_set_get. destruct (decide (name = name')) as [<-|Hne].
    + by intros [= <-].
    + apply Hr.
Qed.

(** X21.  [crawl_websites] raises only when creating the storage
    client does; otherwise it returns results however the sites fare,
    in which every name to crawl has one entry, the successful and the
    failed crawls add up to the number of names (a name given twice
    counted twice), and [total_pages] is 0, no step ever adding to
    it. *)
Theorem crawl_websites_accounts_for_every_name WEBSITES website_names w :
  let names := Main.names_to_crawl WEBSITES website_names in
  match storage_init w with
  | (Raise e, w1) =>
      Main.crawl_websites WEBSITES website_names w = (Raise e, w1)
  | (Return _, _) =>
      ∃ r w', Main.crawl_websites WEBSITES website_names w = (Return r, w') ∧
        Main.successful_crawls r + Main.failed_crawls r = length names ∧
        Main.total_pages r = 0 ∧
        NoDup (Main.websites r).*1 ∧
        ∀ name, is_Some (Main.dict_get name (Main.websites r))
                ↔ name ∈ names
  end.
Proof.
  intros names. unfold Main.crawl_websites. fold names.
  destruct (storage_init w) as [[[]|e] w1]; [|done].
  set (r0 := Main.mk_results _ _ _ _ _ _).
  destruct (visits_spec WEBSITES names r0 w1)
    as (Hcount & Hpages & _ & _ & Hnd & Hkeys & _).
  cbv zeta in *.
  destruct (foldl (Main.visit WEBSITES) (r0, w1) names) as [r w2].
  eexists _, _. split; [done|]. simpl in *.
  split; [lia|]. split; [done|]. split; [apply Hnd, NoDup_nil_2|].
  intros name. rewrite dict_get_keys, Hkeys. split; [|by right].
  by intros [?%elem_of_nil|?].
Qed.

Lemma find_config_first WEBSITES : ∀ i c,
  WEBSITES !! i = Some c →
  (∀ j c', j < i → WEBSITES !! j = Some c' →
           config.cfg_name c' ≠ config.cfg_name c) →
  Main.find_config WEBSITES (config.cfg_name c) = Some c.
Proof.
  induction WEBSITES as [|c0 ws IH]; intros i c Hi Hfirst; [done|].
  simpl. destruct i as [|i].
  - injection Hi as ->. by rewrite decide_True.
  - rewrite decide_False by (by apply (Hfirst 0 c0); [lia|]).
    apply (IH i); [done|]. intros j c' Hlt Hj.
    apply (Hfirst (S j) c'); [lia|done].
Qed.

(** X22.  In the results of [crawl_websites] a name is reported as
    not configured exactly when no configuration has this name (or the
    one found is empty), and such a name is never crawled; a name that
    several configurations have is crawled with the first of them. *)
Theorem unconfigured_names_are_reported WEBSITES website_names w r w' :
  Main.crawl_websites WEBSITES website_names w = (Return r, w') →
  (∀ name entry, Main.dict_get name (Main.websites r) = Some entry →
     (entry = Main.NotConfigured ↔ unconfigured WEBSITES name)) ∧
  (∀ name acc, unconfigured WEBSITES name →
     (Main.visit WEBSITES acc name).2 = acc.2) ∧
  (∀ i c, WEBSITES !! i = Some c → Main.empty_config c = false →
     (∀ j c', j < i → WEBSITES !! j = Some c' →
              config.cfg_name c' ≠ config.cfg_name c) →
     ∀ r0 w0,
       (Main.visit WEBSITES (r0, w0) (config.cfg_name c)).2
       = (crawl_and_stream c (config.cfg_name c) w0).2).
Proof.
  unfold Main.crawl_websites.
  destruct (storage_init w) as [[[]|e] w1]; [|done].
  set (r0 := Main.mk_results _ _ _ _ _ _).
  set (names := Main.names_to_crawl _ _).
  destruct (visits_spec WEBSITES names r0 w1)
    as (_ & _ & _ & _ & _ & _ & Hclass).
  cbv zeta in Hclass.
  destruct (foldl (Main.visit WEBSITES) (r0, w1) names) as [r1 w2].
  intros [= <- <-]. split; [|split].
  - apply Hclass. by intros name entry.
  - intros name [r2 w3] Hun. unfold Main.visit.
    destruct (Main.find_config WEBSITES name) as [c|]; [|done].
    by rewrite Hun.
  - intros i c Hi Hc Hfirst r2 w3. unfold Main.visit.
    rewrite (find_config_first WEBSITES i c Hi Hfirst), Hc.
    by destruct (crawl_and_stream c (config.cfg_name c) w3) as [[key|e] w4].
Qed.
End MainFacts.

Lemma crawl_websites_run_example :
  ∃ r, @Main.crawl_websites nat Fixtures.site_runs config.WEBSITES
         (Some ["wikipedia"; "nowhere"; "wikipedia"]) 0 = (Return r, 2) ∧
       Main.successful_crawls r = 2 ∧ Main.failed_crawls r = 1 ∧
       Main.total_pages r = 0 ∧
       Main.websites r
       = [(Some "wikipedia", Main.Succeeded "raw/wikipedia/pages.json.gz");
          (Some "nowhere", Main.NotConfigured)].
Proof. eexists. vm_compute. repeat split; reflexivity. Qed.

Lemma unconfigured_names_are_reported_witness :
  ∃ r w',
    @Main.crawl_websites nat Fixtures.site_runs config.WEBSITES
      (Some ["wikipedia"; "nowhere"]) 0 = (Return r, w') ∧
    ∀ name entry, Main.dict_get name (Main.websites r) = Some entry →
      (entry = Main.NotConfigured ↔
       match Main.find_config config.WEBSITES name with
       | Some c => Main.empty_config c = true
       | None => True
       end).
Proof.
  eexists _, _. split; [reflexivity|].
  refine (proj1 (@unconfigured_names_are_reported nat Fixtures.site_runs
                   config.WEBSITES (Some ["wikipedia"; "nowhere"]) 0 _ _ _)).
  reflexivity.
Defined.

(** ** The news client *)

Section Dedup.

Lemma unique_by_url_spec all : ∀ unique,
  NoDup unique.*1 →
  (∀ u a, (u, a) ∈ unique → u = art_url a ∧ u ≠ "") →
  let r := NewsApiClient.unique_by_url all unique in
  NoDup r.*1 ∧
  (∀ u a, (u, a) ∈ r → u = art_url a ∧ u ≠ "") ∧
  (∃ new, r = unique ++ new ∧ new.*2 `sublist_of` all ∧
          ∀ a, a ∈ new.*2 →
               (art_url a ∉ unique.*1) ∧
               ∃ i, all !! i = Some a ∧
                    ∀ j b, j < i → all !! j = Some b →
                           art_url b ≠ art_url a) ∧
  (∀ a, a ∈ all → art_url a ≠ "" → art_url a ∈ r.*1).
Proof.
  induction all as [|a all IH]; intros unique Hnd Hkeys.
  { simpl. split; [done|]. split; [done|]. split; [|by intros ? ?%elem_of_nil].
    exists []. rewrite app_nil_r. split; [done|]. split; [done|].
    by intros ? ?%elem_of_nil. }
  cbn [NewsApiClient.unique_by_url].
  destruct (negb (Py.falsy (art_url a))
            && bool_decide (art_url a ∉ unique.*1)) eqn:Hadd.
  - apply andb_true_iff in Hadd as [Hurl Hnew].
    apply bool_decide_eq_true in Hnew.
    assert (art_url a ≠ "") as Hne by (by destruct (art_url a)).
    destruct (IH (unique ++ [(art_url a, a)]))
      as (Hnd' & Hkeys' & Hnew' & Hall').
    { rewrite fmap_app. apply NoDup_app. split; [done|].
      split; [|apply NoDup_singleton].
      intros u Hu Hu'. by apply list_elem_of_singleton in Hu' as ->. }
    { intros u b [Hin|Hin]%elem_of_app; [by apply Hkeys|].
      by apply list_elem_of_singleton in Hin as [= -> ->]. }
    cbv zeta in *. split; [done|]. split; [done|]. split.
    + destruct Hnew' as (new & -> & Hsub & Hfirst).
      exists ((art_url a, a) :: new). split; [by rewrite <- app_assoc|].
      split; [by apply sublist_skip|].
      intros b [->|Hb]%elem_of_cons.
      * split; [done|]. exists 0. split; [done|]. intros j b' Hj. lia.
      * destruct (Hfirst b Hb) as (Hnin & i & Hi & Hbefore).
        rewrite fmap_app, not_elem_of_app in Hnin.
        destruct Hnin as [Hnin Hna]. split; [done|].
        exists (S i). split; [done|].
        intros [|j] b' Hj Hb'.
        -- injection Hb' as <-. intros Heq. apply Hna. rewrite Heq. left.
        -- apply (Hbefore j); [lia|done].
    + intros b [->|Hb]%elem_of_cons Hbne; [|by apply Hall'].
      destruct Hnew' as (new & -> & _).
      rewrite !fmap_app. apply elem_of_app. left. apply elem_of_app. right.
      left.
  - destruct (IH unique Hnd Hkeys) as (Hnd' & Hkeys' & Hnew' & Hall').
    cbv zeta in *. split; [done|]. split; [done|]. split.
    + destruct Hnew' as (new & Hr & Hsub & Hfirst). rewrite Hr in *.
      assert (∀ b, b ∈ new.*2 → art_url b ≠ "") as Hnonempty.
      { intros b ([u b0] & -> & Hin)%list_elem_of_fmap. simpl.
        destruct (Hkeys' u b0) as [<- ?]; [|done].
        apply elem_of_app. by right. }
      exists new. split; [done|]. split; [by apply sublist_cons|].
      intros b Hb. destruct (Hfirst b Hb) as (Hnin & i & Hi & Hbefore).
      split; [done|]. exists (S i). split; [done|].
      intros [|j] b' Hj Hb'.
      * injection Hb' as <-. intros Heq.
        apply andb_false_iff in Hadd as [Hempty|Hold].
        -- apply negb_false_iff in Hempty. apply (Hnonempty b Hb).
           rewrite <- Heq. by destruct (art_url a).
        -- apply bool_decide_eq_false in Hold. apply Hold. intros Hin.
           apply Hnin. by rewrite <- Heq.
      * apply (Hbefore j); [lia|done].
    + intros b [->|Hb]%elem_of_cons Hbne; [|by apply Hall'].
      apply andb_false_iff in Hadd as [Hempty|Hold].
      * apply negb_false_iff in Hempty. by destruct (art_url a).
      * apply bool_decide_eq_false in Hold.
        destruct Hnew' as (new & -> & _). rewrite fmap_app.
        apply elem_of_app. left.
        destruct (decide (art_url a ∈ unique.*1)); [done|]. by destruct Hold.
Qed.
End Dedup.

Section News.
Context `{NewsSources}.

Lemma fetch_feeds_run feeds : ∀ acc,
  NewsApiClient.fetch_feeds feeds acc
  = (acc.1 ++ ((λ feed, "rss:" +:+ feed)
               <$> filter (λ feed, is_Some (feed_articles feed)) feeds),
     acc.2 ++ concat ((λ feed, default [] (feed_articles feed)) <$> feeds)).
Proof.
  induction feeds as [|feed feeds IH]; intros [srcs arts].
  { simpl. by rewrite !app_nil_r. }
  cbn [NewsApiClient.fetch_feeds]. rewrite filter_cons.
  destruct (feed_articles feed) as [l|] eqn:Hfeed.
  - rewrite decide_True by (by eexists). rewrite IH.
    cbn [fst snd]. rewrite !fmap_cons, concat_cons, Hfeed. cbn [default].
    by rewrite <- !app_assoc.
  - rewrite decide_False by (by intros [? ?]). rewrite IH.
    cbn [fst snd]. by rewrite !fmap_cons, concat_cons, Hfeed.
Qed.

(** The articles gathered for a client with the key [api_key]:
    NewsAPI's, then those of the feeds that parsed. *)
Local Abbreviation gathered_for :=
  (λ api_key : string,
     (if Py.falsy api_key then []
      else if newsapi_everything is Articles l then l else [])
     ++ concat ((λ feed, default [] (feed_articles feed))
                  <$> NewsApiClient.logistics_rss_feeds)).

Lemma logistics_news_run api_key data :
  NewsApiClient.fetch_logistics_news api_key = Return data →
  NewsApiClient.sources data
  = (if Py.falsy api_key then [] else ["newsapi"])
    ++ ((λ feed, "rss:" +:+ feed)
          <$> filter (λ feed, is_Some (feed_articles feed))
                NewsApiClient.logistics_rss_feeds) ∧
  NewsApiClient.articles data
  = (NewsApiClient.unique_by_url (gathered_for api_key) []).*2 ∧
  NewsApiClient.total_articles data = length (NewsApiClient.articles data).
Proof.
  unfold NewsApiClient.fetch_logistics_news. intros Hrun.
  assert (∃ srcs arts,
            (if Py.falsy api_key then Return ([], [])
             else match newsapi_everything with
                  | Articles l => Return (["newsapi"], l)
                  | NewsRequestException => Return (["newsapi"], [])
                  | NewsOtherError => Raise OtherException
                  end) = Return (srcs, arts) ∧
            srcs = (if Py.falsy api_key then [] else ["newsapi"]) ∧
            arts = (if Py.falsy api_key then []
                    else if newsapi_everything is Articles l then l else []))
    as (srcs & arts & Hapi & -> & ->).
  { destruct (Py.falsy api_key); [by eexists _, _|].
    destruct newsapi_everything; [by eexists _, _..|done]. }
  rewrite Hapi, fetch_feeds_run in Hrun. cbn [fst snd] in Hrun.
  by injection Hrun as <-.
Qed.

(** X23.  What [fetch_logistics_news] returns.  Of the articles
    gathered, NewsAPI's first and then those of the feeds that parsed,
    it keeps for each non-empty URL the first article with that URL, in
    the order gathered, and drops every article without a URL;
    [total_articles] is their number.  "newsapi" is listed as a source
    whenever a key is set, also when its request failed, and a feed is
    listed only when it parsed. *)
Theorem logistics_news_keeps_first_article_per_url api_key data :
  NewsApiClient.fetch_logistics_news api_key = Return data →
  let gathered := gathered_for api_key in
  NewsApiClient.total_articles data = length (NewsApiClient.articles data) ∧
  NoDup (art_url <$> NewsApiClient.articles data) ∧
  NewsApiClient.articles data `sublist_of` gathered ∧
  (∀ a, a ∈ NewsApiClient.articles data →
     art_url a ≠ "" ∧
     ∃ i, gathered !! i = Some a ∧
          ∀ j b, j < i → gathered !! j = Some b → art_url b ≠ art_url a) ∧
  (∀ a, a ∈ gathered → art_url a ≠ "" →
     art_url a ∈ art_url <$> NewsApiClient.articles data) ∧
  NewsApiClient.sources data
  = (if Py.falsy api_key then [] else ["newsapi"])
    ++ ((λ feed, "rss:" +:+ feed)
          <$> filter (λ feed, is_Some (feed_articles feed))
                NewsApiClient.logistics_rss_feeds).
Proof.
  intros Hrun gathered.
  destruct (logistics_news_run _ _ Hrun) as (Hsrc & Harts & Htotal).
  fold gathered in Harts. rewrite Harts in *. clear Harts.
  destruct (unique_by_url_spec gathered []) as (Hnd & Hkeys & Hnew & Hall).
  { apply NoDup_nil_2. }
  { by intros u a ?%elem_of_nil. }
  cbv zeta in *. destruct Hnew as (new & Hr & Hsub & Hfirst).
  rewrite app_nil_l in Hr. rewrite Hr in *.
  assert (new.*1 = art_url <$> new.*2) as Hurls.
  { clear -Hkeys. induction new as [|[u a] new IH]; [done|].
    rewrite !fmap_cons. cbn [fst snd]. f_equal.
    - apply (Hkeys u a). left.
    - apply IH. intros u' a' Hin. apply Hkeys. by right. }
  rewrite <- Hurls.
  split; [done|]. split; [done|]. split; [done|]. split; [|by split].
  intros a Ha. destruct (Hfirst a Ha) as (_ & Hi). split; [|done].
  apply list_elem_of_fmap in Ha as ([u a0] & -> & Hin).
  simpl. by destruct (Hkeys u a0 Hin) as [-> ?].
Qed.
End News.

Section FetchNews.
Context `{NewsSources, Hashlib, Gzip, PyRepr, Clock, Frames, S3Service}.

Lemma init_keeps_objects s r s0 :
  S3Storage.init s = (r, s0) → objects s0 = objects s.
Proof.
  unfold S3Storage.init, bind, S3Client.call.
  destruct (client_error (calls s)); [by intros [= _ <-]|]. simpl.
  destruct (client_error (S (calls s))); by intros [= _ <-].
Qed.

Lemma store_raw_data_raises source data filename s e s' :
  S3Storage.store_raw_data source data filename s = (Raise e, s') →
  objects s' = objects s.
Proof.
  unfold S3Storage.store_raw_data, bind. rewrite put_object_run.
  destruct (client_error (calls s)); [|done]. by intros [= _ <-].
Qed.

(** X24.  What [fetch_news] reports.  With the key of the shipped
    configuration, which is empty, NewsAPI is not among the sources.
    On success the raw store holds, at the key reported, the compressed
    JSON text of what [fetch_logistics_news] returned, and the count
    reported is the number of articles in it.  On failure no object is
    written and no source is reported, whatever the feeds gave. *)
Theorem fetch_news_reports_what_it_stored started ended s r s' :
  Main.fetch_news started ended s = (Return r, s') →
  ("newsapi" ∉ Main.nr_sources r) ∧
  if Main.nr_success r
  then ∃ key data,
         NewsApiClient.fetch_logistics_news config.NEWS_API_KEY = Return data ∧
         Main.nr_s3_key r = Some key ∧
         objects s' !! key
         = Some (S3Storage.json_object
                   (gzip_compress
                      (Json.dumps (NewsApiClient.news_json data)))) ∧
         Main.nr_article_count r
         = Some (length (NewsApiClient.articles data)) ∧
         Main.nr_sources r = NewsApiClient.sources data
  else Main.nr_sources r = [] ∧ Main.nr_s3_key r = None ∧
       is_Some (Main.nr_error r) ∧ objects s' = objects s.
Proof.
  unfold Main.fetch_news.
  destruct (NewsApiClient.fetch_logistics_news config.NEWS_API_KEY)
    as [data|e] eqn:Hnews.
  2:{ intros [= <- <-]. simpl. split; [by intros ?%elem_of_nil|].
      by repeat split. }
  destruct (logistics_news_run _ _ Hnews) as (Hsrc & _ & Htotal).
  change (Py.falsy config.NEWS_API_KEY) with true in Hsrc.
  rewrite app_nil_l in Hsrc.
  assert ("newsapi" ∉ NewsApiClient.sources data) as Hnone.
  { rewrite Hsrc. intros (feed & Heq & _)%list_elem_of_fmap.
    discriminate Heq. }
  destruct (bind _ _ s) as [[key|e] s1] eqn:Hstore; intros [= <- <-]; simpl.
  - split; [done|]. exists key, data. split; [done|]. split; [done|].
    revert Hstore. unfold bind at 1.
    destruct (S3Storage.init s) as [[[]|e] s0]; [|done].
    intros Hstore. apply store_raw_data_returns in Hstore.
    split; [done|]. split; [|done]. by rewrite Htotal.
  - split; [by intros ?%elem_of_nil|]. repeat split; [done|].
    revert Hstore. unfold bind at 1.
    destruct (S3Storage.init s) as [[[]|e0] s0] eqn:Hinit.
    + apply init_keeps_objects in Hinit as <-.
      apply store_raw_data_raises.
    + intros [= _ <-]. by apply init_keeps_objects in Hinit.
Qed.
End FetchNews.

Lemma logistics_news_keeps_first_article_per_url_witness :
  ∃ data,
    @NewsApiClient.fetch_logistics_news Fixtures.news_sources "key"
      = Return data ∧
    NewsApiClient.articles data = [Fixtures.shipment] ∧
    NewsApiClient.total_articles data = length (NewsApiClient.articles data) ∧
    NoDup (art_url <$> NewsApiClient.articles data) ∧
    NewsApiClient.sources data
    = ["newsapi"; "rss:https://www.supplychaindive.com/feeds/news/";
       "rss:https://www.freightwaves.com/news/feed"].
Proof.
  eexists. split; [reflexivity|]. split; [reflexivity|].
  destruct (@logistics_news_keeps_first_article_per_url
              Fixtures.news_sources "key" _ eq_refl)
    as (Htotal & Hnd & _ & _ & _ & Hsrc).
  split; [exact Htotal|]. split; [exact Hnd|]. exact Hsrc.
Defined.

Lemma fetch_news_reports_what_it_stored_witness :
  let run := @Main.fetch_news Fixtures.news_sources Store.gzip
               Site.wall_clock Store.reliable "start" "end" Store.empty in
  ∃ r, run.1 = Return r ∧
       ("newsapi" ∉ Main.nr_sources r) ∧
       Main.nr_success r = true ∧
       Main.nr_article_count r = Some 1.
Proof.
  intros run. eexists. split; [reflexivity|].
  destruct (@fetch_news_reports_what_it_stored Fixtures.news_sources
              Store.gzip Site.wall_clock Store.reliable "start" "end"
              Store.empty _ _ eq_refl) as [Hnone _].
  split; [exact Hnone|]. split; reflexivity.
Defined.

(** ** A whole crawl *)

Section WholeCrawl.
Context `{Hashlib, PySet, Nlp, Network, Extraction, Clock, Gzip, PyRepr,
          Frames, S3Service}.

Lemma text_key_is_not_a_processed_key source filename source' filename' :
  S3Storage._generate_key source "text_processed" filename
  ≠ S3Storage._generate_key source' config.S3_PROCESSED_DATA_PREFIX filename'.
Proof. unfold S3Storage._generate_key. discriminate. Qed.

(** The objects [_post_crawl_processing] writes when it returns: the
    summary, then the sitemap. *)
Lemma post_crawl_processing_objects self w s self' s' :
  StaticCrawler._post_crawl_processing self w s = (Return self', s') →
  StaticCrawler.visited_urls self' = StaticCrawler.visited_urls self ∧
  ∃ summary,
    objects s'
    = <[S3Storage._generate_key (BaseCrawler.name (StaticCrawler.base self))
          config.S3_PROCESSED_DATA_PREFIX (StaticCrawler.sitemap_filename self)
        := S3Storage.json_object
             (gzip_compress
                (Json.dumps
                   (JObj [("urls",
                           JList (JStr <$> TextProcessor.set_of_list
                                    (elements
                                       (StaticCrawler.visited_urls self))));
                          ("last_updated",
                           JStr (isoformat_later (clock w)))])))]>
        (<[summary_key self := summary]> (objects s)).
Proof.
  unfold StaticCrawler._post_crawl_processing, S3Storage.store_processed_data.
  rewrite !bool_decide_eq_true_2 by done.
  unfold S3Storage.filename_or, StaticCrawler.summary_filename,
    StaticCrawler.sitemap_filename.
  rewrite !falsy_suffixed.
  unfold bind, ret. rewrite put_object_run.
  destruct (client_error (calls s)); [done|].
  rewrite put_object_run. cbn [calls].
  destruct (client_error (S (calls s))); [done|].
  intros [= <- <-]. split; [done|]. by eexists.
Qed.

(** X25.  What a crawl that returns leaves behind, for a crawler that
    starts within its page limit: at most [page_limit] pages, no two
    for the same URL and each for a visited URL; in the text store an
    object that decompresses to JSON arrays, one per uploaded part,
    holding one record for each page returned, in the same order; and in
    the processed store the sitemap, which lists every visited URL once,
    in the order the interpreter iterates the set in, with the time of
    a clock read of its own. *)
Theorem crawl_leaves_pages_and_objects fuel c w s data c' w' s' :
  size (StaticCrawler.visited_urls c) ≤ StaticCrawler.page_limit c →
  StaticCrawler.crawl fuel c w s = Some (Return (data, c', w'), s') →
  let name := BaseCrawler.name (StaticCrawler.base c) in
  length data ≤ StaticCrawler.page_limit c ∧
  NoDup (StaticCrawler.pd_url <$> data) ∧
  (∀ u, u ∈ StaticCrawler.pd_url <$> data →
        u ∈ StaticCrawler.visited_urls c') ∧
  (∃ o parts records,
     objects s' !! S3Storage._generate_key name "text_processed"
                     (S3Storage.filename_or None name "_text.json.gz")
       = Some o ∧
     gzip_decompress (Body o) = Some (dumps_parts parts) ∧
     concat parts = StaticCrawler.text_data_json <$> records ∧
     StaticCrawler.td_url <$> records = StaticCrawler.pd_url <$> data) ∧
  (∃ urls,
     urls ≡ₚ elements (StaticCrawler.visited_urls c') ∧
     objects s' !! S3Storage._generate_key name
                     config.S3_PROCESSED_DATA_PREFIX
                     (StaticCrawler.sitemap_filename c)
     = Some (S3Storage.json_object
               (gzip_compress
                  (Json.dumps
                     (JObj [("urls", JList (JStr <$> urls));
                            ("last_updated",
                             JStr (isoformat_later (clock w')))]))))).
Proof.
  intros Hle Hrun name. revert Hrun. unfold StaticCrawler.crawl.
  destruct (S3Storage.init s) as [[[]|e0] s0]; [|done].
  destruct (StaticCrawler.text_data_generator fuel _) as [r|] eqn:Hgen;
    [|done].
  destruct (generator_run _ _ _ Hgen) as (f & Hrtc & Hself & Hy & Hcd).
  destruct (turns_keep_configuration _ _ Hrtc) as [_ Hb]. simpl in Hb.
  destruct (loop_keeps_the_records _ _ Hrtc)
    as (Hl & _ & Hurls & Hnd & Hvis & Hlen & Hlim);
    [exact Hle|reflexivity|reflexivity|apply NoDup_nil_2
    |intros u Hu; by apply elem_of_nil in Hu|simpl; lia|].
  simpl in Hl.
  set (fr := StaticCrawler.ended_frame r) in *.
  unfold bind at 1.
  destruct (S3Storage.stream_processed_text_data _ _ _ s0)
    as [[k|e1] s1] eqn:Hstream; [|done].
  destruct (StaticCrawler._post_crawl_processing _ _ s1)
    as [[self'|e2] s2] eqn:Hpost; [|done].
  intros [= <- <- <- <-].
  assert (BaseCrawler.name (StaticCrawler.base (StaticCrawler.self fr)) = name)
    as Hname by (subst name; by rewrite Hself, Hb).
  assert (StaticCrawler.sitemap_filename (StaticCrawler.self fr)
          = StaticCrawler.sitemap_filename c) as Hsitemap
    by (unfold StaticCrawler.sitemap_filename; by rewrite Hname).
  rewrite Hname in Hstream.
  destruct r as [f0|e f0].
  2:{ by apply stream_of_raising_generator in Hstream. }
  apply stream_with_returns in Hstream as [-> Hobj1].
  apply post_crawl_processing_objects in Hpost
    as (Hvisited & summary & Hobj2).
  rewrite Hname, Hsitemap in Hobj2.
  rewrite Hvisited. rewrite <- Hurls, <- Hcd in Hnd, Hvis, Hlen.
  rewrite length_fmap in Hlen.
  split; [lia|]. split; [done|].
  split; [intros u Hu; rewrite Hself; by apply Hvis|]. split.
  - eexists _, (split_parts S3Storage.max_buffer_size _),
      (StaticCrawler.yielded fr).
    rewrite Hobj2, lookup_insert_ne
      by (intros Heq; symmetry in Heq;
          by apply text_key_is_not_a_processed_key in Heq).
    rewrite lookup_insert_ne
      by (intros Heq; symmetry in Heq;
          by apply text_key_is_not_a_processed_key in Heq).
    rewrite Hobj1, lookup_insert_eq. split; [done|].
    cbn [Body S3Storage.json_object]. split; [apply decompress_parts|].
    destruct (split_parts_spec S3Storage.max_buffer_size
                (StaticCrawler.text_data_json <$> StaticCrawler.yielded fr))
      as [Hcat _].
    split; [exact Hcat|]. by rewrite Hy, <- Hurls, Hcd.
  - eexists. split; [apply set_of_list_perm, NoDup_elements|].
    by rewrite Hobj2, lookup_insert_eq.
Qed.
End WholeCrawl.

Lemma crawl_leaves_pages_and_objects_witness :
  match Store.crawl_run with
  | Some (Return (data, c', w'), s') =>
      length data ≤ 10 ∧ NoDup (StaticCrawler.pd_url <$> data) ∧
      (∀ u, u ∈ StaticCrawler.pd_url <$> data →
            u ∈ StaticCrawler.visited_urls c')
  | _ => False
  end.
Proof.
  destruct Store.crawl_run as [[[[[data c'] w']|e] s']|] eqn:Hrun;
    try (vm_compute in Hrun; discriminate Hrun).
  destruct (@crawl_leaves_pages_and_objects Demo.hashlib Demo.newest_last
              Demo.nlp Site.network Site.extraction Site.wall_clock
              Store.gzip Store.pyrepr Store.frames Store.reliable
              10 Site.crawler Site.w0 Store.empty data c' w' s')
    as (Hlen & Hnd & Hvis & _).
  - vm_compute. lia.
  - exact Hrun.
  - split; [exact Hlen|]. split; [exact Hnd|exact Hvis].
Defined.

(** ** Reading back the other formats *)

Lemma string_rev_acc s : ∀ acc,
  String.rev_app s acc = String.rev s +:+ acc.
Proof.
  unfold String.rev. induction s as [|c s IH]; intros acc; [done|].
  cbn [String.rev_app]. rewrite IH, (IH (String c "")).
  by rewrite string_app_assoc.
Qed.

Lemma string_rev_app a b :
  String.rev (a +:+ b) = String.rev b +:+ String.rev a.
Proof.
  induction a as [|c a IH].
  - by rewrite string_app_nil_r.
  - rewrite string_app_cons. unfold String.rev at 1 3.
    cbn [String.rev_app]. rewrite !string_rev_acc, IH.
    by rewrite string_app_assoc.
Qed.

Lemma prefix_app p s t :
  String.prefix p s = true → String.prefix p (s +:+ t) = true.
Proof.
  revert s. induction p as [|c p IH]; intros s Hp; [by destruct (s +:+ t)|].
  destruct s as [|c' s]; [done|]. rewrite string_app_cons.
  cbn [String.prefix] in *.
  destruct (ascii_dec c c'); [by apply IH|done].
Qed.

Lemma endswith_app a b p :
  Py.endswith b p = true → Py.endswith (a +:+ b) p = true.
Proof.
  unfold Py.endswith. rewrite string_rev_app. apply prefix_app.
Qed.

Section OtherFormats.
Context `{Hashlib, Gzip, PyRepr, Clock, Frames, S3Service, Decoders}.

Lemma load_data_run key o s :
  objects s !! key = Some o →
  client_error (calls s) = false →
  S3Storage.load_data key s
  = match (if bool_decide (default "" (ContentEncoding o) = "gzip")
           then gzip_decompress (Body o) else Some (Body o)) with
    | None => (Raise OtherException, S3Client.tick s)
    | Some body =>
        (if Py.contains "json" (ContentType o)
         then S3Storage.decoded (json_loads body)
         else if Py.contains "parquet" (ContentType o)
                 || Py.endswith key ".parquet"
         then S3Storage.decoded (read_parquet body)
         else if Py.contains "csv" (ContentType o) || Py.endswith key ".csv"
         then S3Storage.decoded (read_csv body)
         else match Py.decode_utf8 body with
              | Some text => ret (JObj [("raw", JStr text)])
              | None => raise OtherException
              end) (S3Client.tick s)
    end.
Proof.
  intros Hobj Hok. unfold S3Storage.load_data. unfold bind at 1.
  rewrite get_object_run, Hok, Hobj. unfold bind.
  case_bool_decide; [|done]. by destruct (gzip_decompress (Body o)).
Qed.

(** X26.  Reading back what [store_processed_data] wrote in the other
    formats.  A Parquet object stored under the default name is read by
    the Parquet reader, and a CSV object stored under the default name
    is decompressed and read by the CSV reader.  A Parquet object stored
    under a name that ends in neither ".parquet" nor ".csv" is not
    recognised: [load_data] does not hand it to the Parquet reader but
    decodes its bytes as UTF-8; it raises when they are not UTF-8 and
    returns them under "raw" when they are. *)
Theorem load_data_dispatches_on_type_and_suffix source data filename s k s' :
  client_error (calls s') = false →
  (S3Storage.store_processed_data source data "parquet" None s
     = (Return k, s') →
   ∃ table,
     to_parquet data = Some table ∧
     S3Storage.load_data k s'
     = S3Storage.decoded (read_parquet table) (S3Client.tick s')) ∧
  (S3Storage.store_processed_data source data "csv" None s = (Return k, s') →
   ∃ csv_data,
     to_csv data = Some csv_data ∧
     S3Storage.load_data k s'
     = S3Storage.decoded (read_csv csv_data) (S3Client.tick s')) ∧
  (S3Storage.store_processed_data source data "parquet" filename s
     = (Return k, s') →
   Py.endswith k ".parquet" = false → Py.endswith k ".csv" = false →
   ∃ table,
     to_parquet data = Some table ∧
     S3Storage.load_data k s'
     = match Py.decode_utf8 table with
       | Some text => (Return (JObj [("raw", JStr text)]), S3Client.tick s')
       | None => (Raise OtherException, S3Client.tick s')
       end).
Proof.
  intros Hok. unfold S3Storage.store_processed_data.
  rewrite !(bool_decide_eq_false_2 ("parquet" = "json")) by done.
  rewrite !(bool_decide_eq_true_2 ("parquet" = "parquet")) by done.
  rewrite (bool_decide_eq_false_2 ("csv" = "json")) by done.
  rewrite (bool_decide_eq_false_2 ("csv" = "parquet")) by done.
  rewrite (bool_decide_eq_true_2 ("csv" = "csv")) by done.
  split; [|split].
  - destruct (to_parquet data) as [table|]; [|done].
    intros Hrun. apply put_then_ret in Hrun as [-> Hobj].
    exists table. split; [done|].
    rewrite (load_data_run _ _ _ (eq_trans (f_equal (.!! _) Hobj)
                                    (lookup_insert_eq _ _ _))) by done.
    cbn [ContentEncoding ContentType Body default].
    rewrite bool_decide_eq_false_2 by done.
    change (Py.contains "json" "application/octet-stream") with false.
    change (Py.contains "parquet" "application/octet-stream") with false.
    cbv iota. cbn [orb].
    replace (Py.endswith _ ".parquet") with true; [done|]. symmetry.
    unfold S3Storage._generate_key, S3Storage.filename_or.
    by do 9 apply endswith_app.
  - destruct (to_csv data) as [csv_data|]; [|done].
    intros Hrun. apply put_then_ret in Hrun as [-> Hobj].
    exists csv_data. split; [done|].
    rewrite (load_data_run _ _ _ (eq_trans (f_equal (.!! _) Hobj)
                                    (lookup_insert_eq _ _ _))) by done.
    cbn [ContentEncoding ContentType Body default].
    rewrite bool_decide_eq_true_2 by done.
    pose proof (gzip_members [csv_data]) as Hz. simpl in Hz. rewrite Hz.
    change (Py.contains "json" "text/csv") with false.
    change (Py.contains "parquet" "text/csv") with false.
    change (Py.contains "csv" "text/csv") with true.
    cbv iota. cbn [orb].
    replace (Py.endswith _ ".parquet") with false; [done|]. symmetry.
    unfold S3Storage._generate_key, S3Storage.filename_or, Py.endswith.
    rewrite !string_rev_app. done.
  - destruct (to_parquet data) as [table|]; [|done].
    intros Hrun Hp Hc. apply put_then_ret in Hrun as [-> Hobj].
    exists table. split; [done|].
    rewrite (load_data_run _ _ _ (eq_trans (f_equal (.!! _) Hobj)
                                    (lookup_insert_eq _ _ _))) by done.
    cbn [ContentEncoding ContentType Body default].
    rewrite bool_decide_eq_false_2 by done.
    change (Py.contains "json" "application/octet-stream") with false.
    change (Py.contains "parquet" "application/octet-stream") with false.
    change (Py.contains "csv" "application/octet-stream") with false.
    rewrite Hp, Hc. cbv iota. cbn [orb].
    by destruct (Py.decode_utf8 table).
Qed.
End OtherFormats.

Lemma load_data_dispatches_on_type_and_suffix_witness :
  let data := JList [Store.record "https://ex.com"] in
  let r := @S3Storage.store_processed_data Store.gzip Site.wall_clock
             Fixtures.frames Store.reliable "ex" data "parquet"
             (Some "pages.bin") Store.empty in
  ∃ k, r.1 = Return k ∧
  @S3Storage.load_data Store.gzip Store.reliable Fixtures.decoders k r.2
  = (Raise OtherException, S3Client.tick r.2).
Proof.
  intros data r. eexists. split; [reflexivity|].
  destruct (proj2 (proj2 (@load_data_dispatches_on_type_and_suffix
                            Store.gzip Site.wall_clock Fixtures.frames
                            Store.reliable Fixtures.decoders "ex" data
                            (Some "pages.bin") Store.empty
                            "processed/ex/2026/01/01/pages.bin" r.2
                            eq_refl)))
    as (table & Htable & Hload).
  - reflexivity.
  - vm_compute. reflexivity.
  - vm_compute. reflexivity.
  - injection Htable as <-. exact Hload.
Defined.

(** ** A crawl that fails *)

Section FailedCrawl.
Context `{Hashlib, PySet, Nlp, Network, Extraction, Clock, Gzip, PyRepr,
          Frames, S3Service}.

(** A stream that raises has written no object. *)
Lemma stream_with_raise_objects mbs source data filename s e s' :
  S3Storage.stream_with mbs source data filename s = (Raise e, s') →
  objects s' = objects s.
Proof.
  unfold S3Storage.stream_with, try_bound.
  set (key := S3Storage._generate_key _ _ _).
  rewrite create_multipart_upload_run.
  destruct (client_error (calls s)).
  { rewrite on_client_error_raises. by intros [= _ <-]. }
  set (s1 := mk_s3 _ _ _ _). set (id := next_upload_id s).
  set (rest := bind _ _).
  assert (∀ r s2, rest s1 = (r, s2) →
            if r is Raise _ then objects s2 = objects s1 else True) as Hrest.
  { subst rest. intros r s2. unfold bind at 1.
    destruct (S3Storage.process_chunks _ _ _ _ _ _ s1) as [[st|e1] sa] eqn:Hpc;
      destruct (keeps_process_chunks id _ _ _ _ _ _ _ _ _ Hpc) as [Hoa _].
    2:{ by intros [= <- <-]. }
    unfold bind at 1.
    set (final := match S3Storage.buffer st with [] => _ | _ => _ end).
    assert (keeps id final) as Hfinal.
    { subst final. destruct (S3Storage.buffer st); [apply keeps_ret|].
      apply keeps_bind; [apply keeps_upload_part|].
      intros etag. apply keeps_ret. }
    destruct (final sa) as [[parts|e2] sb] eqn:Hfin;
      destruct (Hfinal _ _ _ Hfin) as [Hob _].
    2:{ intros [= <- <-]. congruence. }
    unfold bind at 1.
    destruct (S3Client.complete_multipart_upload _ _ _ sb)
      as [[[]|e3] sc] eqn:Hc.
    - unfold ret. by intros [= <- <-].
    - intros [= <- <-]. apply complete_raise in Hc as [Hoc _]. congruence. }
  destruct (rest s1) as [[k|e1] s2] eqn:Hrun; [done|].
  specialize (Hrest _ _ eq_refl). simpl in Hrest.
  destruct e1; [rewrite on_client_error_raises|unfold raise];
    by intros [= _ <-].
Qed.

(** X27.  An exception in one fetch is fatal to the crawl.  When the
    generator raises (a fetch of [BaseCrawler.get_page] ended in an
    exception that is not a [RequestException]), [crawl] raises too,
    whatever the store does: the stream never completes, the post-crawl
    processing is not reached, and no object is written, neither text
    records nor summary nor sitemap. *)
Theorem crashed_fetch_fails_the_crawl fuel c w s e f :
  StaticCrawler.text_data_generator fuel (StaticCrawler.start c w)
    = Some (StaticCrawler.Raised e f) →
  ∃ e' s', StaticCrawler.crawl fuel c w s = Some (Raise e', s') ∧
           objects s' = objects s.
Proof.
  intros Hgen. unfold StaticCrawler.crawl.
  destruct (S3Storage.init s) as [[[]|e0] s0] eqn:Hinit;
    apply init_keeps_objects in Hinit; [|by eexists _, _].
  rewrite Hgen. cbn [StaticCrawler.ended_frame].
  unfold bind at 1. unfold S3Storage.stream_processed_text_data.
  destruct (S3Storage.stream_with _ _ _ _ s0) as [[k|e1] s1] eqn:Hstream.
  - by apply stream_of_raising_generator in Hstream.
  - apply stream_with_raise_objects in Hstream.
    eexists _, _. split; [done|]. congruence.
Qed.
End FailedCrawl.

Lemma crashed_fetch_fails_the_crawl_witness :
  ∃ e' s',
    @StaticCrawler.crawl Demo.hashlib Demo.newest_last Demo.nlp
      Fixtures.broken Site.extraction Site.wall_clock Store.gzip
      Store.pyrepr Store.frames Store.reliable 10 Site.crawler Site.w0
      Store.empty = Some (Raise e', s') ∧
    objects s' = objects Store.empty.
Proof.
  eapply (@crashed_fetch_fails_the_crawl Demo.hashlib Demo.newest_last
            Demo.nlp Fixtures.broken Site.extraction Site.wall_clock
            Store.gzip Store.pyrepr Store.frames Store.reliable 10
            Site.crawler Site.w0 Store.empty).
  vm_compute. reflexivity.
Defined.
